(** * Temperature matrix view: the aggregation pipeline of [script.js]

    A shallow embedding of [script.js]: the data pipeline
    ([parseTemperatureData], [filterDataByYearRange], [aggregateMonthlyData],
    [createColorScale]), the layout ([calculateSVGDimensions]) and what the
    rendering functions compute for the elements they append, together with
    the parts of the ECMAScript runtime and of the d3 library these functions
    call.

    - Strings are sequences of UTF-16 code units.
    - A JavaScript Number holding a temperature is an IEEE 754 binary64 value
      ([spec_float] at precision 53, exponent bound 1024), with the operations
      of the standard library's executable specification.
    - The calendar fields of a [Date] are integral Numbers or [NaN]; they are
      [option Z], with [None] for [NaN].
    - What ECMAScript leaves to the host (the local time zone, and the parsing
      of date strings outside the date-time string format) is a parameter. *)

From Stdlib Require Import ZArith Zpower NArith List Bool Lia String Ascii DecimalString.
From Stdlib Require Import Sorting.Sorted.
From Stdlib Require Import Floats.SpecFloat.
From stdpp Require Import base option list sorting gmap.

Import ListNotations.

(* ##################################################################### *)
(** * Part I: the program, its libraries, and the notions of the claims *)
(* ##################################################################### *)

(* ===================================================================== *)
(** * Strings *)
(* ===================================================================== *)

(** A JavaScript string: a sequence of 16-bit code units. *)
Definition jsstring := list N.

(** The code units of an ASCII literal. *)
Fixpoint lit (s : string) : jsstring :=
  match s with
  | EmptyString => []
  | String c s' => N_of_ascii c :: lit s'
  end.

(* ===================================================================== *)
(** * Numbers (binary64) *)
(* ===================================================================== *)

Module Number.

Local Open Scope Z_scope.

Definition prec : Z := 53.
Definition emax : Z := 1024.

(** A Number value. *)
Definition number := spec_float.

Definition NaN : number := S754_nan.
Definition pos_zero : number := S754_zero false.
Definition neg_zero : number := S754_zero true.
Definition infinity (neg : bool) : number := S754_infinity neg.

Definition add : number -> number -> number := SFadd prec emax.
Definition sub : number -> number -> number := SFsub prec emax.
Definition mul : number -> number -> number := SFmul prec emax.
Definition div : number -> number -> number := SFdiv prec emax.

(** [x < y], [x <= y], [x >= y] of the language: false as soon as an operand
    is [NaN]. *)
Definition lt (x y : number) : bool := SFltb x y.
Definition le (x y : number) : bool := SFleb x y.
Definition ge (x y : number) : bool := SFleb y x.

Definition isNaN (x : number) : bool :=
  match x with S754_nan => true | _ => false end.

(** The Number for an integer (exact below 2^53, rounded to nearest even
    above). *)
Definition ofZ (z : Z) : number := binary_normalize prec emax z 0 false.

(** The Number nearest to the rational [n / d] (ties to even). The quotient is
    computed with at least 55 significant bits and a sticky bit for the
    remainder, then rounded once. *)
Definition ofQ (neg : bool) (n d : positive) : number :=
  let s := Z.max 0 (55 + Z.pos (digits2_pos d) - Z.pos (digits2_pos n)) in
  let (q, r) := Z.div_eucl (Z.shiftl (Z.pos n) s) (Z.pos d) in
  let m := 2 * q + (if r =? 0 then 0 else 1) in
  binary_normalize prec emax (if neg then - m else m) (- s - 1) neg.

(** The Number for [m * 10^e], [m >= 0], with the sign given apart (so that
    [-0] keeps its sign). *)
Definition ofDecimal (neg : bool) (m e : Z) : number :=
  match m with
  | Z.pos p =>
      if 0 <=? e then ofQ neg (p * Z.to_pos (10 ^ e)) 1
      else ofQ neg p (Z.to_pos (10 ^ (- e)))
  | _ => S754_zero neg
  end.

(** ** StringToNumber: the unary [+] on a string *)

(** WhiteSpace and LineTerminator code points. *)
Definition isStrWhiteSpaceChar (c : N) : bool :=
  let c := Z.of_N c in
  (c =? 0x09) || (c =? 0x0A) || (c =? 0x0B) || (c =? 0x0C) || (c =? 0x0D)
  || (c =? 0x20) || (c =? 0xA0) || (c =? 0x1680)
  || ((0x2000 <=? c) && (c <=? 0x200A))
  || (c =? 0x2028) || (c =? 0x2029) || (c =? 0x202F) || (c =? 0x205F)
  || (c =? 0x3000) || (c =? 0xFEFF).

Fixpoint trimStart (s : jsstring) : jsstring :=
  match s with
  | c :: s' => if isStrWhiteSpaceChar c then trimStart s' else s
  | [] => []
  end.

Definition trim (s : jsstring) : jsstring :=
  rev (trimStart (rev (trimStart s))).

Definition digitValue (c : N) : option Z :=
  let c := Z.of_N c in
  if (0x30 <=? c) && (c <=? 0x39) then Some (c - 0x30) else None.

Definition hexDigitValue (c : N) : option Z :=
  let c := Z.of_N c in
  if (0x30 <=? c) && (c <=? 0x39) then Some (c - 0x30)
  else if (0x41 <=? c) && (c <=? 0x46) then Some (c - 0x41 + 10)
  else if (0x61 <=? c) && (c <=? 0x66) then Some (c - 0x61 + 10)
  else None.

(** The longest prefix of digits in base [base]: its value (from accumulator
    [acc]), its length, and the rest of the string. *)
Fixpoint digits (dv : N -> option Z) (base : Z) (acc : Z) (n : Z) (s : jsstring)
  : Z * Z * jsstring :=
  match s with
  | c :: s' =>
      match dv c with
      | Some d => if d <? base then digits dv base (acc * base + d) (n + 1) s'
                  else (acc, n, s)
      | None => (acc, n, s)
      end
  | [] => (acc, n, s)
  end.

(** An optional sign: [true] for a minus. *)
Definition sign (s : jsstring) : bool * jsstring :=
  match s with
  | c :: s' =>
      if (c =? 0x2B)%N then (false, s')
      else if (c =? 0x2D)%N then (true, s')
      else (false, s)
  | [] => (false, [])
  end.

(** ExponentPart, when present: [None] when the string does not end after a
    well-formed exponent. *)
Definition exponentPart (s : jsstring) : option Z :=
  match s with
  | [] => Some 0
  | c :: s' =>
      if (c =? 0x65)%N || (c =? 0x45)%N then
        let (neg, s'') := sign s' in
        match digits digitValue 10 0 0 s'' with
        | (v, n, []) => if 0 <? n then Some (if neg then - v else v) else None
        | _ => None
        end
      else None
  end.

(** StrUnsignedDecimalLiteral other than [Infinity]: digits, an optional
    point and more digits, one digit at least, an optional exponent. *)
Definition unsignedDecimal (neg : bool) (s : jsstring) : number :=
  let '(i, ni, s1) := digits digitValue 10 0 0 s in
  let '(m, nf, s2) :=
    match s1 with
    | c :: s1' =>
        if (c =? 0x2E)%N then digits digitValue 10 i 0 s1' else (i, 0, s1)
    | [] => (i, 0, s1)
    end in
  if 0 <? ni + nf then
    match exponentPart s2 with
    | Some e => ofDecimal neg m (e - nf)
    | None => NaN
    end
  else NaN.

(** The digits of a NonDecimalIntegerLiteral in base [base], to the end of
    the string. *)
Definition radixDigits (base : Z) (s : jsstring) : number :=
  match digits hexDigitValue base 0 0 s with
  | (v, n, []) => if 0 <? n then ofDecimal false v 0 else NaN
  | _ => NaN
  end.

(** NonDecimalIntegerLiteral: [0b], [0o], [0x] and their digits; [None] when
    the string does not start with one of these prefixes. *)
Definition nonDecimal (s : jsstring) : option number :=
  match s with
  | c :: p :: s' =>
      if (c =? 0x30)%N then
        if (p =? 0x62)%N || (p =? 0x42)%N then Some (radixDigits 2 s')
        else if (p =? 0x6F)%N || (p =? 0x4F)%N then Some (radixDigits 8 s')
        else if (p =? 0x78)%N || (p =? 0x58)%N then Some (radixDigits 16 s')
        else None
      else None
  | _ => None
  end.

Definition StringToNumber (str : jsstring) : number :=
  match trim str with
  | [] => pos_zero
  | s =>
      match nonDecimal s with
      | Some v => v
      | None =>
          let (neg, s') := sign s in
          if decide (s' = lit "Infinity") then infinity neg
          else unsignedDecimal neg s'
      end
  end.

End Number.

Import Number.

(* ===================================================================== *)
(** * Dates *)
(* ===================================================================== *)

Module JSDate.

Local Open Scope Z_scope.

(** ** Day number and time within a day (time values are milliseconds since
    the epoch, UTC) *)

Definition msPerDay : Z := 86400000.
Definition msPerMinute : Z := 60000.

Definition Day (t : Z) : Z := t / msPerDay.

Definition DaysInYear (y : Z) : Z :=
  if negb (y mod 4 =? 0) then 365
  else if negb (y mod 100 =? 0) then 366
  else if negb (y mod 400 =? 0) then 365
  else 366.

Definition DayFromYear (y : Z) : Z :=
  365 * (y - 1970) + (y - 1969) / 4 - (y - 1901) / 100 + (y - 1601) / 400.

Definition InLeapYear_of (y : Z) : Z :=
  if DaysInYear y =? 366 then 1 else 0.

(** The largest [y] with [DayFromYear y <= d]: an estimate from the mean
    length of a year, corrected by at most one. *)
Definition YearFromDay (d : Z) : Z :=
  let y := 1970 + (d * 400) / 146097 in
  if d <? DayFromYear y then y - 1
  else if DayFromYear (y + 1) <=? d then y + 1
  else y.

Definition YearFromTime (t : Z) : Z := YearFromDay (Day t).

Definition InLeapYear (t : Z) : Z := InLeapYear_of (YearFromTime t).

Definition DayWithinYear (t : Z) : Z := Day t - DayFromYear (YearFromTime t).

Definition MonthFromTime (t : Z) : Z :=
  let d := DayWithinYear t in
  let l := InLeapYear t in
  if d <? 31 then 0
  else if d <? 59 + l then 1
  else if d <? 90 + l then 2
  else if d <? 120 + l then 3
  else if d <? 151 + l then 4
  else if d <? 181 + l then 5
  else if d <? 212 + l then 6
  else if d <? 243 + l then 7
  else if d <? 273 + l then 8
  else if d <? 304 + l then 9
  else if d <? 334 + l then 10
  else 11.

Definition DateFromTime (t : Z) : Z :=
  let d := DayWithinYear t in
  let l := InLeapYear t in
  match MonthFromTime t with
  | 0 => d + 1
  | 1 => d - 30
  | 2 => d - 58 - l
  | 3 => d - 89 - l
  | 4 => d - 119 - l
  | 5 => d - 150 - l
  | 6 => d - 180 - l
  | 7 => d - 211 - l
  | 8 => d - 242 - l
  | 9 => d - 272 - l
  | 10 => d - 303 - l
  | _ => d - 333 - l
  end.

(** ** From calendar fields to a time value *)

(** Days from the start of year [y] to the start of its month [m] (0-11). *)
Definition DaysBeforeMonth (y m : Z) : Z :=
  let l := InLeapYear_of y in
  match m with
  | 0 => 0
  | 1 => 31
  | 2 => 59 + l
  | 3 => 90 + l
  | 4 => 120 + l
  | 5 => 151 + l
  | 6 => 181 + l
  | 7 => 212 + l
  | 8 => 243 + l
  | 9 => 273 + l
  | 10 => 304 + l
  | _ => 334 + l
  end.

(** The length of month [m] (0-11) of year [y]. *)
Definition DaysInMonth (y m : Z) : Z :=
  match m with
  | 1 => 28 + InLeapYear_of y
  | 3 | 5 | 8 | 10 => 30
  | _ => 31
  end.

(** MakeDay, for a month in 0-11 and a day of the month counted from 1. *)
Definition MakeDay (y m dt : Z) : Z :=
  DayFromYear y + DaysBeforeMonth y m + dt - 1.

(** MakeDate, at midnight. *)
Definition MakeDate (day : Z) : Z := day * msPerDay.

(** ** The date-only forms of the date-time string format *)

Inductive iso_date :=
| IsoDate (y m d : Z)   (** [YYYY], [YYYY-MM] or [YYYY-MM-DD], fields read *)
| NotIso.               (** any other string *)

Definition dig (c : N) : option Z := digitValue c.

Definition num2 (a b : N) : option Z :=
  match dig a, dig b with
  | Some x, Some y => Some (10 * x + y)
  | _, _ => None
  end.

Definition num4 (a b c d : N) : option Z :=
  match num2 a b, num2 c d with
  | Some x, Some y => Some (100 * x + y)
  | _, _ => None
  end.

Definition hyphen : N := 0x2D%N.

Definition parseIsoDate (s : jsstring) : iso_date :=
  match s with
  | [y1; y2; y3; y4] =>
      match num4 y1 y2 y3 y4 with
      | Some y => IsoDate y 1 1
      | None => NotIso
      end
  | [y1; y2; y3; y4; h1; m1; m2] =>
      match num4 y1 y2 y3 y4, num2 m1 m2 with
      | Some y, Some m => if (h1 =? hyphen)%N then IsoDate y m 1 else NotIso
      | _, _ => NotIso
      end
  | [y1; y2; y3; y4; h1; m1; m2; h2; d1; d2] =>
      match num4 y1 y2 y3 y4, num2 m1 m2, num2 d1 d2 with
      | Some y, Some m, Some d =>
          if (h1 =? hyphen)%N && (h2 =? hyphen)%N then IsoDate y m d else NotIso
      | _, _, _ => NotIso
      end
  | _ => NotIso
  end.

Section Host.

(** What the host decides: the offset of local time from UTC, in
    milliseconds, at a given instant; and the time value (or [NaN]) of a
    string that is not one of the date-only forms above, or that names a day
    its month does not have (engines differ on [2015-02-30]). *)
Variable LocalTZA : Z -> Z.
Variable hostDateParse : jsstring -> option Z.

(** [Date.parse]. A date-only form is UTC midnight; a month outside 01-12 or
    a day outside 01-31 is an illegal element value and gives [NaN]. *)
Definition Date_parse (s : jsstring) : option Z :=
  match parseIsoDate s with
  | IsoDate y m d =>
      if (1 <=? m) && (m <=? 12) && (1 <=? d) && (d <=? 31) then
        if d <=? DaysInMonth y (m - 1) then Some (MakeDate (MakeDay y (m - 1) d))
        else hostDateParse s
      else None
  | NotIso => hostDateParse s
  end.

(** [new Date(string)]: the time value of the object, [None] for an invalid
    date. *)
Definition new_Date (s : jsstring) : option Z := Date_parse s.

Definition LocalTime (t : Z) : Z := t + LocalTZA t.

Definition getFullYear (tv : option Z) : option Z :=
  match tv with
  | Some t => Some (YearFromTime (LocalTime t))
  | None => None
  end.

Definition getMonth (tv : option Z) : option Z :=
  match tv with
  | Some t => Some (MonthFromTime (LocalTime t))
  | None => None
  end.

Definition getDate (tv : option Z) : option Z :=
  match tv with
  | Some t => Some (DateFromTime (LocalTime t))
  | None => None
  end.

End Host.

End JSDate.

Import JSDate.

(* ===================================================================== *)
(** * Library functions: arrays, [Set], and d3-array *)
(* ===================================================================== *)

Module JSArray.

(** [Array.prototype.sort(comparefn)]. The comparator returns a Number, here
    an integer or [NaN] ([None]); SortCompare reads [NaN] as [+0]. The sort is
    stable; for a comparator that is a consistent ordering every stable sort
    gives this result (for other comparators the order is left to the
    engine). *)
Definition SortCompare {A} (comparefn : A -> A -> option Z) (x y : A) : Z :=
  default 0%Z (comparefn x y).

Fixpoint sort_insert {A} (comparefn : A -> A -> option Z) (x : A) (l : list A)
  : list A :=
  match l with
  | [] => [x]
  | y :: l' =>
      if (SortCompare comparefn x y <=? 0)%Z then x :: y :: l'
      else y :: sort_insert comparefn x l'
  end.

Fixpoint sort {A} (comparefn : A -> A -> option Z) (l : list A) : list A :=
  match l with
  | [] => []
  | x :: l' => sort_insert comparefn x (sort comparefn l')
  end.

(** [a - b] on integral Numbers. *)
Definition minus (a b : option Z) : option Z :=
  match a, b with
  | Some x, Some y => Some (x - y)%Z
  | _, _ => None
  end.

(** [[...new Set(values)]]: the distinct values, in order of first
    occurrence. *)
Definition Set_values {K} `{EqDecision K} (values : list K) : list K :=
  foldl (fun s v => if decide (v ∈ s) then s else s ++ [v]) [] values.

(** The pairs (index, element) that [forEach] visits. *)
Fixpoint entries_from {A} (i : Z) (l : list A) : list (Z * A) :=
  match l with
  | [] => []
  | x :: l' => (i, x) :: entries_from (i + 1) l'
  end.

Definition entries {A} (l : list A) : list (Z * A) := entries_from 0 l.

(** [a === b] on integral Numbers or [NaN]: [NaN] equals nothing. *)
Definition strictEq (a b : option Z) : bool :=
  match a, b with
  | Some x, Some y => (x =? y)%Z
  | _, _ => false
  end.

(** [Array.prototype.indexOf(searchElement)]: the index of the first element
    strictly equal to it, [-1] when there is none. *)
Fixpoint indexOf_from (i : Z) (l : list (option Z)) (searchElement : option Z) : Z :=
  match l with
  | [] => (-1)%Z
  | x :: l' =>
      if strictEq x searchElement then i
      else indexOf_from (i + 1) l' searchElement
  end.

Definition indexOf (l : list (option Z)) (searchElement : option Z) : Z :=
  indexOf_from 0 l searchElement.

End JSArray.

(** [Math.ceil], as an integer: [None] when the Number is not finite. *)
Module Math.
Definition ceil (x : number) : option Z :=
  match x with
  | S754_zero _ => Some 0%Z
  | S754_finite s m e =>
      let v := if s then Z.neg m else Z.pos m in
      Some (if (0 <=? e)%Z then v * 2 ^ e else - ((- v) / 2 ^ (- e)))%Z
  | _ => None
  end.
End Math.

(** ToInt32, on an integer. *)
Definition ToInt32 (z : Z) : Z := ((z + 2 ^ 31) mod 2 ^ 32 - 2 ^ 31)%Z.

Module d3.

(** [d3.group(values, key)]: a map from each key to the array of the values
    that have it, in the order of [values]. *)
Definition group {A K} `{Countable K} (values : list A) (key : A -> K)
  : gmap K (list A) :=
  foldl (fun groups value =>
           match groups !! key value with
           | Some g => <[key value := g ++ [value]]> groups
           | None => <[key value := [value]]> groups
           end) ∅ values.

(** [d3.group(values, key1, key2)]: each group is grouped again. *)
Definition group2 {A K1 K2} `{Countable K1} `{Countable K2}
    (values : list A) (key1 : A -> K1) (key2 : A -> K2)
  : gmap K1 (gmap K2 (list A)) :=
  (fun g => group g key2) <$> group values key1.

(** [d3.max(values, valueof)]: [None] is [undefined]. *)
Definition max {A} (values : list A) (valueof : A -> number) : option number :=
  foldl (fun max v =>
           let value := valueof v in
           match max with
           | Some m => if lt m value then Some value else max
           | None => if ge value value then Some value else max
           end) None values.

(** [d3.min(values, valueof)]. *)
Definition min {A} (values : list A) (valueof : A -> number) : option number :=
  foldl (fun min v =>
           let value := valueof v in
           match min with
           | Some m => if lt value m then Some value else min
           | None => if ge value value then Some value else min
           end) None values.

(** [d3.mean(values, valueof)]: the sum of the values that are not [NaN],
    accumulated from [0] in the order of [values], over their count. *)
Definition mean_acc {A} (values : list A) (valueof : A -> number) : Z * number :=
  foldl (fun '(count, sum) v =>
           let value := valueof v in
           if ge value value then ((count + 1)%Z, add sum value)
           else (count, sum)) (0%Z, pos_zero) values.

Definition mean {A} (values : list A) (valueof : A -> number) : option number :=
  let '(count, sum) := mean_acc values valueof in
  if (count =? 0)%Z then None else Some (div sum (ofZ count)).

(** [d3.range(start, stop, step)]: [n] values [start + i * step], with
    [n = Math.max(0, Math.ceil((stop - start) / step)) | 0]. [None] when
    [new Array(n)] throws a RangeError ([n] negative after the wrap to 32
    bits). *)
Definition range (start stop step : number) : option (list number) :=
  let n := match Math.ceil (div (sub stop start) step) with
           | Some c => ToInt32 (Z.max 0 c)
           | None => 0%Z
           end in
  if (n <? 0)%Z then None
  else Some (map (fun i => add start (mul (ofZ i) step)) (seqZ 0 n)).

End d3.

(* ===================================================================== *)
(** * [script.js] *)
(* ===================================================================== *)

(** ** Configuration *)

Module CONFIG.
Module margin.
Definition top : number := ofZ 50.
Definition right : number := ofZ 150.
Definition bottom : number := ofZ 50.
Definition left : number := ofZ 100.
End margin.
Definition cellWidth : number := ofZ 90.
Definition cellHeight : number := ofZ 55.
Definition monthCount : number := ofZ 12.
Module dayRange.
Definition min : number := ofZ 1.
Definition max : number := ofZ 31.
End dayRange.
Module tempRange.
Definition min : number := ofZ 0.
Definition max : number := ofZ 40.
End tempRange.
Module yearRange.
Definition start : Z := 2008.
Definition end_ : Z := 2017.
End yearRange.
Definition legendWidth : number := ofZ 20.
Definition legendHeight : number := ofZ 200.
Definition legendX : number := ofZ 30.
Definition cellPadding : number := ofZ 2.
Definition cellRounding : number := ofZ 3.
End CONFIG.

Definition MONTHS : list string :=
  [ "January"; "February"; "March"; "April"; "May"; "June"; "July"; "August";
    "September"; "October"; "November"; "December" ]%string.

(** ** Data *)

(** A row of the CSV file, as [d3.csv] hands it over: every field a string. *)
Module Raw.
Record row := {
  date : jsstring;
  max_temperature : jsstring;
  min_temperature : jsstring
}.
End Raw.

(** A parsed record. [date] is the time value of the [Date] object. *)
Record ParsedRecord := {
  date : option Z;
  maxTemperature : number;
  minTemperature : number;
  year : option Z;
  month : option Z;
  day : option Z
}.

(** An entry of [monthlyData]. [None] in a statistic is [undefined]. *)
Module Monthly.
Record summary := {
  year : option Z;
  month : Z;
  monthName : string;
  maxTemp : option number;
  minTemp : option number;
  avgMax : option number;
  avgMin : option number;
  dailyData : list ParsedRecord
}.
End Monthly.

#[global] Instance spec_float_eq_dec : EqDecision spec_float.
Proof. solve_decision. Defined.

#[global] Instance ParsedRecord_eq_dec : EqDecision ParsedRecord.
Proof. solve_decision. Defined.

(** ** The pipeline *)

Section Pipeline.

Variable LocalTZA : Z -> Z.
Variable hostDateParse : jsstring -> option Z.

Local Abbreviation new_Date := (JSDate.new_Date hostDateParse).
Local Abbreviation getFullYear := (JSDate.getFullYear LocalTZA).
Local Abbreviation getMonth := (JSDate.getMonth LocalTZA).
Local Abbreviation getDate := (JSDate.getDate LocalTZA).

Definition parseTemperatureData (rawData : list Raw.row) : list ParsedRecord :=
  map (fun d =>
         {| date := new_Date (Raw.date d);
            maxTemperature := StringToNumber (Raw.max_temperature d);
            minTemperature := StringToNumber (Raw.min_temperature d);
            year := getFullYear (new_Date (Raw.date d));
            month := getMonth (new_Date (Raw.date d));
            day := getDate (new_Date (Raw.date d)) |}) rawData.

End Pipeline.

(** [a >= n] and [a <= n] for an integral Number or [NaN] [a]. *)
Definition geZ (a : option Z) (n : Z) : bool :=
  match a with Some x => (n <=? x)%Z | None => false end.

Definition leZ (a : option Z) (n : Z) : bool :=
  match a with Some x => (x <=? n)%Z | None => false end.

Definition filterDataByYearRange (data : list ParsedRecord)
  : list ParsedRecord * list (option Z) :=
  let filteredData :=
    List.filter (fun d => geZ (year d) CONFIG.yearRange.start
                          && leZ (year d) CONFIG.yearRange.end_) data in
  let years :=
    JSArray.sort (fun a b => JSArray.minus a b)
                 (JSArray.Set_values (map (fun d => year d) filteredData)) in
  (filteredData, years).

(** The arrays of [groupedData], by year and month. *)
Abbreviation groups := (gmap (option Z) (gmap (option Z) (list ParsedRecord))).

(** A nested map of d3: [m.get(k1)?.get(k2)], and the map with the value at
    [k1], [k2] replaced. *)
Definition lookup2 {V} (m : gmap (option Z) (gmap (option Z) V))
    (k1 k2 : option Z) : option V :=
  m !! k1 ≫= fun g => g !! k2.

Definition insert2 {V} (m : gmap (option Z) (gmap (option Z) V))
    (k1 k2 : option Z) (v : V) : gmap (option Z) (gmap (option Z) V) :=
  <[k1 := <[k2 := v]> (default ∅ (m !! k1))]> m.

(** [groupedData.get(year)?.get(monthIndex)] *)
Definition get2 (groupedData : groups) (year : option Z) (monthIndex : Z)
  : option (list ParsedRecord) :=
  lookup2 groupedData year (Some monthIndex).

(** The array at [year], [monthIndex] written in place. *)
Definition set2 (groupedData : groups) (year : option Z) (monthIndex : Z)
    (a : list ParsedRecord) : groups :=
  insert2 groupedData year (Some monthIndex) a.

(** The comparator [(a, b) => a.day - b.day]. *)
Definition byDay (a b : ParsedRecord) : option Z := JSArray.minus (day a) (day b).

(** The body of the inner [forEach]: the statistics are read from the array
    of the group, which is then sorted in place; the entry pushed keeps that
    array as its [dailyData]. *)
Definition visitMonth (year : option Z) (st : groups * list Monthly.summary)
    (e : Z * string) : groups * list Monthly.summary :=
  let '(groupedData, monthlyData) := st in
  let '(monthIndex, monthName) := e in
  let monthRecords := default [] (get2 groupedData year monthIndex) in
  if (0 <? length monthRecords)%nat then
    let maxTemp := d3.max monthRecords maxTemperature in
    let minTemp := d3.min monthRecords minTemperature in
    let avgMax := d3.mean monthRecords maxTemperature in
    let avgMin := d3.mean monthRecords minTemperature in
    let sorted := JSArray.sort byDay monthRecords in
    (set2 groupedData year monthIndex sorted,
     monthlyData ++
       [ {| Monthly.year := year;
            Monthly.month := monthIndex;
            Monthly.monthName := monthName;
            Monthly.maxTemp := maxTemp;
            Monthly.minTemp := minTemp;
            Monthly.avgMax := avgMax;
            Monthly.avgMin := avgMin;
            Monthly.dailyData := sorted |} ])
  else st.

Definition visitYear (st : groups * list Monthly.summary) (year : option Z)
  : groups * list Monthly.summary :=
  foldl (visitMonth year) st (JSArray.entries MONTHS).

(** An entry as the caller reads it: its [dailyData] is the array of its
    group, with whatever was written to that array since. *)
Definition resolve (groupedData : groups) (s : Monthly.summary) : Monthly.summary :=
  {| Monthly.year := Monthly.year s;
     Monthly.month := Monthly.month s;
     Monthly.monthName := Monthly.monthName s;
     Monthly.maxTemp := Monthly.maxTemp s;
     Monthly.minTemp := Monthly.minTemp s;
     Monthly.avgMax := Monthly.avgMax s;
     Monthly.avgMin := Monthly.avgMin s;
     Monthly.dailyData :=
       default (Monthly.dailyData s)
               (get2 groupedData (Monthly.year s) (Monthly.month s)) |}.

Definition aggregateMonthlyData (data : list ParsedRecord) (years : list (option Z))
  : list Monthly.summary :=
  let groupedData := d3.group2 data (fun d => year d) (fun d => month d) in
  let '(groupedData', monthlyData) := foldl visitYear (groupedData, []) years in
  map (resolve groupedData') monthlyData.

(** ** The colour scale *)

Module Color.

Local Open Scope Z_scope.

(** [Math.floor], as an index: [None] when the Number is not finite. *)
Definition floor (x : number) : option Z :=
  match x with
  | S754_zero _ => Some 0
  | S754_finite s m e =>
      let v := if s then Z.neg m else Z.pos m in
      Some (if 0 <=? e then v * 2 ^ e else v / 2 ^ (- e))
  | _ => None
  end.

(** [Math.max(0, Math.min(255, Math.round(value) || 0))] *)
Definition clampi (value : number) : Z :=
  match value with
  | S754_nan => 0
  | S754_zero _ => 0
  | S754_infinity s => if s then 0 else 255
  | S754_finite s m e =>
      let v := if s then Z.neg m else Z.pos m in
      let r := if 0 <=? e then v * 2 ^ e
               else (2 * v + 2 ^ (- e)) / 2 ^ (- e + 1) in
      Z.max 0 (Z.min 255 r)
  end.

Definition decimal (z : Z) : string :=
  NilZero.string_of_uint (N.to_uint (Z.to_N z)).

(** The string of an opaque [rgb] colour. *)
Definition formatRgb (r g b : number) : string :=
  ("rgb(" ++ decimal (clampi r) ++ ", " ++ decimal (clampi g) ++ ", "
   ++ decimal (clampi b) ++ ")")%string.

(** d3-interpolate, [basis(t1, v0, v1, v2, v3)]: the uniform cubic B-spline. *)
Definition basis (t1 v0 v1 v2 v3 : number) : number :=
  let t2 := mul t1 t1 in
  let t3 := mul t2 t1 in
  div (add (add (add
         (mul (sub (add (sub (ofZ 1) (mul (ofZ 3) t1)) (mul (ofZ 3) t2)) t3) v0)
         (mul (add (sub (ofZ 4) (mul (ofZ 6) t2)) (mul (ofZ 3) t3)) v1))
         (mul (sub (add (add (ofZ 1) (mul (ofZ 3) t1)) (mul (ofZ 3) t2))
                   (mul (ofZ 3) t3)) v2))
         (mul t3 v3))
      (ofZ 6).

(** [values[i]], [NaN] in arithmetic when there is no such element. *)
Definition at_index (values : list number) (i : option Z) : number :=
  match i with
  | Some i => if 0 <=? i then nth (Z.to_nat i) values NaN else NaN
  | None => NaN
  end.

Definition index_number (i : option Z) : number :=
  match i with Some i => ofZ i | None => NaN end.

(** d3-interpolate, [interpolateBasis(values)]: [t] at or below 0 is read as
    0, at or above 1 as 1. *)
Definition interpolateBasis (values : list number) (t : number) : number :=
  let n := Z.of_nat (length values) - 1 in
  let '(t, i) :=
    if le t (ofZ 0) then (ofZ 0, Some 0)
    else if ge t (ofZ 1) then (ofZ 1, Some (n - 1))
    else (t, floor (mul t (ofZ n))) in
  let v1 := at_index values i in
  let v2 := at_index values (option_map (fun i => i + 1) i) in
  let v0 := if match i with Some i => 0 <? i | None => false end
            then at_index values (option_map (fun i => i - 1) i)
            else sub (mul (ofZ 2) v1) v2 in
  let v3 := if match i with Some i => i <? n - 1 | None => false end
            then at_index values (option_map (fun i => i + 2) i)
            else sub (mul (ofZ 2) v2) v1 in
  basis (mul (sub t (div (index_number i) (ofZ n))) (ofZ n)) v0 v1 v2 v3.

(** d3-interpolate, [interpolateRgbBasis(colors)], colours as channel
    triples. *)
Definition interpolateRgbBasis (colors : list (Z * Z * Z)) (t : number) : string :=
  let r := interpolateBasis (map (fun c => ofZ (fst (fst c))) colors) in
  let g := interpolateBasis (map (fun c => ofZ (snd (fst c))) colors) in
  let b := interpolateBasis (map (fun c => ofZ (snd c)) colors) in
  formatRgb (r t) (g t) (b t).

(** d3-scale-chromatic, the nine-class YlOrRd scheme:
    ffffcc ffeda0 fed976 feb24c fd8d3c fc4e2a e31a1c bd0026 800026. *)
Definition YlOrRd : list (Z * Z * Z) :=
  [ (0xff, 0xff, 0xcc); (0xff, 0xed, 0xa0); (0xfe, 0xd9, 0x76);
    (0xfe, 0xb2, 0x4c); (0xfd, 0x8d, 0x3c); (0xfc, 0x4e, 0x2a);
    (0xe3, 0x1a, 0x1c); (0xbd, 0x00, 0x26); (0x80, 0x00, 0x26) ].

Definition interpolateYlOrRd : number -> string := interpolateRgbBasis YlOrRd.

(** d3-scale, [scaleSequential().domain([x0, x1]).interpolator(f)]: no
    clamping is configured. [None] is [undefined], the scale's [unknown]. *)
Definition scaleSequential (x0 x1 : number) (interpolator : number -> string)
    (x : number) : option string :=
  let t0 := x0 in
  let t1 := x1 in
  let k10 := if SFeqb t0 t1 then ofZ 0 else div (ofZ 1) (sub t1 t0) in
  if isNaN x then None
  else Some (interpolator (if SFeqb k10 (ofZ 0) then ofQ false 1 2
                           else mul (sub x t0) k10)).

End Color.

Definition createColorScale : number -> option string :=
  Color.scaleSequential CONFIG.tempRange.min CONFIG.tempRange.max
                        Color.interpolateYlOrRd.

(* ===================================================================== *)
(** * Facts about the library functions *)
(* ===================================================================== *)

(** The comparator [comparefn] is the difference of the integer key [key] on
    the elements of [l]. *)
Definition keyed {A} (comparefn : A -> A -> option Z) (key : A -> Z)
    (l : list A) : Prop :=
  forall x y, x ∈ l -> y ∈ l -> comparefn x y = Some (key x - key y)%Z.

(** The order of the keys. *)
Definition key_le {A} (key : A -> Z) (x y : A) : Prop := (key x <= key y)%Z.

(* ===================================================================== *)
(** * [filterDataByYearRange] *)
(* ===================================================================== *)

Local Open Scope Z_scope.

(** The year of a record lies in the configured range. *)
Definition inYearRange (r : ParsedRecord) : Prop :=
  match year r with
  | Some y => CONFIG.yearRange.start <= y <= CONFIG.yearRange.end_
  | None => False
  end.

#[global] Instance inYearRange_dec r : Decision (inYearRange r).
Proof. unfold inYearRange. destruct (year r); apply _. Defined.

(* ===================================================================== *)
(** * [d3.group] *)
(* ===================================================================== *)

(** The records of [data] of year [y] and month [i], in the order of
    [data]. *)
Definition monthGroup (data : list ParsedRecord) (y : option Z) (i : Z)
  : list ParsedRecord :=
  filter (fun r => month r = Some i) (filter (fun r => year r = y) data).

(* ===================================================================== *)
(** * [aggregateMonthlyData]: what the loops compute *)
(* ===================================================================== *)

(** A visit of the inner loop body: the year, the month index and the month
    name. *)
Definition visit : Type := option Z * (Z * string).

Definition visits (years : list (option Z)) : list visit :=
  years ≫= fun y => pair y <$> JSArray.entries MONTHS.

(** How many of the visits [vs] are at year [y] and month [i]. *)
Definition times (vs : list visit) (y : option Z) (i : Z) : nat :=
  length (filter (fun v : visit => v.1 = y /\ v.2.1 = i) vs).

(** The array of a group after [n] in-place sorts. *)
Definition sortN (n : nat) (g : list ParsedRecord) : list ParsedRecord :=
  Nat.iter n (JSArray.sort byDay) g.

(** The entry for year [y] and month [i] whose statistics were read after [j]
    sorts of the group's array and whose [dailyData] is that array after [k]
    sorts. *)
Definition summaryAt (data : list ParsedRecord) (j k : nat)
    (y : option Z) (i : Z) (name : string) : Monthly.summary :=
  let a := sortN j (monthGroup data y i) in
  {| Monthly.year := y;
     Monthly.month := i;
     Monthly.monthName := name;
     Monthly.maxTemp := d3.max a maxTemperature;
     Monthly.minTemp := d3.min a minTemperature;
     Monthly.avgMax := d3.mean a maxTemperature;
     Monthly.avgMin := d3.mean a minTemperature;
     Monthly.dailyData := sortN k (monthGroup data y i) |}.

(** The entries for the visits [vs], made after the visits [p]: one for each
    visit whose group is not empty. [kf] gives the number of sorts seen in
    [dailyData]. *)
Fixpoint emit (data : list ParsedRecord) (kf : option Z -> Z -> nat -> nat)
    (p vs : list visit) : list Monthly.summary :=
  match vs with
  | [] => []
  | v :: vs' =>
      match monthGroup data v.1 v.2.1 with
      | [] => []
      | _ => [summaryAt data (times p v.1 v.2.1) (kf v.1 v.2.1 (times p v.1 v.2.1))
                        v.1 v.2.1 v.2.2]
      end ++ emit data kf (p ++ [v]) vs'
  end.

(** The store of group arrays after the visits [p]. *)
Definition store_after (data : list ParsedRecord) (p : list visit) (st : groups)
  : Prop :=
  forall y i, get2 st y i = match monthGroup data y i with
                            | [] => None
                            | g => Some (sortN (times p y i) g)
                            end.

(** The year and month index of a visit, and of an entry. *)
Definition visit_key (v : visit) : option Z * Z := (v.1, v.2.1).

Definition summary_key (s : Monthly.summary) : option Z * Z :=
  (Monthly.year s, Monthly.month s).

(** The month indices [forEach] passes for [MONTHS]. *)
Definition monthIndices : list Z := [0; 1; 2; 3; 4; 5; 6; 7; 8; 9; 10; 11].

(** The (year, month index) pairs in the order the loops visit them:
    year-major, month-minor. *)
Definition pairs (years : list (option Z)) : list (option Z * Z) :=
  years ≫= fun y => pair y <$> monthIndices.

(** The entry for a group visited once. *)
Definition summaryOf (data : list ParsedRecord) (y : option Z) (i : Z)
    (name : string) : Monthly.summary :=
  summaryAt data 0 1 y i name.

Definition emitted (data : list ParsedRecord) (vs : list visit)
  : list Monthly.summary :=
  vs ≫= fun v => match monthGroup data v.1 v.2.1 with
                 | [] => []
                 | _ => [summaryOf data v.1 v.2.1 v.2.2]
                 end.

(* ===================================================================== *)
(** * [aggregateMonthlyData]: the entries returned *)
(* ===================================================================== *)

(** Some record of [data] has the year and the month index of [k]. *)
Definition hasRecord (data : list ParsedRecord) (k : option Z * Z) : Prop :=
  Exists (fun r => year r = k.1 /\ month r = Some k.2) data.

#[global] Instance hasRecord_dec data k : Decision (hasRecord data k).
Proof. unfold hasRecord. apply _. Defined.

(** ** Order of the entries *)

(** Year first, then month index: the order of a year-major, month-minor
    listing with ascending years. *)
Definition key_lt (k1 k2 : option Z * Z) : Prop :=
  match k1.1, k2.1 with
  | Some a, Some b => a < b \/ (a = b /\ k1.2 < k2.2)
  | _, _ => False
  end.

(** ** The daily records of an entry *)

(** The days of two records, a number each, in order. *)
Definition day_le (a b : ParsedRecord) : Prop :=
  match day a, day b with
  | Some x, Some y => x <= y
  | _, _ => False
  end.

(* ===================================================================== *)
(** * Order of Numbers *)
(* ===================================================================== *)

(** The place of a Number other than [NaN] in the order: class (the
    infinities, negative, zero, positive), then exponent, then mantissa. *)
Definition rank (x : number) : Z * Z * Z :=
  match x with
  | S754_zero _ => (0, 0, 0)
  | S754_infinity s => (if s then -2 else 2, 0, 0)
  | S754_finite s m e => if s then (-1, - e, - Z.pos m) else (1, e, Z.pos m)
  | S754_nan => (0, 0, 0)
  end.

Definition rank_le (a b : Z * Z * Z) : Prop :=
  a.1.1 < b.1.1
  \/ (a.1.1 = b.1.1 /\ (a.1.2 < b.1.2 \/ (a.1.2 = b.1.2 /\ a.2 <= b.2))).

Definition rank_lt (a b : Z * Z * Z) : Prop :=
  a.1.1 < b.1.1
  \/ (a.1.1 = b.1.1 /\ (a.1.2 < b.1.2 \/ (a.1.2 = b.1.2 /\ a.2 < b.2))).

(* ===================================================================== *)
(** * Sample inputs *)
(* ===================================================================== *)

(** A host on UTC that reads no date format of its own. *)
Definition utc : Z -> Z := fun _ => 0.

Definition noOtherFormat : jsstring -> option Z := fun _ => None.

(** The time value of a date string and its local year, month and day. *)
Definition fieldsOn (LocalTZA : Z -> Z) (s : string)
  : option Z * option Z * option Z * option Z :=
  let t := JSDate.new_Date noOtherFormat (lit s) in
  (t, JSDate.getFullYear LocalTZA t, JSDate.getMonth LocalTZA t,
   JSDate.getDate LocalTZA t).

Definition csvRow (d a b : string) : Raw.row :=
  {| Raw.date := lit d; Raw.max_temperature := lit a; Raw.min_temperature := lit b |}.

(** Two days of January 2015. *)
Definition scenarioRows : list Raw.row :=
  [ csvRow "2015-01-15" "20.0" "10.0"; csvRow "2015-01-16" "22.0" "11.0" ].

(** Three days at 0.1 degrees. *)
Definition tenthRows : list Raw.row :=
  [ csvRow "2015-01-15" "0.1" "0.1"; csvRow "2015-01-16" "0.1" "0.1";
    csvRow "2015-01-17" "0.1" "0.1" ].

(** Three days at -0.1 degrees. *)
Definition negTenthRows : list Raw.row :=
  [ csvRow "2015-01-15" "-0.1" "-0.1"; csvRow "2015-01-16" "-0.1" "-0.1";
    csvRow "2015-01-17" "-0.1" "-0.1" ].

(** Two days with infinite readings. *)
Definition infiniteRows : list Raw.row :=
  [ csvRow "2015-01-15" "Infinity" "Infinity";
    csvRow "2015-01-16" "Infinity" "-Infinity" ].

(** A leap day; a first of January; a day of 2007. *)
Definition leapDayRow : Raw.row := csvRow "2016-02-29" "21" "17".

Definition newYearRow : Raw.row := csvRow "2018-01-01" "21" "17".

Definition beforeRangeRows : list Raw.row := [ csvRow "2007-12-31" "20" "10" ].

(** Two days of January 2015, the maximum of the first not a number. *)
Definition gapRows : list Raw.row :=
  [ csvRow "2015-01-15" "n/a" "10.0"; csvRow "2015-01-16" "22.0" "11.0" ].

(** A host six hours west of UTC. *)
Definition west : Z -> Z := fun _ => -21600000.

(** The whole pipeline on a host. *)
Definition pipeline (LocalTZA : Z -> Z) (hostDateParse : jsstring -> option Z)
    (rawData : list Raw.row) : list Monthly.summary :=
  let parsedData := parseTemperatureData LocalTZA hostDateParse rawData in
  let '(filteredData, years) := filterDataByYearRange parsedData in
  aggregateMonthlyData filteredData years.

(* ===================================================================== *)
(** * The statistics of an entry *)
(* ===================================================================== *)

(** The chain [minTemp <= avgMin <= avgMax <= maxTemp] of an entry. *)
Definition chain (s : Monthly.summary) : Prop :=
  exists lo amin amax hi,
    Monthly.minTemp s = Some lo /\ Monthly.avgMin s = Some amin
    /\ Monthly.avgMax s = Some amax /\ Monthly.maxTemp s = Some hi
    /\ le lo amin = true /\ le amin amax = true /\ le amax hi = true.

(** One link [f <= g] of the chain, as a test. *)
Definition link (f g : Monthly.summary -> option number) (s : Monthly.summary)
  : bool :=
  match f s, g s with
  | Some a, Some b => le a b
  | _, _ => false
  end.

(** The rows satisfy [minTemperature <= maxTemperature], and the link fails
    on an entry the pipeline makes from them on UTC. *)
Definition refutes (rows : list Raw.row)
    (f g : Monthly.summary -> option number) : bool :=
  forallb (fun r => le (minTemperature r) (maxTemperature r))
          (parseTemperatureData utc noOtherFormat rows)
  && existsb (fun s => negb (link f g s)) (pipeline utc noOtherFormat rows).

(* ===================================================================== *)
(** * [parseTemperatureData] *)
(* ===================================================================== *)

(** The record made from one row. *)
Definition parseRow (LocalTZA : Z -> Z) (hostDateParse : jsstring -> option Z)
    (d : Raw.row) : ParsedRecord :=
  {| date := JSDate.new_Date hostDateParse (Raw.date d);
     maxTemperature := StringToNumber (Raw.max_temperature d);
     minTemperature := StringToNumber (Raw.min_temperature d);
     year := JSDate.getFullYear LocalTZA (JSDate.new_Date hostDateParse (Raw.date d));
     month := JSDate.getMonth LocalTZA (JSDate.new_Date hostDateParse (Raw.date d));
     day := JSDate.getDate LocalTZA (JSDate.new_Date hostDateParse (Raw.date d)) |}.

(** The text of a field denotes a number: it is not blank, and it is a numeric
    literal. *)
Definition denotesNumber (s : jsstring) : Prop :=
  trim s <> [] /\ isNaN (StringToNumber s) = false.

(** A well-formed row: a valid date and two numbers. *)
Definition wellFormedRow (hostDateParse : jsstring -> option Z) (d : Raw.row)
  : Prop :=
  is_Some (JSDate.new_Date hostDateParse (Raw.date d))
  /\ denotesNumber (Raw.max_temperature d)
  /\ denotesNumber (Raw.min_temperature d).

#[global] Instance wellFormedRow_dec hp d : Decision (wellFormedRow hp d).
Proof. unfold wellFormedRow, denotesNumber. apply _. Defined.

(** The rows that are not well-formed are skipped. *)
Definition skipsInvalidRows (LocalTZA : Z -> Z)
    (hostDateParse : jsstring -> option Z) (rawData : list Raw.row) : Prop :=
  parseTemperatureData LocalTZA hostDateParse rawData
  = parseTemperatureData LocalTZA hostDateParse
      (filter (wellFormedRow hostDateParse) rawData).

(** No temperature is [0] for a field that denotes no number. *)
Definition neverCoercesToZero (LocalTZA : Z -> Z)
    (hostDateParse : jsstring -> option Z) (rawData : list Raw.row) : Prop :=
  forall i d r,
    rawData !! i = Some d ->
    parseTemperatureData LocalTZA hostDateParse rawData !! i = Some r ->
    (~ denotesNumber (Raw.max_temperature d) -> maxTemperature r <> pos_zero)
    /\ (~ denotesNumber (Raw.min_temperature d) -> minTemperature r <> pos_zero).

(** A row with month 13, an empty maximum and a minimum that is no number. *)
Definition badRows : list Raw.row := [ csvRow "2015-13-45" "" "abc" ].

(** Some character of the string is a decimal digit. *)
Definition hasDigit (s : jsstring) : Prop :=
  Exists (fun c => is_Some (digitValue c)) s.

(** The three spellings of an infinity. *)
Definition infinityLiterals : list jsstring :=
  [ lit "Infinity"; lit "+Infinity"; lit "-Infinity" ].

(** The conversion of a temperature field: [v] is what unary [+] gives for
    the text [f]; [0] for an empty or blank text, [NaN] for a text with no
    digit that does not spell an infinity. *)
Definition converted (f : jsstring) (v : number) : Prop :=
  v = StringToNumber f
  /\ (trim f = [] -> v = pos_zero)
  /\ (trim f <> [] -> ~ hasDigit (trim f) -> trim f ∉ infinityLiterals -> v = NaN).

(* ===================================================================== *)
(** * The scenario of January 2015 *)
(* ===================================================================== *)

(** The Number a numeric literal denotes. *)
Definition num (s : string) : number := StringToNumber (lit s).

(** The records of the two rows of the scenario when their local days are
    [d1] and [d2], and the entry of the scenario with these records:
    January 2015, [maxTemp] 22, [minTemp] 10, [avgMax] 21, [avgMin] 10.5. *)
Definition scenarioRecords (d1 d2 : Z) : list ParsedRecord :=
  [ {| date := Some 1421280000000;
       maxTemperature := num "20.0"; minTemperature := num "10.0";
       year := Some 2015; month := Some 0; day := Some d1 |};
    {| date := Some 1421366400000;
       maxTemperature := num "22.0"; minTemperature := num "11.0";
       year := Some 2015; month := Some 0; day := Some d2 |} ].

Definition scenarioEntry (d1 d2 : Z) : Monthly.summary :=
  {| Monthly.year := Some 2015;
     Monthly.month := 0;
     Monthly.monthName := "January";
     Monthly.maxTemp := Some (num "22.0");
     Monthly.minTemp := Some (num "10.0");
     Monthly.avgMax := Some (num "21.0");
     Monthly.avgMin := Some (num "10.5");
     Monthly.dailyData := scenarioRecords d1 d2 |}.

(* ===================================================================== *)
(** * [createColorScale] *)
(* ===================================================================== *)

(** The position in the domain [0, 40] that the scale hands to the
    interpolator: [(x - 0) * (1 / (40 - 0))], not clamped. *)
Definition position (x : number) : number :=
  mul (sub x CONFIG.tempRange.min)
      (div (ofZ 1) (sub CONFIG.tempRange.max CONFIG.tempRange.min)).

(** A Number in its one representation: the mantissa and exponent of a
    binary64 value. *)
Definition canonical (x : number) : Prop := valid_binary prec emax x = true.

(* ===================================================================== *)
(** * Instances on the sample inputs *)
(* ===================================================================== *)

(** The records of the scenario, on UTC. *)
Definition scenarioData : list ParsedRecord :=
  parseTemperatureData utc noOtherFormat scenarioRows.

(** The entry of the scenario. *)
Definition scenarioSummary : Monthly.summary :=
  summaryOf scenarioData (Some 2015) 0 "January".

(** The records and the entry of [gapRows], on UTC. *)
Definition gapData : list ParsedRecord :=
  parseTemperatureData utc noOtherFormat gapRows.

Definition gapSummary : Monthly.summary :=
  summaryOf gapData (Some 2015) 0 "January".

(* ===================================================================== *)
(** * [aggregateMonthlyData] on a heap of arrays *)
(* ===================================================================== *)

(** The same function with the arrays it touches kept in a heap: [data] is
    the address of the caller's array, [d3.group] makes new arrays, the sort
    writes to these, and an entry holds the address of its [dailyData]. *)
Module Heap.

Abbreviation loc := positive.

Abbreviation heap := (gmap positive (list ParsedRecord)).

(** The nested map of [d3.group]: an address for each year and month. *)
Abbreviation refs := (gmap (option Z) (gmap (option Z) positive)).

Definition read (h : heap) (l : loc) : list ParsedRecord := default [] (h !! l).

(** A new array. *)
Definition alloc (h : heap) (a : list ParsedRecord) : loc * heap :=
  let l := fresh (dom h) in (l, <[l := a]> h).

(** [d3.group(data, d => d.year, d => d.month)], one record at a time: the
    record is pushed on the array of its year and month, a new array when it
    is the first. *)
Definition groupStep (st : heap * refs) (d : ParsedRecord) : heap * refs :=
  let '(h, groupedData) := st in
  match lookup2 groupedData (year d) (month d) with
  | Some l => (<[l := read h l ++ [d]]> h, groupedData)
  | None =>
      let '(l, h') := alloc h [d] in
      (h', insert2 groupedData (year d) (month d) l)
  end.

Definition group2 (h : heap) (values : list ParsedRecord) : heap * refs :=
  foldl groupStep (h, ∅) values.

(** An entry of [monthlyData] and the address of its [dailyData]. *)
Definition entry : Type := Monthly.summary * loc.

Definition visitMonth (groupedData : refs) (year : option Z)
    (st : heap * list entry) (e : Z * string) : heap * list entry :=
  let '(h, monthlyData) := st in
  let '(monthIndex, monthName) := e in
  match lookup2 groupedData year (Some monthIndex) with
  | Some l =>
      let monthRecords := read h l in
      if (0 <? length monthRecords)%nat then
        let maxTemp := d3.max monthRecords maxTemperature in
        let minTemp := d3.min monthRecords minTemperature in
        let avgMax := d3.mean monthRecords maxTemperature in
        let avgMin := d3.mean monthRecords minTemperature in
        let sorted := JSArray.sort byDay monthRecords in
        (<[l := sorted]> h,
         monthlyData ++
           [ ({| Monthly.year := year;
                 Monthly.month := monthIndex;
                 Monthly.monthName := monthName;
                 Monthly.maxTemp := maxTemp;
                 Monthly.minTemp := minTemp;
                 Monthly.avgMax := avgMax;
                 Monthly.avgMin := avgMin;
                 Monthly.dailyData := sorted |}, l) ])
      else st
  | None => st
  end.

Definition visitYear (groupedData : refs) (st : heap * list entry)
    (year : option Z) : heap * list entry :=
  foldl (visitMonth groupedData year) st (JSArray.entries MONTHS).

(** The heap left and the entries returned. *)
Definition aggregateMonthlyData (h : heap) (data : loc) (years : list (option Z))
  : heap * list entry :=
  let '(h1, groupedData) := group2 h (read h data) in
  foldl (visitYear groupedData) (h1, []) years.

(** An entry as read in a heap. *)
Definition deref (h : heap) (e : entry) : Monthly.summary :=
  {| Monthly.year := Monthly.year e.1;
     Monthly.month := Monthly.month e.1;
     Monthly.monthName := Monthly.monthName e.1;
     Monthly.maxTemp := Monthly.maxTemp e.1;
     Monthly.minTemp := Monthly.minTemp e.1;
     Monthly.avgMax := Monthly.avgMax e.1;
     Monthly.avgMin := Monthly.avgMin e.1;
     Monthly.dailyData := read h e.2 |}.

(** The result of a call as its caller reads it after the call. *)
Definition result (r : heap * list entry) : list Monthly.summary :=
  deref r.1 <$> r.2.

End Heap.

(** The records of [values] with keys [k1] and [k2]. *)
Definition pathGroup (values : list ParsedRecord) (k1 k2 : option Z)
  : list ParsedRecord :=
  filter (fun r => year r = k1 /\ month r = k2) values.

(** What [Heap.group2] leaves: [g] has an address exactly for the paths that
    have a record, the array there holds the records of the path, the
    addresses are new and differ from path to path, and the arrays of [h0]
    are as they were. *)
Definition grouped (h0 : Heap.heap) (values : list ParsedRecord)
    (h : Heap.heap) (g : Heap.refs) : Prop :=
  (forall k1 k2,
     match pathGroup values k1 k2 with
     | [] => lookup2 g k1 k2 = None
     | a => exists l, lookup2 g k1 k2 = Some l /\ h !! l = Some a
     end)
  /\ (forall k1 k2 l, lookup2 g k1 k2 = Some l -> (l ∉ dom h0) /\ (l ∈ dom h))
  /\ (forall k1 k2 k1' k2' l,
        lookup2 g k1 k2 = Some l -> lookup2 g k1' k2' = Some l ->
        k1 = k1' /\ k2 = k2')
  /\ (forall l, l ∈ dom h0 -> h !! l = h0 !! l).

(** The heap and the store of group arrays agree: the array of a year and
    month is the array at its address. *)
Definition agrees (g : Heap.refs) (h : Heap.heap) (st : groups) : Prop :=
  forall y i, get2 st y i = lookup2 g y (Some i) ≫= fun l => h !! l.

(** The loops on the store and on the heap, side by side, from the heap [h0]
    with the addresses [g]. *)
Definition sim (h0 : Heap.heap) (g : Heap.refs)
    (st : groups * list Monthly.summary) (sh : Heap.heap * list Heap.entry)
  : Prop :=
  agrees g sh.1 st.1
  /\ (forall k1 k2 l, lookup2 g k1 k2 = Some l -> is_Some (sh.1 !! l))
  /\ (forall l, l ∈ dom h0 -> sh.1 !! l = h0 !! l)
  /\ st.2 = fst <$> sh.2
  /\ Forall (fun e : Heap.entry =>
               lookup2 g (Monthly.year e.1) (Some (Monthly.month e.1)) = Some e.2)
            sh.2.

(** A heap that holds the records of the scenario at address 1. *)
Definition scenarioHeap : Heap.heap := {[ 1%positive := scenarioData ]}.

(* ===================================================================== *)
(** * [script.js]: layout and rendering *)
(* ===================================================================== *)

(** The document is not modelled. For each rendering function the model gives
    the elements the function appends, in order, each with the values the
    function computes for its attributes; an attribute that is a Number is
    kept as the Number. A selection made by [selectAll] in a new group is
    empty, so [data(...).enter()] holds one element for each datum. *)

(** The Number of an integral Number or [NaN]. *)
Definition toNumber (a : option Z) : number :=
  match a with Some z => ofZ z | None => NaN end.

(** The Number is [Infinity] or [-Infinity]. *)
Definition infinite (x : number) : bool :=
  match x with S754_infinity _ => true | _ => false end.

(** [array.length] *)
Definition length_of {A} (l : list A) : number := ofZ (Z.of_nat (length l)).

(** ** [calculateSVGDimensions] *)

Module SVG.
Record dimensions := { width : number; height : number }.
End SVG.

Definition calculateSVGDimensions (yearCount : number) : SVG.dimensions :=
  let width :=
    add (add (mul yearCount CONFIG.cellWidth) CONFIG.margin.left)
        CONFIG.margin.right in
  let height :=
    add (add (mul CONFIG.monthCount CONFIG.cellHeight) CONFIG.margin.top)
        CONFIG.margin.bottom in
  {| SVG.width := width; SVG.height := height |}.

(** ** The axis labels *)

(** A [text] element: its position and the datum it shows. *)
Module Text.
Record element (A : Type) := {
  x : number;
  y : number;
  text_anchor : string;
  text : A
}.
Arguments x {A}.
Arguments y {A}.
Arguments text_anchor {A}.
Arguments text {A}.
End Text.

Definition renderYearLabels (years : list (option Z))
  : list (Text.element (option Z)) :=
  map (fun '(i, d) =>
         {| Text.x := add (mul (ofZ i) CONFIG.cellWidth)
                          (div CONFIG.cellWidth (ofZ 2));
            Text.y := ofZ (-10);
            Text.text_anchor := "middle"%string;
            Text.text := d |})
      (JSArray.entries years).

Definition renderMonthLabels : list (Text.element string) :=
  map (fun '(i, d) =>
         {| Text.x := ofZ (-10);
            Text.y := add (mul (ofZ i) CONFIG.cellHeight)
                          (div CONFIG.cellHeight (ofZ 2));
            Text.text_anchor := "end"%string;
            Text.text := d |})
      (JSArray.entries MONTHS).

(** ** The cells *)

(** The scale that [createColorScale] returns, applied to a value that may
    be [undefined]: [x == null || isNaN(x = +x) ? unknown : ...]. *)
Definition colorScale (x : option number) : option string :=
  x ≫= createColorScale.

(** A [g.cell-group] element with its [rect.cell]: the datum bound to it, the
    two arguments of the [translate] of its [transform], and the attributes
    of the rectangle. A [fill] of [None] is an attribute that is not set. *)
Module Cell.
Record group := {
  datum : Monthly.summary;
  translate : number * number;
  width : number;
  height : number;
  x : number;
  y : number;
  rx : number;
  fill : option string
}.
End Cell.

Definition renderCells (monthlyData : list Monthly.summary)
    (colorScale : option number -> option string) (years : list (option Z))
    (isShowingMaxTemp : bool) : list Cell.group :=
  map (fun d =>
         let xIndex := JSArray.indexOf years (Monthly.year d) in
         {| Cell.datum := d;
            Cell.translate :=
              (mul (ofZ xIndex) CONFIG.cellWidth,
               mul (ofZ (Monthly.month d)) CONFIG.cellHeight);
            Cell.width := sub CONFIG.cellWidth (mul (ofZ 2) CONFIG.cellPadding);
            Cell.height := sub CONFIG.cellHeight (mul (ofZ 2) CONFIG.cellPadding);
            Cell.x := CONFIG.cellPadding;
            Cell.y := CONFIG.cellPadding;
            Cell.rx := CONFIG.cellRounding;
            Cell.fill := colorScale (if isShowingMaxTemp then Monthly.avgMax d
                                     else Monthly.avgMin d) |})
      monthlyData.

(** The date of the tooltip of a cell, the text between [Date: ] and the
    first [<br/>]: [${d.year}-${String(d.month + 1).padStart(2, "0")}]. *)
Module JSString.
(** The string of an integral Number or [NaN]. *)
Definition ofNumber (a : option Z) : string :=
  match a with
  | Some z => if z <? 0 then ("-" ++ Color.decimal (- z))%string
              else Color.decimal z
  | None => "NaN"%string
  end.

(** [padStart(targetLength, fillString)] for a filler of one character. *)
Definition padStart (targetLength : nat) (fill : ascii) (s : string) : string :=
  (string_of_list_ascii (repeat fill (targetLength - String.length s)) ++ s)%string.
End JSString.

Definition tooltipDate (d : Monthly.summary) : string :=
  (JSString.ofNumber (Monthly.year d) ++ "-"
   ++ JSString.padStart 2 "0" (JSString.ofNumber (Some (Monthly.month d + 1))))%string.

(** ** The daily line charts *)

(** d3-scale, [scaleLinear().domain([d0, d1]).range([r0, r1])]: the
    continuous scale on two points, with the interpolator of Numbers and no
    clamping. *)
Module Scale.

(** [normalize(a, b)]: [(b -= (a = +a)) ? x => (x - a) / b
    : constant(isNaN(b) ? NaN : 0.5)] *)
Definition normalize (a b x : number) : number :=
  let b := sub b a in
  match b with
  | S754_zero _ => ofQ false 1 2
  | S754_nan => NaN
  | _ => div (sub x a) b
  end.

(** d3-interpolate, [interpolateNumber(a, b)]: [t => a * (1 - t) + b * t] *)
Definition interpolateNumber (a b t : number) : number :=
  add (mul a (sub (ofZ 1) t)) (mul b t).

(** [bimap(domain, range, interpolate)] *)
Definition bimap (d0 d1 r0 r1 x : number) : number :=
  if lt d1 d0 then interpolateNumber r1 r0 (normalize d1 d0 x)
  else interpolateNumber r0 r1 (normalize d0 d1 x).

(** The scale: [undefined] ([None]) for [NaN]. *)
Definition scaleLinear (d0 d1 r0 r1 x : number) : option number :=
  if isNaN x then None else Some (bimap d0 d1 r0 r1 x).

End Scale.

Definition xScale : number -> option number :=
  Scale.scaleLinear CONFIG.dayRange.min CONFIG.dayRange.max
                    (ofZ 6) (sub CONFIG.cellWidth (ofZ 10)).

Definition yScale : number -> option number :=
  Scale.scaleLinear CONFIG.tempRange.min CONFIG.tempRange.max
                    (sub CONFIG.cellHeight (ofZ 8)) (ofZ 6).

(** The points that a line generator [d3.line().x(x).y(y)] hands to its
    curve for the array [data]: [(+x(d), +y(d))] for each element ([defined]
    is left at its default). The path string that the curve writes is not
    modelled. *)
Definition linePoints {A} (x y : A -> option number) (data : list A)
  : list (number * number) :=
  map (fun d => (default NaN (x d), default NaN (y d))) data.

(** The two paths appended to a cell, [None] when the cell is skipped. *)
Module Chart.
Record paths := {
  max_line : list (number * number);
  min_line : list (number * number)
}.
End Chart.

Definition renderDailyLineCharts (cells : list Cell.group)
  : list (option Chart.paths) :=
  map (fun cell =>
         let d := Cell.datum cell in
         let dailyData := Monthly.dailyData d in
         if (length dailyData =? 0)%nat then None
         else
           let maxTempLine :=
             linePoints (fun datum => xScale (toNumber (day datum)))
                        (fun datum => yScale (maxTemperature datum)) in
           let minTempLine :=
             linePoints (fun datum => xScale (toNumber (day datum)))
                        (fun datum => yScale (minTemperature datum)) in
           Some {| Chart.max_line := maxTempLine dailyData;
                   Chart.min_line := minTempLine dailyData |})
      cells.

(** ** The legend *)

Module Legend.
(** A [stop] of the gradient: the Number of its [offset] (the attribute is
    this Number followed by [%]) and its [stop-color]. *)
Record stop := { offset : number; stop_color : option string }.

(** The legend: the stops of its gradient ([None] when [d3.range] throws),
    the arguments of the [translate] of its group, the size of its rectangle,
    and the scale of its axis. *)
Record legend := {
  stops : option (list stop);
  translate : number * number;
  width : number;
  height : number;
  legendScale : number -> option number
}.
End Legend.

Definition renderLegend (colorScale : option number -> option string)
    (yearCount : number) : Legend.legend :=
  let legendX := add (mul yearCount CONFIG.cellWidth) CONFIG.legendX in
  {| Legend.stops :=
       map (fun d =>
              {| Legend.offset := mul d (ofZ 100);
                 Legend.stop_color :=
                   colorScale (Some (mul d CONFIG.tempRange.max)) |})
       <$> d3.range (ofZ 0) (num "1.1") (num "0.1");
     Legend.translate := (legendX, ofZ 50);
     Legend.width := CONFIG.legendWidth;
     Legend.height := CONFIG.legendHeight;
     Legend.legendScale :=
       Scale.scaleLinear CONFIG.tempRange.min CONFIG.tempRange.max
                         CONFIG.legendHeight (ofZ 0) |}.

(** ** The toggle button *)

(** What the click handler reads and writes: the variable
    [isShowingMaxTemp], the text of the button, and the [fill] of the
    rectangle of each cell (the value the transition ends at). *)
Module Toggle.
Record state := {
  isShowingMaxTemp : bool;
  buttonText : string;
  fills : list (option string)
}.
End Toggle.

(** The handler that [attachToggleButtonHandler] attaches, for the cells
    bound to [cells]. *)
Definition click (cells : list Cell.group)
    (colorScale : option number -> option string) (st : Toggle.state)
  : Toggle.state :=
  let isShowingMaxTemp := negb (Toggle.isShowingMaxTemp st) in
  {| Toggle.isShowingMaxTemp := isShowingMaxTemp;
     Toggle.buttonText :=
       if isShowingMaxTemp then "Showing: Maximum Temperature"%string
       else "Showing: Minimum Temperature"%string;
     Toggle.fills :=
       map (fun cell =>
              let d := Cell.datum cell in
              colorScale (if isShowingMaxTemp then Monthly.avgMax d
                          else Monthly.avgMin d))
           cells |}.

(** ** The main function *)

(** What the callback of [d3.csv(...).then] builds from the rows, with the
    variable [isShowingMaxTemp] at its initial value [true]. *)
Module Page.
Record page := {
  years : list (option Z);
  monthlyData : list Monthly.summary;
  dimensions : SVG.dimensions;
  yearLabels : list (Text.element (option Z));
  monthLabels : list (Text.element string);
  cells : list Cell.group;
  charts : list (option Chart.paths);
  legend : Legend.legend
}.
End Page.

Definition main (LocalTZA : Z -> Z) (hostDateParse : jsstring -> option Z)
    (rawData : list Raw.row) : Page.page :=
  let parsedData := parseTemperatureData LocalTZA hostDateParse rawData in
  let '(filteredData, years) := filterDataByYearRange parsedData in
  let monthlyData := aggregateMonthlyData filteredData years in
  let dimensions := calculateSVGDimensions (length_of years) in
  let cells := renderCells monthlyData colorScale years true in
  {| Page.years := years;
     Page.monthlyData := monthlyData;
     Page.dimensions := dimensions;
     Page.yearLabels := renderYearLabels years;
     Page.monthLabels := renderMonthLabels;
     Page.cells := cells;
     Page.charts := renderDailyLineCharts cells;
     Page.legend := renderLegend colorScale (length_of years) |}.

(** The state the click handler starts from: the fills that [renderCells]
    set, and the text the button has in the document. *)
Definition initialState (cells : list Cell.group) (buttonText : string)
  : Toggle.state :=
  {| Toggle.isShowingMaxTemp := true;
     Toggle.buttonText := buttonText;
     Toggle.fills := Cell.fill <$> cells |}.

(* ##################################################################### *)
(** * Part II: lemmas and theorems *)
(* ##################################################################### *)

(* ===================================================================== *)
(** * The library functions on examples *)
(* ===================================================================== *)

(** Unary [+] on strings. *)
Example StringToNumber_examples :
  num "20.0" = ofZ 20 /\ num "  12 " = ofZ 12 /\ num "1e3" = ofZ 1000
  /\ num "0x1F" = ofZ 31 /\ num "0b101" = ofZ 5 /\ num "0o17" = ofZ 15
  /\ num ".5" = div (ofZ 1) (ofZ 2) /\ num "5." = ofZ 5
  /\ num "" = pos_zero /\ num "   " = pos_zero /\ num "-0" = neg_zero
  /\ num "abc" = NaN /\ num "12px" = NaN /\ num "." = NaN /\ num "1e" = NaN
  /\ num "1 2" = NaN /\ num "-0x1F" = NaN /\ num "infinity" = NaN
  /\ num "-Infinity" = infinity true /\ num "1e400" = infinity false
  /\ num "0.1" = S754_finite false 0x1999999999999a (-56)
  /\ add (num "0.1") (num "0.2") = num "0.30000000000000004"
  /\ num "9007199254740993" = num "9007199254740992"
  /\ num "5e-324" = S754_finite false 1 (-1074)
  /\ num "2.4703282292062327e-324" = pos_zero
  /\ num "1.7976931348623157e308" = S754_finite false 0x1fffffffffffff 971
  /\ num "1.7976931348623159e308" = infinity false.
Proof. by vm_compute. Qed.

(** Dates, on a host on UTC that reads no format of its own. *)
Example new_Date_examples :
  fieldsOn utc "1970-01-01" = (Some 0, Some 1970, Some 0, Some 1)
  /\ fieldsOn utc "2015-01-15" = (Some 1421280000000, Some 2015, Some 0, Some 15)
  /\ fieldsOn utc "2016-02-29" = (Some 1456704000000, Some 2016, Some 1, Some 29)
  /\ fieldsOn utc "2000-03-01" = (Some 951868800000, Some 2000, Some 2, Some 1)
  /\ fieldsOn utc "1969-12-31" = (Some (-86400000), Some 1969, Some 11, Some 31)
  /\ fieldsOn utc "2015-12" = (Some 1448928000000, Some 2015, Some 11, Some 1)
  /\ fieldsOn utc "2015-13-01" = (None, None, None, None)
  /\ fieldsOn utc "2015-02-30" = (None, None, None, None)
  /\ fieldsOn utc "15/01/2015" = (None, None, None, None).
Proof. by vm_compute. Qed.

(** Behind UTC, the local date of a date-only string is the day before. *)
Example new_Date_behind_UTC :
  fieldsOn (fun _ => -21600000) "2015-01-01"
  = (Some 1420070400000, Some 2014, Some 11, Some 31).
Proof. by vm_compute. Qed.

(** Arrays and sets. *)
Example sort_examples :
  JSArray.sort (fun a b => JSArray.minus a b) [Some 2010; Some 2008; Some 2009]
  = [Some 2008; Some 2009; Some 2010]
  /\ JSArray.Set_values [2010; 2008; 2010; 2009; 2008] = [2010; 2008; 2009]
  /\ JSArray.entries ["a"; "b"]%string = [(0, "a"); (1, "b")]%string.
Proof. by vm_compute. Qed.

(** [d3.max], [d3.min] and [d3.mean] skip [NaN]. *)
Example d3_examples :
  let values := [num "3"; NaN; num "1"; num "2"] in
  d3.max values id = Some (num "3") /\ d3.min values id = Some (num "1")
  /\ d3.mean values id = Some (num "2")
  /\ d3.max [NaN] id = None /\ d3.mean [NaN] id = None
  /\ d3.mean (@nil number) id = None.
Proof. by vm_compute. Qed.

(** The colours of the scale inside its domain. *)
Example createColorScale_examples :
  createColorScale (num "10") = Some "rgb(254, 214, 118)"%string
  /\ createColorScale (num "20") = Some "rgb(253, 137, 60)"%string
  /\ createColorScale (num "30") = Some "rgb(225, 30, 32)"%string
  /\ createColorScale NaN = None.
Proof. by vm_compute. Qed.

(* ===================================================================== *)
(** * Facts about the calendar *)
(* ===================================================================== *)

Lemma DayFromYear_succ y : DayFromYear (y + 1) = DayFromYear y + DaysInYear y.
Proof.
  unfold DayFromYear, DaysInYear.
  destruct (Z.eqb_spec (y mod 4) 0), (Z.eqb_spec (y mod 100) 0),
    (Z.eqb_spec (y mod 400) 0); simpl;
    Z.to_euclidean_division_equations; lia.
Qed.

Lemma DaysInYear_cases y : DaysInYear y = 365 \/ DaysInYear y = 366.
Proof.
  unfold DaysInYear. repeat (destruct (negb _)); auto.
Qed.

Lemma YearFromDay_spec (d : Z) :
  DayFromYear (YearFromDay d) <= d < DayFromYear (YearFromDay d + 1).
Proof.
  unfold YearFromDay.
  set (y := 1970 + d * 400 / 146097).
  assert (Hy : 146097 * (y - 1970) <= d * 400 < 146097 * (y - 1970) + 146097).
  { unfold y. pose proof (Z.div_mod (d * 400) 146097 ltac:(lia)).
    pose proof (Z.mod_pos_bound (d * 400) 146097 ltac:(lia)). lia. }
  clearbody y.
  assert (Hm1 : DayFromYear (y - 1) <= d).
  { unfold DayFromYear. Z.to_euclidean_division_equations; lia. }
  assert (Hp2 : d < DayFromYear (y + 1 + 1)).
  { unfold DayFromYear. Z.to_euclidean_division_equations; lia. }
  destruct (Z.ltb_spec d (DayFromYear y)).
  - replace (y - 1 + 1) with y by lia. lia.
  - destruct (Z.leb_spec (DayFromYear (y + 1)) d); lia.
Qed.

Lemma DayFromYear_mono y z : y <= z -> DayFromYear y <= DayFromYear z.
Proof.
  intros H. unfold DayFromYear. Z.to_euclidean_division_equations; lia.
Qed.

Lemma YearFromDay_unique d y :
  DayFromYear y <= d < DayFromYear (y + 1) -> YearFromDay d = y.
Proof.
  intros H. pose proof (YearFromDay_spec d) as H'.
  destruct (Z.lt_trichotomy (YearFromDay d) y) as [Hlt|[->|Hgt]]; [|done|].
  - pose proof (DayFromYear_mono (YearFromDay d + 1) y ltac:(lia)). lia.
  - pose proof (DayFromYear_mono (y + 1) (YearFromDay d) ltac:(lia)). lia.
Qed.

Lemma DayWithinYear_range t :
  0 <= DayWithinYear t < DaysInYear (YearFromTime t).
Proof.
  unfold DayWithinYear, YearFromTime.
  pose proof (YearFromDay_spec (Day t)) as H.
  rewrite DayFromYear_succ in H. lia.
Qed.

Lemma MonthFromTime_range t : 0 <= MonthFromTime t <= 11.
Proof.
  unfold MonthFromTime. repeat (destruct (_ <? _); [lia|]). lia.
Qed.

Ltac split_ltb tac :=
  repeat match goal with
         | |- context [(?a <? ?b)] => destruct (Z.ltb_spec a b); [tac|]
         end.

Lemma DateFromTime_range t : 1 <= DateFromTime t <= 31.
Proof.
  pose proof (DayWithinYear_range t) as H.
  unfold DateFromTime, MonthFromTime, InLeapYear, InLeapYear_of in *.
  set (w := DayWithinYear t) in *. clearbody w.
  destruct (Z.eqb_spec (DaysInYear (YearFromTime t)) 366) as [E|E].
  - rewrite E in H. split_ltb ltac:(simpl; lia). simpl; lia.
  - destruct (DaysInYear_cases (YearFromTime t)) as [E'|E']; [|done].
    rewrite E' in H. split_ltb ltac:(simpl; lia). simpl; lia.
Qed.

(** Round trip: the UTC fields of the time value of a calendar date are the
    date. *)
Lemma MakeDay_roundtrip y m d :
  0 <= m <= 11 -> 1 <= d <= DaysInMonth y m ->
  let t := MakeDate (MakeDay y m d) in
  YearFromTime t = y /\ MonthFromTime t = m /\ DateFromTime t = d.
Proof.
  intros Hm Hd t.
  assert (Day t = MakeDay y m d) as HD.
  { unfold t, MakeDate, Day. apply Z.div_mul. unfold msPerDay. lia. }
  assert (0 <= DaysBeforeMonth y m + d - 1 < DaysInYear y) as Hin.
  { unfold DaysBeforeMonth, DaysInMonth, InLeapYear_of in *.
    destruct (DaysInYear_cases y) as [E|E]; rewrite E in *; simpl in *;
    assert (m = 0 \/ m = 1 \/ m = 2 \/ m = 3 \/ m = 4 \/ m = 5 \/ m = 6
            \/ m = 7 \/ m = 8 \/ m = 9 \/ m = 10 \/ m = 11) as Hc by lia;
    repeat (destruct Hc as [->|Hc]; [simpl in *; lia|]); subst m; simpl in *; lia. }
  assert (YearFromTime t = y) as Hy.
  { unfold YearFromTime. rewrite HD. apply YearFromDay_unique.
    rewrite DayFromYear_succ. unfold MakeDay. lia. }
  split; [done|].
  unfold MonthFromTime, DateFromTime, MonthFromTime, DayWithinYear, InLeapYear.
  rewrite Hy, HD. unfold MakeDay.
  replace (DayFromYear y + DaysBeforeMonth y m + d - 1 - DayFromYear y)
    with (DaysBeforeMonth y m + d - 1) by lia.
  unfold DaysBeforeMonth, DaysInMonth, InLeapYear_of in *.
  assert (m = 0 \/ m = 1 \/ m = 2 \/ m = 3 \/ m = 4 \/ m = 5 \/ m = 6
          \/ m = 7 \/ m = 8 \/ m = 9 \/ m = 10 \/ m = 11) as Hc by lia.
  destruct (DaysInYear_cases y) as [E|E]; rewrite E in *; simpl in *;
    repeat (destruct Hc as [->|Hc];
            [simpl in *; split_ltb ltac:(simpl; lia); simpl; lia|]);
    subst m; simpl in *; split_ltb ltac:(simpl; lia); simpl; lia.
Qed.

(* ===================================================================== *)
(** * Facts about the library functions *)
(* ===================================================================== *)

Section SortFacts.

Context {A : Type} (comparefn : A -> A -> option Z).

Lemma sort_insert_perm x l : JSArray.sort_insert comparefn x l ≡ₚ x :: l.
Proof.
  induction l as [|y l IH]; simpl; [done|].
  destruct (_ <=? _)%Z; [done|].
  rewrite IH. apply Permutation_swap.
Qed.

Lemma sort_perm l : JSArray.sort comparefn l ≡ₚ l.
Proof.
  induction l as [|x l IH]; simpl; [done|].
  by rewrite sort_insert_perm, IH.
Qed.

Lemma sort_length l : length (JSArray.sort comparefn l) = length l.
Proof. apply Permutation_length, sort_perm. Qed.

Lemma sort_nil_inv l : JSArray.sort comparefn l = [] -> l = [].
Proof.
  intros H. apply Permutation_nil_r. rewrite <- H. symmetry. apply sort_perm.
Qed.

Lemma elem_of_sort x l : x ∈ JSArray.sort comparefn l <-> x ∈ l.
Proof. by rewrite sort_perm. Qed.

Context (key : A -> Z).

Lemma keyed_cons x l : keyed comparefn key (x :: l) -> keyed comparefn key l.
Proof. intros H a b Ha Hb. apply H; by right. Qed.

Lemma keyed_perm l l' : l ≡ₚ l' -> keyed comparefn key l -> keyed comparefn key l'.
Proof. intros Hp H a b Ha Hb. apply H; by rewrite Hp. Qed.

Lemma sort_insert_sorted x l :
  keyed comparefn key (x :: l) -> StronglySorted (key_le key) l ->
  StronglySorted (key_le key) (JSArray.sort_insert comparefn x l).
Proof.
  intros Hk Hs. induction Hs as [|y l Hs IH Hy]; simpl.
  { repeat constructor. }
  unfold JSArray.SortCompare.
  rewrite (Hk x y) by (rewrite !elem_of_cons; auto). simpl.
  destruct (Z.leb_spec (key x - key y) 0) as [Hle|Hgt].
  - constructor; [by constructor|].
    constructor; [unfold key_le; lia|].
    eapply Forall_impl; [exact Hy|]. unfold key_le. intros; simpl in *; lia.
  - constructor.
    + apply IH. intros a b Ha Hb.
      apply Hk; rewrite elem_of_cons in *; rewrite elem_of_cons; tauto.
    + rewrite Forall_forall. intros z Hz.
      apply elem_of_Permutation_proper with (y := x :: l) in Hz;
        [|apply sort_insert_perm].
      rewrite elem_of_cons in Hz. destruct Hz as [->|Hz].
      * unfold key_le; lia.
      * rewrite Forall_forall in Hy. by apply Hy.
Qed.

Lemma sort_sorted l : keyed comparefn key l -> StronglySorted (key_le key) (JSArray.sort comparefn l).
Proof.
  induction l as [|x l IH]; simpl; intros Hk; [constructor|].
  apply sort_insert_sorted.
  - eapply keyed_perm; [|exact Hk]. by rewrite sort_perm.
  - apply IH. by eapply keyed_cons.
Qed.

Lemma sort_insert_head x l :
  keyed comparefn key (x :: l) -> Forall (key_le key x) l ->
  JSArray.sort_insert comparefn x l = x :: l.
Proof.
  intros Hk Hx. destruct l as [|y l]; simpl; [done|].
  unfold JSArray.SortCompare.
  rewrite (Hk x y) by (rewrite !elem_of_cons; auto). simpl.
  apply Forall_cons in Hx as [Hxy _]. unfold key_le in Hxy.
  destruct (Z.leb_spec (key x - key y) 0); [done|lia].
Qed.

Lemma sort_of_sorted l :
  keyed comparefn key l -> StronglySorted (key_le key) l -> JSArray.sort comparefn l = l.
Proof.
  intros Hk Hs. induction Hs as [|x l Hs IH Hx]; simpl; [done|].
  rewrite IH by (by eapply keyed_cons). by apply sort_insert_head.
Qed.

Lemma sort_idemp l :
  keyed comparefn key l -> JSArray.sort comparefn (JSArray.sort comparefn l)
             = JSArray.sort comparefn l.
Proof.
  intros Hk. apply sort_of_sorted.
  - eapply keyed_perm; [|exact Hk]. by rewrite sort_perm.
  - by apply sort_sorted.
Qed.

End SortFacts.

Section SetFacts.

Context {K : Type} `{EqDecision K}.

Lemma Set_values_acc (acc values : list K) :
  NoDup acc ->
  let r := foldl (fun s v => if decide (v ∈ s) then s else s ++ [v]) acc values in
  NoDup r /\ forall x, x ∈ r <-> x ∈ acc \/ x ∈ values.
Proof.
  revert acc. induction values as [|v values IH]; intros acc Hnd; simpl.
  { split; [done|]. intros x. rewrite elem_of_nil. tauto. }
  destruct (decide (v ∈ acc)) as [Hin|Hnin].
  - destruct (IH acc Hnd) as [H1 H2]. split; [done|].
    intros x. rewrite H2, elem_of_cons.
    split; [tauto|]. intros [?|[->|?]]; auto.
  - assert (NoDup (acc ++ [v])) as Hnd'.
    { apply NoDup_app. split_and!; [done| |apply NoDup_singleton].
      intros x Hx. rewrite list_elem_of_singleton. by intros ->. }
    destruct (IH _ Hnd') as [H1 H2]. split; [done|].
    intros x. rewrite H2, elem_of_app, list_elem_of_singleton, elem_of_cons.
    tauto.
Qed.

Lemma Set_values_NoDup (values : list K) : NoDup (JSArray.Set_values values).
Proof. apply (Set_values_acc [] values), NoDup_nil_2. Qed.

Lemma elem_of_Set_values (values : list K) x :
  x ∈ JSArray.Set_values values <-> x ∈ values.
Proof.
  destruct (Set_values_acc [] values (NoDup_nil_2)) as [_ H].
  unfold JSArray.Set_values. rewrite H, elem_of_nil. tauto.
Qed.

End SetFacts.

(* ===================================================================== *)
(** * [filterDataByYearRange] *)
(* ===================================================================== *)

Lemma List_filter_decide {A} (f : A -> bool) (P : A -> Prop)
    `{forall x, Decision (P x)} (l : list A) :
  (forall x, f x = true <-> P x) -> List.filter f l = filter P l.
Proof.
  intros Hf. induction l as [|x l IH]; simpl; [done|].
  rewrite filter_cons. destruct (decide (P x)) as [HP|HP].
  - apply Hf in HP. rewrite HP. by f_equal.
  - destruct (f x) eqn:E; [|done]. by apply Hf in E.
Qed.

Lemma inYearRange_test r :
  geZ (year r) CONFIG.yearRange.start && leZ (year r) CONFIG.yearRange.end_ = true
  <-> inYearRange r.
Proof.
  unfold inYearRange, geZ, leZ. destruct (year r); simpl; [|split; [done|tauto]].
  rewrite andb_true_iff, !Z.leb_le. tauto.
Qed.

Lemma filteredData_eq data :
  fst (filterDataByYearRange data) = filter inYearRange data.
Proof. simpl. apply List_filter_decide, inYearRange_test. Qed.

Lemma all_Some_fmap {A} (l : list (option A)) :
  Forall is_Some l -> exists ys, l = Some <$> ys.
Proof.
  induction 1 as [|o l [y ->] _ [ys ->]]; [by exists []|].
  by exists (y :: ys).
Qed.

Lemma StronglySorted_le_lt (ys : list Z) :
  NoDup ys -> StronglySorted Z.le ys -> StronglySorted Z.lt ys.
Proof.
  induction 2 as [|y ys Hs IH Hy]; [constructor|].
  apply NoDup_cons in H as [Hnin Hnd]. constructor; [auto|].
  rewrite Forall_forall in *. intros z Hz.
  specialize (Hy z Hz). assert (y <> z) by (by intros ->). lia.
Qed.

Lemma default_fmap_Some (l : list Z) : default 0 <$> (Some <$> l) = l.
Proof. induction l as [|x l IH]; simpl; [done|]. by f_equal. Qed.

(** Sorting numbers by [(a, b) => a - b]: ascending. *)
Lemma sort_numbers (ys : list Z) :
  exists zs, JSArray.sort (fun a b => JSArray.minus a b) (Some <$> ys) = Some <$> zs
             /\ zs ≡ₚ ys /\ StronglySorted Z.le zs.
Proof.
  set (cmp := fun a b : option Z => JSArray.minus a b).
  assert (JSArray.sort cmp (Some <$> ys) ≡ₚ Some <$> ys) as Hp by apply sort_perm.
  destruct (all_Some_fmap (JSArray.sort cmp (Some <$> ys))) as [zs Hzs].
  { rewrite Hp. apply Forall_fmap, Forall_forall. intros; by eexists. }
  exists zs. split; [done|]. split.
  { rewrite Hzs in Hp. apply (fmap_Permutation (default 0)) in Hp.
    by rewrite !default_fmap_Some in Hp. }
  assert (keyed cmp (default 0) (Some <$> ys)) as Hk.
  { intros a b Ha Hb. apply list_elem_of_fmap in Ha as [x [-> _]].
    apply list_elem_of_fmap in Hb as [y [-> _]]. done. }
  pose proof (sort_sorted cmp (default 0) _ Hk) as Hs.
  rewrite Hzs in Hs. clear -Hs.
  induction zs as [|z zs IH]; [constructor|].
  rewrite fmap_cons in Hs. apply StronglySorted_inv in Hs as [Hs Hz].
  constructor; [auto|].
  rewrite Forall_fmap in Hz. eapply Forall_impl; [exact Hz|].
  intros y. unfold key_le. simpl. done.
Qed.

(** The [years] returned: the distinct years of the records kept, as
    numbers, strictly ascending. *)
Lemma years_spec (data : list ParsedRecord) :
  exists ys : list Z,
    snd (filterDataByYearRange data) = Some <$> ys
    /\ StronglySorted Z.lt ys
    /\ NoDup ys
    /\ forall y, y ∈ ys <->
                 exists r, r ∈ fst (filterDataByYearRange data) /\ year r = Some y.
Proof.
  rewrite filteredData_eq.
  assert (snd (filterDataByYearRange data)
          = JSArray.sort (fun a b => JSArray.minus a b)
              (JSArray.Set_values (map (fun d => year d) (filter inYearRange data))))
    as ->.
  { rewrite <- filteredData_eq. done. }
  set (filteredData := filter inYearRange data).
  set (ysRaw := JSArray.Set_values (map (fun d => year d) filteredData)).
  assert (forall o, o ∈ ysRaw <-> exists r, r ∈ filteredData /\ year r = o) as Hmem.
  { intros o. unfold ysRaw. rewrite elem_of_Set_values.
    change (map ?f ?l) with (f <$> l). rewrite list_elem_of_fmap.
    split; intros [r [? ?]]; exists r; done. }
  destruct (all_Some_fmap ysRaw) as [ys0 Hys0].
  { apply Forall_forall. intros o [r [Hr <-]]%Hmem.
    apply list_elem_of_filter in Hr as [Hr _].
    unfold inYearRange in Hr. destruct (year r); [by eexists|done]. }
  destruct (sort_numbers ys0) as [zs [Hzs [Hperm Hsorted]]].
  assert (NoDup ys0) as Hnd0.
  { apply (NoDup_fmap_1 Some). rewrite <- Hys0. apply Set_values_NoDup. }
  assert (NoDup zs) as Hnd by (by rewrite Hperm).
  exists zs. split; [by rewrite Hys0|].
  split; [by apply StronglySorted_le_lt|]. split; [done|].
  intros y. rewrite Hperm.
  rewrite <- (Hmem (Some y)), Hys0, list_elem_of_fmap.
  split; [intros; by exists y|]. by intros [? [[= <-] ?]].
Qed.

(** C2. [filterDataByYearRange] keeps exactly the records whose year is in
    the configured range 2008-2017 (both ends included), in their order; its
    [years] are the distinct years of the records kept, as numbers, strictly
    ascending and without duplicates; on no records it returns no records and
    no years. *)
Theorem filterDataByYearRange_spec (data : list ParsedRecord) :
  let '(filteredData, years) := filterDataByYearRange data in
  filteredData = filter inYearRange data
  /\ (forall r, inYearRange r <->
                exists y, year r = Some y /\ 2008 <= y <= 2017)
  /\ (exists ys : list Z,
        years = Some <$> ys
        /\ StronglySorted Z.lt ys
        /\ NoDup ys
        /\ forall y, y ∈ ys <-> exists r, r ∈ filteredData /\ year r = Some y)
  /\ filterDataByYearRange [] = ([], []).
Proof.
  pose proof (filteredData_eq data) as Hfd.
  pose proof (years_spec data) as Hys.
  destruct (filterDataByYearRange data) as [filteredData years].
  simpl in Hfd, Hys.
  split; [done|]. split; [|by split].
  intros r. unfold inYearRange, CONFIG.yearRange.start, CONFIG.yearRange.end_.
  destruct (year r) as [y|].
  - split; [intros; by exists y|]. by intros [? [[= <-] ?]].
  - split; [done|]. by intros [? [? _]].
Qed.

(* ===================================================================== *)
(** * [d3.group] *)
(* ===================================================================== *)

Section GroupFacts.

Context {A K : Type} `{Countable K}.

(** The array [d3.group] holds for a key: the values with that key, in
    order; there is no entry for a key no value has. *)
Lemma group_lookup (values : list A) (key : A -> K) (k : K) :
  d3.group values key !! k =
    match filter (fun v => key v = k) values with
    | [] => None
    | g => Some g
    end.
Proof.
  unfold d3.group. revert k.
  induction values as [|x values IH] using rev_ind; intros k; [done|].
  rewrite foldl_snoc, filter_app, filter_cons, filter_nil.
  set (m := foldl _ ∅ values) in *.
  pose proof (IH (key x)) as Hx.
  destruct (m !! key x) as [g|] eqn:Ex.
  - rewrite lookup_insert. destruct (decide (key x = k)) as [<-|ne].
    + destruct (filter _ values); [done|]. by injection Hx as ->.
    + rewrite IH. by rewrite app_nil_r.
  - rewrite lookup_insert. destruct (decide (key x = k)) as [<-|ne].
    + destruct (filter _ values); [done|discriminate].
    + rewrite IH. by rewrite app_nil_r.
Qed.

End GroupFacts.

Lemma elem_of_monthGroup data y i r :
  r ∈ monthGroup data y i <-> r ∈ data /\ year r = y /\ month r = Some i.
Proof. unfold monthGroup. rewrite !list_elem_of_filter. tauto. Qed.

Lemma get2_group2 data y i :
  get2 (d3.group2 data (fun d => year d) (fun d => month d)) y i =
    match monthGroup data y i with
    | [] => None
    | g => Some g
    end.
Proof.
  unfold get2, lookup2, d3.group2, monthGroup.
  rewrite lookup_fmap, group_lookup.
  destruct (filter (fun r => year r = y) data) as [|r g] eqn:E; [done|].
  simpl. by rewrite group_lookup.
Qed.

Lemma lookup2_insert2 {V} (m : gmap (option Z) (gmap (option Z) V)) k1 k2 v k1' k2' :
  lookup2 (insert2 m k1 k2 v) k1' k2' =
    if decide (k1 = k1' /\ k2 = k2') then Some v else lookup2 m k1' k2'.
Proof.
  unfold lookup2, insert2. rewrite lookup_insert.
  destruct (decide (k1 = k1')) as [<-|ne]; simpl.
  - rewrite lookup_insert. destruct (decide (k2 = k2')) as [<-|ne].
    + by rewrite decide_True.
    + rewrite decide_False by tauto. by destruct (m !! k1).
  - by rewrite decide_False by tauto.
Qed.

Lemma get2_set2 (st : groups) y i a y' i' :
  get2 (set2 st y i a) y' i' =
    if decide (y = y' /\ i = i') then Some a else get2 st y' i'.
Proof.
  unfold get2, set2. rewrite lookup2_insert2.
  destruct (decide (y = y' /\ i = i')) as [[-> ->]|ne].
  - by rewrite decide_True.
  - rewrite decide_False; [done|]. intros [-> [= ->]]. by apply ne.
Qed.

(* ===================================================================== *)
(** * [aggregateMonthlyData]: what the loops compute *)
(* ===================================================================== *)

Lemma sortN_perm n g : sortN n g ≡ₚ g.
Proof.
  induction n as [|n IH]; simpl; [done|].
  unfold sortN in *. simpl. by rewrite sort_perm.
Qed.

Lemma sortN_length n g : length (sortN n g) = length g.
Proof. apply Permutation_length, sortN_perm. Qed.

Lemma sortN_S n g : sortN (S n) g = JSArray.sort byDay (sortN n g).
Proof. done. Qed.

Lemma times_snoc p (v : visit) y i :
  times (p ++ [v]) y i
  = (times p y i + if decide (v.1 = y /\ v.2.1 = i) then 1 else 0)%nat.
Proof.
  unfold times. rewrite filter_app, length_app, filter_cons, filter_nil.
  by destruct (decide _).
Qed.

Lemma foldl_visitMonth y st (l : list (Z * string)) :
  foldl (fun st (v : visit) => visitMonth v.1 st v.2) st (pair y <$> l)
  = foldl (visitMonth y) st l.
Proof.
  revert st. induction l as [|e l IH]; intros st; [done|]. simpl. apply IH.
Qed.

Lemma foldl_visitYear st years :
  foldl visitYear st years
  = foldl (fun st (v : visit) => visitMonth v.1 st v.2) st (visits years).
Proof.
  revert st. induction years as [|y years IH]; intros st; [done|].
  unfold visits. rewrite bind_cons, foldl_app. fold (visits years).
  rewrite foldl_visitMonth, <- IH. done.
Qed.

Lemma visitMonth_spec data p st out (v : visit) :
  store_after data p st ->
  exists st', (visitMonth v.1 (st, out) v.2
               = (st', out ++ emit data (fun _ _ j => S j) p [v]))
              /\ store_after data (p ++ [v]) st'.
Proof.
  intros Hst. destruct v as [y [i name]]. simpl.
  rewrite (Hst y i).
  destruct (monthGroup data y i) as [|r g] eqn:Eg; simpl.
  - exists st. split; [by rewrite app_nil_r|].
    intros y' i'. rewrite times_snoc. simpl. rewrite (Hst y' i').
    destruct (decide (y = y' /\ i = i')) as [[<- <-]|ne].
    + by rewrite Eg.
    + by rewrite Nat.add_0_r.
  - assert ((0 <? length (sortN (times p y i) (r :: g)))%nat = true) as ->.
    { rewrite sortN_length. done. }
    eexists. split.
    + f_equal. f_equal. unfold summaryAt. rewrite Eg. done.
    + intros y' i'. rewrite get2_set2, times_snoc. simpl.
      destruct (decide (y = y' /\ i = i')) as [[<- <-]|ne].
      * rewrite Eg. by rewrite Nat.add_1_r.
      * by rewrite (Hst y' i'), Nat.add_0_r.
Qed.

Lemma visits_spec data vs : forall p st out,
  store_after data p st ->
  exists st', (foldl (fun st (v : visit) => visitMonth v.1 st v.2) (st, out) vs
               = (st', out ++ emit data (fun _ _ j => S j) p vs))
              /\ store_after data (p ++ vs) st'.
Proof.
  induction vs as [|v vs IH]; intros p st out Hst.
  - exists st. simpl. by rewrite !app_nil_r.
  - destruct (visitMonth_spec data p st out v Hst) as [st1 [E1 H1]].
    destruct (IH (p ++ [v]) st1 (out ++ emit data (fun _ _ j => S j) p [v]) H1)
      as [st2 [E2 H2]].
    exists st2. split.
    + change (foldl ?f ?a (v :: vs)) with (foldl f (f a v) vs). cbv beta.
      rewrite E1, E2. f_equal. rewrite <- app_assoc. f_equal.
      simpl. by rewrite app_nil_r.
    + by rewrite <- app_assoc in H2.
Qed.

Lemma resolve_emit data all st p vs kf :
  store_after data all st ->
  map (resolve st) (emit data kf p vs)
  = emit data (fun y i _ => times all y i) p vs.
Proof.
  intros Hst. revert p. induction vs as [|v vs IH]; intros p; [done|].
  simpl. rewrite map_app, IH. f_equal.
  destruct (monthGroup data v.1 v.2.1) as [|r g] eqn:Eg; [done|].
  simpl. unfold resolve, summaryAt. simpl.
  by rewrite (Hst v.1 v.2.1), Eg.
Qed.

(** The entries returned, for any [years]: one for each visit of a group
    that is not empty, in the order of the visits. Its statistics are read
    before the visit sorts the group's array; its [dailyData] is that array
    as the last visit of the group leaves it. *)
Lemma aggregateMonthlyData_emit data years :
  aggregateMonthlyData data years
  = emit data (fun y i _ => times (visits years) y i) [] (visits years).
Proof.
  unfold aggregateMonthlyData. rewrite foldl_visitYear.
  destruct (visits_spec data (visits years) []
              (d3.group2 data (fun d => year d) (fun d => month d)) [])
    as [st' [E H]].
  { intros y i. rewrite get2_group2. by destruct (monthGroup data y i). }
  rewrite E. simpl. by apply resolve_emit.
Qed.

Lemma visit_keys years : visit_key <$> visits years = pairs years.
Proof.
  unfold visits, pairs. induction years as [|y years IH]; [done|].
  rewrite !bind_cons, fmap_app, IH. done.
Qed.

Lemma elem_of_pairs years y i :
  (y, i) ∈ pairs years <-> y ∈ years /\ 0 <= i <= 11.
Proof.
  unfold pairs. rewrite list_elem_of_bind. split.
  - intros [y' [Hin Hy]]. apply list_elem_of_fmap in Hin as [i' [[= -> ->] Hi]].
    split; [done|]. unfold monthIndices in Hi.
    repeat (apply elem_of_cons in Hi as [->|Hi]; [lia|]).
    by apply elem_of_nil in Hi.
  - intros [Hy Hi]. exists y. split; [|done].
    apply list_elem_of_fmap. exists i. split; [done|].
    unfold monthIndices.
    assert (i = 0 \/ i = 1 \/ i = 2 \/ i = 3 \/ i = 4 \/ i = 5 \/ i = 6
            \/ i = 7 \/ i = 8 \/ i = 9 \/ i = 10 \/ i = 11) as Hc by lia.
    repeat (destruct Hc as [->|Hc]; [repeat constructor|]).
    subst. repeat constructor.
Qed.

Lemma NoDup_pairs years : NoDup years -> NoDup (pairs years).
Proof.
  unfold pairs. induction 1 as [|y years Hnin Hnd IH]; [constructor|].
  rewrite bind_cons. apply NoDup_app. split_and!; [| |exact IH].
  - apply NoDup_fmap_2; [intros ?? [=]; done|].
    unfold monthIndices. repeat (apply NoDup_cons; split;
      [rewrite ?elem_of_cons, elem_of_nil; lia|]). constructor.
  - intros [y' i] Hin Hin'. apply list_elem_of_fmap in Hin as [? [[= -> ->] _]].
    apply elem_of_pairs in Hin' as [? _]. done.
Qed.

Lemma times_notin p y i : (y, i) ∉ visit_key <$> p -> times p y i = 0%nat.
Proof.
  intros Hnin. unfold times.
  induction p as [|v p IH]; [done|].
  rewrite fmap_cons, not_elem_of_cons in Hnin. destruct Hnin as [Hne Hnin].
  rewrite filter_cons_False; [by apply IH|].
  intros [<- <-]. by apply Hne.
Qed.

Lemma times_NoDup vs (v : visit) :
  NoDup (visit_key <$> vs) -> v ∈ vs -> times vs v.1 v.2.1 = 1%nat.
Proof.
  induction vs as [|w vs IH]; intros Hnd Hin; [by apply elem_of_nil in Hin|].
  rewrite fmap_cons, NoDup_cons in Hnd. destruct Hnd as [Hnin Hnd].
  change (w :: vs) with ([w] ++ vs). unfold times.
  rewrite filter_app, length_app, filter_cons, filter_nil.
  fold (times vs v.1 v.2.1).
  apply elem_of_cons in Hin as [->|Hin].
  - rewrite decide_True by done. by rewrite times_notin.
  - rewrite decide_False; [by rewrite IH|].
    intros [E1 E2]. apply Hnin. apply list_elem_of_fmap. exists v.
    split; [|done]. unfold visit_key. by rewrite E1, E2.
Qed.

Lemma emitted_cons data (v : visit) vs :
  emitted data (v :: vs)
  = match monthGroup data v.1 v.2.1 with
    | [] => []
    | _ => [summaryOf data v.1 v.2.1 v.2.2]
    end ++ emitted data vs.
Proof. done. Qed.

Lemma emit_NoDup data all p vs :
  NoDup (visit_key <$> (p ++ vs)) ->
  (forall v, v ∈ vs -> times all v.1 v.2.1 = 1%nat) ->
  emit data (fun y i _ => times all y i) p vs = emitted data vs.
Proof.
  revert p. induction vs as [|v vs IH]; intros p Hnd Hall; [done|].
  rewrite emitted_cons. simpl. rewrite IH.
  - f_equal. destruct (monthGroup data v.1 v.2.1); [done|].
    rewrite Hall by (by left). rewrite times_notin; [done|].
    rewrite fmap_app, fmap_cons in Hnd.
    apply NoDup_app in Hnd as (_ & Hd & _).
    intros Hin. apply (Hd _ Hin). by left.
  - by rewrite <- app_assoc.
  - intros w Hw. apply Hall. by right.
Qed.

(** With no year listed twice, each group is visited once: the statistics are
    those of the group in the order of [data], and [dailyData] is the group
    sorted once. *)
Lemma aggregateMonthlyData_NoDup data years :
  NoDup years ->
  aggregateMonthlyData data years = emitted data (visits years).
Proof.
  intros Hnd. rewrite aggregateMonthlyData_emit.
  assert (NoDup (visit_key <$> visits years)) as Hk.
  { rewrite visit_keys. by apply NoDup_pairs. }
  apply emit_NoDup; [done|]. intros v Hv. by apply times_NoDup.
Qed.

Lemma emit_keys data kf p vs :
  summary_key <$> emit data kf p vs
  = filter (fun k => monthGroup data k.1 k.2 <> []) (visit_key <$> vs).
Proof.
  revert p. induction vs as [|v vs IH]; intros p; [done|].
  simpl. rewrite fmap_app, IH, filter_cons.
  destruct (monthGroup data v.1 v.2.1) eqn:E; simpl.
  - rewrite decide_False; [done|]. intros Hne. by apply Hne.
  - rewrite decide_True; [done|]. simpl. by rewrite E.
Qed.

(** The (year, month) of the entries returned: the visited pairs whose group
    is not empty, in the order of the visits. *)
Lemma aggregateMonthlyData_keys data years :
  summary_key <$> aggregateMonthlyData data years
  = filter (fun k => monthGroup data k.1 k.2 <> []) (pairs years).
Proof. by rewrite aggregateMonthlyData_emit, emit_keys, visit_keys. Qed.

(* ===================================================================== *)
(** * [aggregateMonthlyData]: the entries returned *)
(* ===================================================================== *)

Lemma monthGroup_eq data y i :
  monthGroup data y i = filter (fun r => year r = y /\ month r = Some i) data.
Proof.
  unfold monthGroup. rewrite list_filter_filter.
  apply list_filter_iff. tauto.
Qed.

Lemma monthGroup_hasRecord data k :
  monthGroup data k.1 k.2 <> [] <-> hasRecord data k.
Proof.
  unfold hasRecord. rewrite Exists_exists. split.
  - intros Hne. destruct (monthGroup data k.1 k.2) as [|r g] eqn:E; [done|].
    assert (r ∈ monthGroup data k.1 k.2) as Hin by (rewrite E; by left).
    apply elem_of_monthGroup in Hin as (? & ? & ?). by exists r.
  - intros [r [Hr [Hy Hm]]] E.
    assert (r ∈ monthGroup data k.1 k.2) as Hin by (by apply elem_of_monthGroup).
    rewrite E in Hin. by apply elem_of_nil in Hin.
Qed.

Lemma keys_hasRecord data years :
  summary_key <$> aggregateMonthlyData data years
  = filter (hasRecord data) (pairs years).
Proof.
  rewrite aggregateMonthlyData_keys. apply list_filter_iff.
  intros k. apply monthGroup_hasRecord.
Qed.

Lemma length_filter_fmap {A B} `{EqDecision B} (f : A -> B) (k : B) (l : list A) :
  length (filter (fun x => f x = k) l) = length (filter (fun y => y = k) (f <$> l)).
Proof.
  induction l as [|x l IH]; [done|].
  rewrite fmap_cons, !filter_cons. destruct (decide (f x = k)); simpl; by rewrite IH.
Qed.

Lemma length_filter_eq_NoDup {A} `{EqDecision A} (k : A) (l : list A) :
  NoDup l ->
  length (filter (fun x => x = k) l) = if decide (k ∈ l) then 1%nat else 0%nat.
Proof.
  induction 1 as [|x l Hnin Hnd IH]; [done|].
  rewrite filter_cons. destruct (decide (x = k)) as [->|ne]; simpl.
  - rewrite decide_True by (by left). rewrite IH.
    by rewrite decide_False.
  - rewrite IH. destruct (decide (k ∈ l)) as [Hin|Hn].
    + rewrite decide_True; [done|by right].
    + rewrite decide_False; [done|]. rewrite elem_of_cons.
      intros [E|Hin]; [by apply ne|by apply Hn].
Qed.

Lemma elem_of_emitted data vs (v : visit) :
  v ∈ vs -> monthGroup data v.1 v.2.1 <> [] ->
  summaryOf data v.1 v.2.1 v.2.2 ∈ emitted data vs.
Proof.
  intros Hv Hne. unfold emitted. apply list_elem_of_bind. exists v.
  split; [|done]. destruct (monthGroup data v.1 v.2.1); [done|]. by left.
Qed.

(** With no year listed twice, a record of a listed year and of a month 0-11
    is among the [dailyData] of the entry of its year and month. *)
Lemma aggregateMonthlyData_covers data years r i :
  NoDup years ->
  r ∈ data -> year r ∈ years -> month r = Some i -> 0 <= i <= 11 ->
  exists s, s ∈ aggregateMonthlyData data years
            /\ summary_key s = (year r, i)
            /\ r ∈ Monthly.dailyData s.
Proof.
  intros Hnd Hr Hy Hm Hi. rewrite aggregateMonthlyData_NoDup by done.
  assert ((year r, i) ∈ visit_key <$> visits years) as Hin.
  { rewrite visit_keys. by apply elem_of_pairs. }
  apply list_elem_of_fmap in Hin as ([y [i' name]] & [= <- <-] & Hv).
  assert (r ∈ monthGroup data (year r) i) as Hg by (by apply elem_of_monthGroup).
  exists (summaryOf data (year r) i name). split_and!.
  - apply (elem_of_emitted data _ (year r, (i, name))); [done|].
    simpl. intros E. rewrite E in Hg. by apply elem_of_nil in Hg.
  - done.
  - unfold summaryOf, summaryAt. simpl. by apply elem_of_sort.
Qed.

(** C3. Sparse output. For a list of distinct years, the entries returned by
    [aggregateMonthlyData] hold, for each listed year and each month index
    0-11, exactly one entry when some record has that year and month and none
    when no record has; every entry is for such a pair; so there are as many
    entries as pairs with a record; and each record of a listed year and of a
    month 0-11 is in the entry of its year and month. *)
Theorem aggregateMonthlyData_sparse (data : list ParsedRecord)
    (years : list (option Z)) :
  NoDup years ->
  let out := aggregateMonthlyData data years in
  (forall y i, y ∈ years -> 0 <= i <= 11 ->
     length (filter (fun s => summary_key s = (y, i)) out)
     = if decide (hasRecord data (y, i)) then 1%nat else 0%nat)
  /\ (forall s, s ∈ out ->
        Monthly.year s ∈ years /\ 0 <= Monthly.month s <= 11
        /\ hasRecord data (summary_key s))
  /\ length out = length (filter (hasRecord data) (pairs years))
  /\ (forall r i, r ∈ data -> year r ∈ years -> month r = Some i ->
        0 <= i <= 11 ->
        exists s, s ∈ out /\ summary_key s = (year r, i)
                  /\ r ∈ Monthly.dailyData s).
Proof.
  intros Hnd out.
  pose proof (keys_hasRecord data years) as Hkeys. fold out in Hkeys.
  assert (NoDup (pairs years)) as Hp by (by apply NoDup_pairs).
  split_and!.
  - intros y i Hy Hi.
    rewrite length_filter_fmap, Hkeys.
    rewrite length_filter_eq_NoDup by (by apply NoDup_filter).
    destruct (decide (hasRecord data (y, i))) as [Hr|Hr].
    + rewrite decide_True; [done|]. apply list_elem_of_filter.
      split; [done|]. by apply elem_of_pairs.
    + rewrite decide_False; [done|]. rewrite list_elem_of_filter. tauto.
  - intros s Hs.
    assert (summary_key s ∈ filter (hasRecord data) (pairs years)) as Hin.
    { rewrite <- Hkeys. apply list_elem_of_fmap. by exists s. }
    apply list_elem_of_filter in Hin as [Hr Hin].
    destruct (summary_key s) as [y i] eqn:E.
    apply elem_of_pairs in Hin as [Hy Hi].
    unfold summary_key in E. injection E as -> ->. done.
  - rewrite <- Hkeys. by rewrite length_fmap.
  - intros r i. by apply aggregateMonthlyData_covers.
Qed.


Lemma StronglySorted_filter {A} (R : A -> A -> Prop) (P : A -> Prop)
    `{forall x, Decision (P x)} (l : list A) :
  StronglySorted R l -> StronglySorted R (filter P l).
Proof.
  induction 1 as [|x l Hs IH Hx]; [constructor|].
  rewrite filter_cons. destruct (decide (P x)); [|done].
  constructor; [done|]. rewrite Forall_forall in *.
  intros y Hy. apply list_elem_of_filter in Hy as [_ Hy]. auto.
Qed.

Lemma months_sorted (y : Z) :
  StronglySorted key_lt (pair (Some y) <$> monthIndices).
Proof.
  unfold monthIndices. simpl.
  repeat (constructor; [|repeat (constructor; [unfold key_lt; simpl; lia|]);
                         constructor]).
  constructor.
Qed.

Lemma pairs_sorted (ys : list Z) :
  StronglySorted Z.lt ys -> StronglySorted key_lt (pairs (Some <$> ys)).
Proof.
  induction 1 as [|y ys Hs IH Hy]; [constructor|].
  rewrite fmap_cons. unfold pairs. rewrite bind_cons. fold (pairs (Some <$> ys)).
  apply StronglySorted_app. split_and!; [|apply months_sorted|exact IH].
  intros [y1 i1] [y2 i2] H1 H2.
  apply list_elem_of_fmap in H1 as [? [[= -> ->] _]].
  apply elem_of_pairs in H2 as [H2 _].
  apply list_elem_of_fmap in H2 as [z [-> Hz]].
  rewrite Forall_forall in Hy. specialize (Hy z Hz).
  unfold key_lt. simpl. lia.
Qed.

(** C5. Order. The entries of [aggregateMonthlyData] come in the order of the
    loops, year-major and month-minor: their (year, month) pairs are a
    sublist of the listing of [years] by the month indices 0-11; for the
    [years] that [filterDataByYearRange] returns the pairs are strictly
    ascending, by year and then by month. The result is a function of the
    arguments. *)
Theorem aggregateMonthlyData_order :
  (forall data years,
     summary_key <$> aggregateMonthlyData data years `sublist_of` pairs years)
  /\ (forall data,
        let '(filteredData, years) := filterDataByYearRange data in
        StronglySorted key_lt
          (summary_key <$> aggregateMonthlyData filteredData years)).
Proof.
  split.
  - intros data years. rewrite aggregateMonthlyData_keys. apply sublist_filter.
  - intros data. destruct (years_spec data) as [ys (Hys & Hsorted & _)].
    destruct (filterDataByYearRange data) as [filteredData years].
    simpl in Hys. subst years. rewrite aggregateMonthlyData_keys.
    by apply StronglySorted_filter, pairs_sorted.
Qed.

Lemma elem_of_emit data kf p vs s :
  s ∈ emit data kf p vs ->
  exists (v : visit) j,
    v ∈ vs /\ monthGroup data v.1 v.2.1 <> []
    /\ s = summaryAt data j (kf v.1 v.2.1 j) v.1 v.2.1 v.2.2.
Proof.
  revert p. induction vs as [|v vs IH]; intros p Hs; [by apply elem_of_nil in Hs|].
  simpl in Hs. apply elem_of_app in Hs as [Hs|Hs].
  - destruct (monthGroup data v.1 v.2.1) eqn:E; [by apply elem_of_nil in Hs|].
    apply list_elem_of_singleton in Hs. exists v, (times p v.1 v.2.1).
    split; [by left|]. split; [by rewrite E|done].
  - destruct (IH _ Hs) as (w & j & Hw & Hne & ->).
    exists w, j. split; [by right|done].
Qed.

Lemma times_pos vs (v : visit) : v ∈ vs -> exists k, times vs v.1 v.2.1 = S k.
Proof.
  intros Hin. unfold times.
  assert (v ∈ filter (fun w : visit => w.1 = v.1 /\ w.2.1 = v.2.1) vs) as Hf.
  { by apply list_elem_of_filter. }
  destruct (filter _ vs); [by apply elem_of_nil in Hf|]. by eexists.
Qed.

Lemma elem_of_visits years (v : visit) :
  v ∈ visits years -> v.1 ∈ years /\ 0 <= v.2.1 <= 11.
Proof.
  intros Hv. apply elem_of_pairs. rewrite <- visit_keys.
  apply list_elem_of_fmap. by exists v.
Qed.

(** Every entry returned is the entry of a listed year and a month index
    0-11 whose group is not empty: statistics read after some number [j] of
    sorts of the group, [dailyData] the group sorted at least once. *)
Lemma elem_of_aggregateMonthlyData data years s :
  s ∈ aggregateMonthlyData data years ->
  exists y i name j k,
    y ∈ years /\ 0 <= i <= 11 /\ monthGroup data y i <> []
    /\ s = summaryAt data j (S k) y i name.
Proof.
  rewrite aggregateMonthlyData_emit. intros Hs.
  apply elem_of_emit in Hs as (v & j & Hv & Hne & ->).
  destruct (times_pos _ _ Hv) as [k Hk].
  destruct (elem_of_visits _ _ Hv) as [Hy Hi].
  exists v.1, v.2.1, v.2.2, j, k. by rewrite Hk.
Qed.

Lemma byDay_keyed (l : list ParsedRecord) :
  (forall r, r ∈ l -> is_Some (day r)) ->
  keyed byDay (fun r => default 0 (day r)) l.
Proof.
  intros Hd a b Ha Hb. destruct (Hd a Ha) as [x Hx], (Hd b Hb) as [y Hy].
  unfold byDay. by rewrite Hx, Hy.
Qed.

Lemma sortN_sorted k (g : list ParsedRecord) :
  (forall r, r ∈ g -> is_Some (day r)) ->
  sortN (S k) g = JSArray.sort byDay g
  /\ StronglySorted day_le (sortN (S k) g).
Proof.
  intros Hd.
  assert (keyed byDay (fun r => default 0 (day r)) g) as Hk by (by apply byDay_keyed).
  assert (sortN (S k) g = JSArray.sort byDay g) as E.
  { induction k as [|k IH]; [done|].
    rewrite sortN_S, IH. by eapply sort_idemp. }
  split; [done|]. rewrite E.
  pose proof (sort_sorted byDay _ g Hk) as Hs.
  assert (forall r, r ∈ JSArray.sort byDay g -> is_Some (day r)) as Hd'.
  { intros r Hr. apply Hd. by apply elem_of_sort in Hr. }
  clear -Hs Hd'. induction Hs as [|x l Hs IH Hx]; [constructor|].
  constructor.
  - apply IH. intros r Hr. apply Hd'. by right.
  - rewrite Forall_forall in *. intros z Hz. specialize (Hx z Hz).
    unfold key_le, day_le in *.
    destruct (Hd' x) as [a Ha]; [by left|].
    destruct (Hd' z) as [b Hb]; [by right|].
    rewrite Ha, Hb in *. done.
Qed.

(** C6. Daily records. The [dailyData] of an entry returned by
    [aggregateMonthlyData] holds exactly the records of its (year, month), as
    many as there are, and there is at least one; when the day of each of
    them is a number, they are in ascending order of day (records of the same
    day in the order of the input). *)
Theorem dailyData_spec (data : list ParsedRecord) (years : list (option Z))
    (s : Monthly.summary) :
  s ∈ aggregateMonthlyData data years ->
  let g := filter (fun r => year r = Monthly.year s
                            /\ month r = Some (Monthly.month s)) data in
  g <> []
  /\ Monthly.dailyData s ≡ₚ g
  /\ length (Monthly.dailyData s) = length g
  /\ ((forall r, r ∈ g -> is_Some (day r)) ->
      StronglySorted day_le (Monthly.dailyData s)
      /\ Monthly.dailyData s = JSArray.sort byDay g).
Proof.
  intros Hs g.
  apply elem_of_aggregateMonthlyData in Hs
    as (y & i & name & j & k & Hy & Hi & Hne & ->).
  simpl in g. subst g. rewrite <- monthGroup_eq. simpl.
  split; [done|]. split; [apply (sortN_perm (S k))|].
  split; [apply (sortN_length (S k))|].
  intros Hd. destruct (sortN_sorted k _ Hd) as [E Hsorted]. done.
Qed.

(* ===================================================================== *)
(** * Order of Numbers *)
(* ===================================================================== *)

Ltac number_cases :=
  repeat match goal with
         | s : bool |- _ => destruct s
         end;
  simpl; try tauto; try (intuition (try discriminate; try lia)).

Lemma compare_finite_spec (m1 m2 : positive) (e1 e2 : Z) :
  match (e1 ?= e2) with
  | Lt => e1 < e2
  | Gt => e2 < e1
  | Eq => e1 = e2 /\ match Pos.compare_cont Eq m1 m2 with
                     | Lt => (Z.pos m1 < Z.pos m2)
                     | Gt => (Z.pos m2 < Z.pos m1)
                     | Eq => m1 = m2
                     end
  end.
Proof.
  destruct (Z.compare_spec e1 e2); [|done|done].
  split; [done|]. change (Pos.compare_cont Eq m1 m2) with (m1 ?= m2)%positive.
  destruct (Pos.compare_spec m1 m2); [done|lia|lia].
Qed.

Lemma le_rank (x y : number) :
  isNaN x = false -> isNaN y = false ->
  (le x y = true <-> rank_le (rank x) (rank y)).
Proof.
  unfold le, SFleb, rank_le.
  destruct x as [sx|sx| |sx mx ex], y as [sy|sy| |sy my ey]; simpl;
    intros Hx Hy; try discriminate; try (number_cases; fail).
  pose proof (compare_finite_spec mx my ex ey) as Hc.
  destruct sx, sy; simpl; try (intuition (try discriminate; try lia); fail);
    destruct (ex ?= ey); simpl; try (intuition (try discriminate; try lia); fail);
    destruct Hc as [-> Hc]; destruct (Pos.compare_cont Eq mx my); simpl;
    try subst; intuition (try discriminate; try lia).
Qed.

Lemma lt_rank (x y : number) :
  isNaN x = false -> isNaN y = false ->
  (lt x y = true <-> rank_lt (rank x) (rank y)).
Proof.
  unfold lt, SFltb, rank_lt.
  destruct x as [sx|sx| |sx mx ex], y as [sy|sy| |sy my ey]; simpl;
    intros Hx Hy; try discriminate; try (number_cases; fail).
  pose proof (compare_finite_spec mx my ex ey) as Hc.
  destruct sx, sy; simpl; try (intuition (try discriminate; try lia); fail);
    destruct (ex ?= ey); simpl; try (intuition (try discriminate; try lia); fail);
    destruct Hc as [-> Hc]; destruct (Pos.compare_cont Eq mx my); simpl;
    try subst; intuition (try discriminate; try lia).
Qed.

Lemma le_not_NaN x y : le x y = true -> isNaN x = false /\ isNaN y = false.
Proof.
  unfold le, SFleb.
  destruct x as [sx|sx| |sx mx ex], y as [sy|sy| |sy my ey]; simpl;
    try discriminate; done.
Qed.

Lemma lt_not_NaN x y : lt x y = true -> isNaN x = false /\ isNaN y = false.
Proof.
  unfold lt, SFltb.
  destruct x as [sx|sx| |sx mx ex], y as [sy|sy| |sy my ey]; simpl;
    try discriminate; done.
Qed.

Lemma le_refl x : isNaN x = false -> le x x = true.
Proof. intros Hx. apply le_rank; [done..|]. unfold rank_le. lia. Qed.

Lemma ge_self x : ge x x = negb (isNaN x).
Proof.
  destruct (isNaN x) eqn:E; simpl.
  - by destruct x.
  - by apply le_refl.
Qed.

Lemma le_trans x y z : le x y = true -> le y z = true -> le x z = true.
Proof.
  intros H1 H2.
  destruct (le_not_NaN _ _ H1) as [Hx Hy], (le_not_NaN _ _ H2) as [_ Hz].
  apply le_rank in H1; [|done..]. apply le_rank in H2; [|done..].
  apply le_rank; [done..|]. unfold rank_le in *. lia.
Qed.

Lemma lt_le x y : lt x y = true -> le x y = true.
Proof.
  intros H. destruct (lt_not_NaN _ _ H) as [Hx Hy].
  apply lt_rank in H; [|done..]. apply le_rank; [done..|].
  unfold rank_lt, rank_le in *. lia.
Qed.

Lemma not_lt_le x y :
  isNaN x = false -> isNaN y = false -> lt x y = false -> le y x = true.
Proof.
  intros Hx Hy H. apply le_rank; [done..|].
  assert (~ rank_lt (rank x) (rank y)) as Hn.
  { intros Hr. apply lt_rank in Hr; [|done..]. congruence. }
  unfold rank_lt, rank_le in *. lia.
Qed.

(* ===================================================================== *)
(** * [d3.max], [d3.min], [d3.mean] *)
(* ===================================================================== *)

Section Extremes.

Context {A : Type} (valueof : A -> number).

(** [d3.max]: the greatest of the values that are not [NaN]; [undefined]
    when there is none. *)
Lemma max_spec (values : list A) :
  match d3.max values valueof with
  | Some hi =>
      isNaN hi = false
      /\ (exists v, v ∈ values /\ valueof v = hi)
      /\ forall v, v ∈ values -> isNaN (valueof v) = false ->
                   le (valueof v) hi = true
  | None => forall v, v ∈ values -> isNaN (valueof v) = true
  end.
Proof.
  unfold d3.max.
  induction values as [|x values IH] using rev_ind.
  { simpl. intros v Hv. by apply elem_of_nil in Hv. }
  rewrite foldl_snoc. destruct (foldl _ None values) as [m|]; simpl.
  - destruct IH as (Hm & [w [Hw Ew]] & Hub).
    destruct (lt m (valueof x)) eqn:E.
    + destruct (lt_not_NaN _ _ E) as [_ Hx]. split; [done|]. split.
      * exists x. split; [|done]. apply elem_of_app. right. by left.
      * intros v Hv Hn. apply elem_of_app in Hv as [Hv|Hv].
        -- eapply le_trans; [by apply Hub|]. by apply lt_le.
        -- apply list_elem_of_singleton in Hv as ->. by apply le_refl.
    + split; [done|]. split.
      * exists w. split; [|done]. apply elem_of_app. by left.
      * intros v Hv Hn. apply elem_of_app in Hv as [Hv|Hv]; [by apply Hub|].
        apply list_elem_of_singleton in Hv as ->. by apply not_lt_le.
  - rewrite ge_self. destruct (isNaN (valueof x)) eqn:E; simpl.
    + intros v Hv. apply elem_of_app in Hv as [Hv|Hv]; [by apply IH|].
      by apply list_elem_of_singleton in Hv as ->.
    + split; [done|]. split.
      * exists x. split; [|done]. apply elem_of_app. right. by left.
      * intros v Hv Hn. apply elem_of_app in Hv as [Hv|Hv].
        -- rewrite IH in Hn; [discriminate|done].
        -- apply list_elem_of_singleton in Hv as ->. by apply le_refl.
Qed.

(** [d3.min]: the least of the values that are not [NaN]. *)
Lemma min_spec (values : list A) :
  match d3.min values valueof with
  | Some lo =>
      isNaN lo = false
      /\ (exists v, v ∈ values /\ valueof v = lo)
      /\ forall v, v ∈ values -> isNaN (valueof v) = false ->
                   le lo (valueof v) = true
  | None => forall v, v ∈ values -> isNaN (valueof v) = true
  end.
Proof.
  unfold d3.min.
  induction values as [|x values IH] using rev_ind.
  { simpl. intros v Hv. by apply elem_of_nil in Hv. }
  rewrite foldl_snoc. destruct (foldl _ None values) as [m|]; simpl.
  - destruct IH as (Hm & [w [Hw Ew]] & Hlb).
    destruct (lt (valueof x) m) eqn:E.
    + destruct (lt_not_NaN _ _ E) as [Hx _]. split; [done|]. split.
      * exists x. split; [|done]. apply elem_of_app. right. by left.
      * intros v Hv Hn. apply elem_of_app in Hv as [Hv|Hv].
        -- eapply le_trans; [by apply lt_le|]. by apply Hlb.
        -- apply list_elem_of_singleton in Hv as ->. by apply le_refl.
    + split; [done|]. split.
      * exists w. split; [|done]. apply elem_of_app. by left.
      * intros v Hv Hn. apply elem_of_app in Hv as [Hv|Hv]; [by apply Hlb|].
        apply list_elem_of_singleton in Hv as ->. by apply not_lt_le.
  - rewrite ge_self. destruct (isNaN (valueof x)) eqn:E; simpl.
    + intros v Hv. apply elem_of_app in Hv as [Hv|Hv]; [by apply IH|].
      by apply list_elem_of_singleton in Hv as ->.
    + split; [done|]. split.
      * exists x. split; [|done]. apply elem_of_app. right. by left.
      * intros v Hv Hn. apply elem_of_app in Hv as [Hv|Hv].
        -- rewrite IH in Hn; [discriminate|done].
        -- apply list_elem_of_singleton in Hv as ->. by apply le_refl.
Qed.

(** The values counted by [d3.mean]: those that are not [NaN]. *)
Lemma mean_acc_count (values : list A) :
  (d3.mean_acc values valueof).1
  = Z.of_nat (length (filter (fun v => isNaN (valueof v) = false) values)).
Proof.
  unfold d3.mean_acc.
  induction values as [|x values IH] using rev_ind; [done|].
  rewrite foldl_snoc, filter_app, length_app, filter_cons, filter_nil.
  destruct (foldl _ _ values) as [count sum]. simpl in *.
  rewrite ge_self. destruct (isNaN (valueof x)); simpl; lia.
Qed.

(** When no value is [NaN] and there is one at least, [d3.mean] is the sum
    accumulated from [0] in the order of the values, over their number. *)
Lemma mean_defined (values : list A) :
  values <> [] ->
  (forall v, v ∈ values -> isNaN (valueof v) = false) ->
  d3.mean values valueof
  = Some (div (foldl (fun sum v => add sum (valueof v)) pos_zero values)
              (ofZ (Z.of_nat (length values)))).
Proof.
  intros Hne Hn. unfold d3.mean.
  assert (d3.mean_acc values valueof
          = (Z.of_nat (length values),
             foldl (fun sum v => add sum (valueof v)) pos_zero values)) as ->.
  { clear Hne. unfold d3.mean_acc.
    induction values as [|x values IH] using rev_ind; [done|].
    rewrite !foldl_snoc, IH.
    - rewrite ge_self, Hn by (apply elem_of_app; right; by left). simpl.
      rewrite length_app. simpl. f_equal. lia.
    - intros v Hv. apply Hn, elem_of_app. by left. }
  destruct values; [done|]. simpl length.
  by rewrite (proj2 (Z.eqb_neq _ 0)) by lia.
Qed.

End Extremes.

(* ===================================================================== *)
(** * The statistics of an entry *)
(* ===================================================================== *)

Lemma chain_links s :
  chain s ->
  link Monthly.minTemp Monthly.avgMin s = true
  /\ link Monthly.avgMin Monthly.avgMax s = true
  /\ link Monthly.avgMax Monthly.maxTemp s = true.
Proof.
  intros (lo & amin & amax & hi & E1 & E2 & E3 & E4 & H1 & H2 & H3).
  unfold link. by rewrite E1, E2, E3, E4, H1, H2, H3.
Qed.

(** Each link of the chain fails on some input. Three records at 0.1: the sum
    0.1 + 0.1 + 0.1 is 0.30000000000000004 and [avgMax] is
    0.10000000000000002, above [maxTemp] 0.1. Three records at -0.1: [avgMin]
    is -0.10000000000000002, below [minTemp]. Minima [Infinity] and
    [-Infinity]: their sum, and [avgMin], is [NaN]. *)
Lemma chain_counterexample :
  ~ (forall data years,
       (forall r, r ∈ data -> le (minTemperature r) (maxTemperature r) = true) ->
       forall s, s ∈ aggregateMonthlyData data years -> chain s)
  /\ refutes tenthRows Monthly.avgMax Monthly.maxTemp = true
  /\ refutes negTenthRows Monthly.minTemp Monthly.avgMin = true
  /\ refutes infiniteRows Monthly.avgMin Monthly.avgMax = true.
Proof.
  split; [|by vm_compute].
  intros H.
  set (data := parseTemperatureData utc noOtherFormat tenthRows).
  specialize (H data (snd (filterDataByYearRange data))).
  assert (forall r, r ∈ data -> le (minTemperature r) (maxTemperature r) = true) as Hle.
  { intros r Hr. vm_compute in Hr.
    repeat (apply elem_of_cons in Hr as [->|Hr]; [by vm_compute|]).
    by apply elem_of_nil in Hr. }
  specialize (H Hle).
  assert (forallb (link Monthly.avgMax Monthly.maxTemp)
            (aggregateMonthlyData data (snd (filterDataByYearRange data)))
          = true) as Hb.
  { apply forallb_forall. intros s Hs. apply chain_links, H.
    by apply list_elem_of_In. }
  vm_compute in Hb. discriminate.
Qed.

(** C4, as amended. When each record has [minTemperature <= maxTemperature],
    every entry of [aggregateMonthlyData] has [minTemp <= maxTemp]; [minTemp]
    is the least [minTemperature] and [maxTemp] the greatest
    [maxTemperature] of its records, so each record lies between them; and
    [avgMin], [avgMax] are the binary64 sums of the group, taken in the order
    of the array, over the number of its records. *)
Theorem extremes_spec (data : list ParsedRecord) (years : list (option Z))
    (s : Monthly.summary) :
  (forall r, r ∈ data -> le (minTemperature r) (maxTemperature r) = true) ->
  s ∈ aggregateMonthlyData data years ->
  exists lo hi,
    Monthly.minTemp s = Some lo /\ Monthly.maxTemp s = Some hi
    /\ le lo hi = true
    /\ (forall r, r ∈ Monthly.dailyData s ->
          le lo (minTemperature r) = true
          /\ le (minTemperature r) (maxTemperature r) = true
          /\ le (maxTemperature r) hi = true)
    /\ (exists r, r ∈ Monthly.dailyData s /\ minTemperature r = lo)
    /\ (exists r, r ∈ Monthly.dailyData s /\ maxTemperature r = hi)
    /\ (exists a, a ≡ₚ Monthly.dailyData s
          /\ Monthly.avgMin s
             = Some (div (foldl (fun sum r => add sum (minTemperature r)) pos_zero a)
                         (ofZ (Z.of_nat (length a))))
          /\ Monthly.avgMax s
             = Some (div (foldl (fun sum r => add sum (maxTemperature r)) pos_zero a)
                         (ofZ (Z.of_nat (length a))))).
Proof.
  intros Hle Hs.
  apply elem_of_aggregateMonthlyData in Hs
    as (y & i & name & j & k & Hy & Hi & Hne & ->).
  unfold summaryAt. cbn [Monthly.minTemp Monthly.maxTemp Monthly.dailyData
                         Monthly.avgMin Monthly.avgMax].
  assert (forall r, r ∈ monthGroup data y i -> r ∈ data) as Hsub.
  { intros r Hr. by apply elem_of_monthGroup in Hr as [? _]. }
  remember (monthGroup data y i) as g eqn:Eg.
  set (a := sortN j g).
  assert (forall r, r ∈ a <-> r ∈ g) as Ha.
  { intros r. unfold a. by rewrite sortN_perm. }
  assert (forall r, r ∈ sortN (S k) g <-> r ∈ g) as Hd.
  { intros r. by rewrite sortN_perm. }
  assert (forall r, r ∈ g -> le (minTemperature r) (maxTemperature r) = true) as Hg.
  { intros r Hr. by apply Hle, Hsub. }
  assert (forall r, r ∈ g -> isNaN (minTemperature r) = false
                              /\ isNaN (maxTemperature r) = false) as Hn.
  { intros r Hr. by apply le_not_NaN, Hg. }
  assert (exists r0, r0 ∈ g) as [r0 Hr0].
  { clear -Hne. destruct g as [|r0 g0]; [done|]. exists r0. by left. }
  pose proof (min_spec minTemperature a) as Hmin.
  pose proof (max_spec maxTemperature a) as Hmax.
  destruct (d3.min a minTemperature) as [lo|]; cycle 1.
  { destruct (Hn r0 Hr0) as [Hn0 _]. rewrite (Hmin r0) in Hn0; [done|by apply Ha]. }
  destruct (d3.max a maxTemperature) as [hi|]; cycle 1.
  { destruct (Hn r0 Hr0) as [_ Hn0]. rewrite (Hmax r0) in Hn0; [done|by apply Ha]. }
  destruct Hmin as (_ & [rl [Hrl El]] & Hlb), Hmax as (_ & [rh [Hrh Eh]] & Hub).
  assert (forall r, r ∈ g -> le lo (minTemperature r) = true
                              /\ le (minTemperature r) (maxTemperature r) = true
                              /\ le (maxTemperature r) hi = true) as Hall.
  { intros r Hr. destruct (Hn r Hr). split_and!.
    - apply Hlb; [by apply Ha|done].
    - by apply Hg.
    - apply Hub; [by apply Ha|done]. }
  exists lo, hi. split_and!; [done|done| | | | |].
  - destruct (Hall r0 Hr0) as (H1 & H2 & H3).
    eapply le_trans; [exact H1|]. eapply le_trans; [exact H2|exact H3].
  - intros r Hr. apply Hall. by apply Hd.
  - exists rl. split; [|done]. by apply Hd, Ha.
  - exists rh. split; [|done]. by apply Hd, Ha.
  - exists a. split.
    { unfold a. etrans; [apply sortN_perm|]. symmetry. apply (sortN_perm (S k)). }
    assert (a <> []) as Hane.
    { intros E. rewrite <- Ha, E in Hr0. by apply elem_of_nil in Hr0. }
    split; apply mean_defined; try done; intros v Hv; by apply Hn, Ha.
Qed.

(* ===================================================================== *)
(** * [parseTemperatureData] *)
(* ===================================================================== *)

Lemma parseTemperatureData_map tz hp rawData :
  parseTemperatureData tz hp rawData = parseRow tz hp <$> rawData.
Proof. done. Qed.

Lemma digits_none dv base acc n s :
  Forall (fun c => dv c = None) s -> digits dv base acc n s = (acc, n, s).
Proof. intros H. destruct H as [|c s Hc _]; simpl; [done|]. by rewrite Hc. Qed.

Lemma no_digit_values s :
  ~ hasDigit s -> Forall (fun c => digitValue c = None) s.
Proof.
  unfold hasDigit. rewrite <- Forall_Exists_neg. intros H.
  eapply Forall_impl; [exact H|].
  intros c Hc. simpl in Hc. destruct (digitValue c); [|done].
  exfalso. apply Hc. by eexists.
Qed.

Lemma sign_infinity s :
  (sign s).2 = lit "Infinity" -> s ∈ infinityLiterals.
Proof.
  unfold sign, infinityLiterals. destruct s as [|c s]; [done|].
  destruct (N.eqb_spec c 0x2B) as [->|_].
  { simpl. intros ->. right. by left. }
  destruct (N.eqb_spec c 0x2D) as [->|_].
  { simpl. intros ->. right. right. by left. }
  simpl. intros ->. by left.
Qed.

Lemma sign_no_digit s : ~ hasDigit s -> ~ hasDigit (sign s).2.
Proof.
  unfold sign, hasDigit. destruct s as [|c s]; [done|].
  destruct (c =? 0x2B)%N; [|destruct (c =? 0x2D)%N]; simpl; try done;
    intros H H'; apply H; by right.
Qed.

(** A text with no digit that does not spell an infinity is no number. *)
Lemma unsignedDecimal_no_digit neg s :
  ~ hasDigit s -> unsignedDecimal neg s = NaN.
Proof.
  intros Hd. unfold unsignedDecimal.
  rewrite digits_none by (by apply no_digit_values).
  destruct s as [|c s1]; [done|].
  destruct (c =? 0x2E)%N; [|done].
  rewrite digits_none; [done|].
  apply no_digit_values. intros H. apply Hd. by right.
Qed.

Lemma nonDecimal_no_digit s : ~ hasDigit s -> nonDecimal s = None.
Proof.
  intros Hd. unfold nonDecimal. destruct s as [|c [|p s]]; [done..|].
  destruct (N.eqb_spec c 0x30) as [->|_]; [|done].
  exfalso. apply Hd. left. by eexists.
Qed.

Lemma StringToNumber_no_digit s :
  trim s <> [] -> ~ hasDigit (trim s) -> trim s ∉ infinityLiterals ->
  StringToNumber s = NaN.
Proof.
  intros Hne Hd Hinf. unfold StringToNumber.
  destruct (trim s) as [|c t] eqn:E; [done|].
  rewrite nonDecimal_no_digit by done.
  destruct (sign (c :: t)) as [neg s'] eqn:Es.
  destruct (decide (s' = lit "Infinity")) as [->|_].
  { exfalso. apply Hinf, sign_infinity. by rewrite Es. }
  apply unsignedDecimal_no_digit.
  pose proof (sign_no_digit _ Hd) as H. by rewrite Es in H.
Qed.

Lemma StringToNumber_blank s : trim s = [] -> StringToNumber s = pos_zero.
Proof. intros E. unfold StringToNumber. by rewrite E. Qed.

(** A date-only string with a month outside 01-12 or a day outside 01-31 is
    an invalid date on every host. *)
Lemma new_Date_illegal hp s y m d :
  parseIsoDate s = IsoDate y m d ->
  ~ (1 <= m <= 12 /\ 1 <= d <= 31) ->
  JSDate.new_Date hp s = None.
Proof.
  intros E H. unfold JSDate.new_Date, Date_parse. rewrite E.
  destruct ((1 <=? m) && (m <=? 12) && (1 <=? d) && (d <=? 31)) eqn:Eb; [|done].
  rewrite !andb_true_iff, !Z.leb_le in Eb. lia.
Qed.

(** The row kept for an input row, whatever it holds. *)
Lemma parse_lookup tz hp rawData i d :
  rawData !! i = Some d ->
  parseTemperatureData tz hp rawData !! i = Some (parseRow tz hp d).
Proof.
  intros H. rewrite parseTemperatureData_map, list_lookup_fmap. by rewrite H.
Qed.

(** The row of [badRows] is kept, with [NaN] calendar fields, a [NaN]
    minimum, and [0] for the empty maximum. *)
Lemma parse_counterexample :
  ~ skipsInvalidRows utc noOtherFormat badRows
  /\ ~ neverCoercesToZero utc noOtherFormat badRows
  /\ parseTemperatureData utc noOtherFormat badRows
     = [ {| date := None; maxTemperature := pos_zero; minTemperature := NaN;
            year := None; month := None; day := None |} ].
Proof.
  split_and!.
  - unfold skipsInvalidRows. vm_compute. discriminate.
  - intros H. destruct (H 0%nat (csvRow "2015-13-45" "" "abc")
                          (parseRow utc noOtherFormat (csvRow "2015-13-45" "" "abc"))
                          eq_refl eq_refl) as [H1 _].
    apply H1; [|by vm_compute]. intros [Hne _]. by apply Hne.
  - by vm_compute.
Qed.

(** C1, as amended. [parseTemperatureData] never fails and never skips a
    row: it returns one record for each row, in order. The record of a row
    whose date string is not a valid date has [NaN] for its date, year, month
    and day. A temperature field is converted as the unary [+] converts it:
    [NaN] for a text that has no digit and does not spell an infinity, except
    that an empty or blank field gives [0]. *)
Theorem parseTemperatureData_rows (LocalTZA : Z -> Z)
    (hostDateParse : jsstring -> option Z) (rawData : list Raw.row) :
  let parsedData := parseTemperatureData LocalTZA hostDateParse rawData in
  length parsedData = length rawData
  /\ forall i d, rawData !! i = Some d ->
       exists r, parsedData !! i = Some r
         /\ (JSDate.new_Date hostDateParse (Raw.date d) = None ->
             date r = None /\ year r = None /\ month r = None /\ day r = None)
         /\ converted (Raw.max_temperature d) (maxTemperature r)
         /\ converted (Raw.min_temperature d) (minTemperature r).
Proof.
  intros parsedData. split.
  { unfold parsedData. by rewrite parseTemperatureData_map, length_fmap. }
  intros i d Hd. exists (parseRow LocalTZA hostDateParse d).
  split; [by apply parse_lookup|]. split.
  { intros E. unfold parseRow. simpl. by rewrite E. }
  split; (split; [done|]); split;
    [apply StringToNumber_blank|apply StringToNumber_no_digit
    |apply StringToNumber_blank|apply StringToNumber_no_digit].
Qed.

(** C10. [parseTemperatureData] returns one record for each row, whatever the
    row holds; the record of a row whose date string is not a valid date has
    [NaN] for its date, year, month and day (so has every row with a month
    outside 01-12 or a day outside 01-31); and a record whose year is [NaN]
    fails both comparisons of [filterDataByYearRange] and is not among the
    records it keeps. *)
Theorem parseTemperatureData_total (LocalTZA : Z -> Z)
    (hostDateParse : jsstring -> option Z) (rawData : list Raw.row) :
  let parsedData := parseTemperatureData LocalTZA hostDateParse rawData in
  length parsedData = length rawData
  /\ (forall i d, rawData !! i = Some d ->
        exists r, parsedData !! i = Some r
          /\ (JSDate.new_Date hostDateParse (Raw.date d) = None ->
              date r = None /\ year r = None /\ month r = None /\ day r = None))
  /\ (forall s y m d, parseIsoDate s = IsoDate y m d ->
        ~ (1 <= m <= 12 /\ 1 <= d <= 31) ->
        JSDate.new_Date hostDateParse s = None)
  /\ (forall r, year r = None ->
        geZ (year r) CONFIG.yearRange.start = false
        /\ leZ (year r) CONFIG.yearRange.end_ = false
        /\ r ∉ fst (filterDataByYearRange parsedData)).
Proof.
  intros parsedData. split_and!.
  - unfold parsedData. by rewrite parseTemperatureData_map, length_fmap.
  - intros i d Hd. exists (parseRow LocalTZA hostDateParse d).
    split; [by apply parse_lookup|].
    intros E. unfold parseRow. simpl. by rewrite E.
  - intros s y m d. apply new_Date_illegal.
  - intros r Hr. rewrite Hr. split; [done|]. split; [done|].
    rewrite filteredData_eq, list_elem_of_filter.
    unfold inYearRange. rewrite Hr. tauto.
Qed.

(* ===================================================================== *)
(** * Rounding *)
(* ===================================================================== *)

Lemma digits2_size p : digits2_pos p = Pos.size p.
Proof. induction p; simpl; congruence. Qed.

Lemma digits2_bounds p :
  2 ^ (Z.pos (digits2_pos p) - 1) <= Z.pos p < 2 ^ Z.pos (digits2_pos p).
Proof.
  rewrite digits2_size. split.
  - pose proof (Pos.size_le p) as H.
    assert (Z.pos (2 ^ Pos.size p) <= Z.pos p~0) as H' by lia.
    rewrite Pos2Z.inj_pow in H'.
    replace (Z.pos (Pos.size p)) with (Z.succ (Z.pos (Pos.size p) - 1)) in H' by lia.
    rewrite Z.pow_succ_r in H' by lia. lia.
  - pose proof (Pos.size_gt p) as H.
    assert (Z.pos p < Z.pos (2 ^ Pos.size p)) as H' by lia.
    by rewrite Pos2Z.inj_pow in H'.
Qed.

Lemma digits2_unique p d :
  2 ^ (d - 1) <= Z.pos p < 2 ^ d -> Z.pos (digits2_pos p) = d.
Proof.
  intros [H1 H2]. pose proof (digits2_bounds p) as [H3 H4].
  assert (0 < d).
  { destruct (Z.lt_ge_cases 0 d); [done|].
    destruct (Z.eq_dec d 0) as [->|]; [simpl in H2; lia|].
    rewrite Z.pow_neg_r in H2 by lia. lia. }
  destruct (Z.lt_trichotomy (Z.pos (digits2_pos p)) d) as [Hlt|[->|Hgt]]; [|done|].
  - assert (2 ^ Z.pos (digits2_pos p) <= 2 ^ (d - 1)) by (apply Z.pow_le_mono_r; lia). lia.
  - assert (2 ^ d <= 2 ^ (Z.pos (digits2_pos p) - 1)) by (apply Z.pow_le_mono_r; lia). lia.
Qed.

Lemma shr_1_m r : 0 <= shr_m r -> shr_m (shr_1 r) = shr_m r / 2.
Proof.
  destruct r as [m rb sb]. simpl. intros Hm.
  destruct m as [|p|p]; [done| |lia].
  destruct p as [p|p|]; simpl.
  - rewrite Pos2Z.inj_xI. apply (Z.div_unique _ 2 _ 1); lia.
  - rewrite Pos2Z.inj_xO. apply (Z.div_unique _ 2 _ 0); lia.
  - done.
Qed.

Lemma iter_pos_nat {A} (f : A -> A) p x :
  SpecFloat.iter_pos f p x = Nat.iter (Pos.to_nat p) f x.
Proof.
  revert x. induction p as [p IH|p IH|]; intros x.
  - change (SpecFloat.iter_pos f p~1 x)
      with (SpecFloat.iter_pos f p (SpecFloat.iter_pos f p (f x))).
    rewrite !IH, Pos2Nat.inj_xI.
    replace (S (2 * Pos.to_nat p)) with (Pos.to_nat p + (Pos.to_nat p + 1))%nat by lia.
    rewrite !Nat.iter_add. done.
  - change (SpecFloat.iter_pos f p~0 x)
      with (SpecFloat.iter_pos f p (SpecFloat.iter_pos f p x)).
    rewrite !IH, Pos2Nat.inj_xO.
    replace (2 * Pos.to_nat p)%nat with (Pos.to_nat p + Pos.to_nat p)%nat by lia.
    rewrite !Nat.iter_add. done.
  - done.
Qed.

Lemma iter_shr_1_m n r :
  0 <= shr_m r -> shr_m (Nat.iter n shr_1 r) = shr_m r / 2 ^ Z.of_nat n.
Proof.
  intros Hm. induction n as [|n IH].
  - simpl. by rewrite Z.div_1_r.
  - rewrite Nat2Z.inj_succ, Z.pow_succ_r by lia. simpl.
    rewrite shr_1_m; rewrite IH; [|apply Z.div_pos; lia].
    rewrite Z.mul_comm, Z.div_div by lia. done.
Qed.

Lemma shr_m_pos r e p :
  0 <= shr_m r -> shr_m (shr r e (Z.pos p)).1 = shr_m r / 2 ^ Z.pos p.
Proof.
  intros H. unfold shr. simpl. rewrite iter_pos_nat, iter_shr_1_m by done.
  by rewrite positive_nat_Z.
Qed.

Lemma shr_record_of_loc_m m l : shr_m (shr_record_of_loc m l) = m.
Proof. by destruct l as [|[]]. Qed.

Lemma round_nearest_even_bounds m l :
  m <= round_nearest_even m l <= m + 1.
Proof.
  unfold round_nearest_even. destruct l as [|[]]; try lia.
  destruct (Z.even m); lia.
Qed.

Lemma shr_nonneg r e n : 0 <= shr_m r -> 0 <= shr_m (shr r e n).1.
Proof.
  intros H. destruct n as [|p|p]; simpl; [done| |done].
  rewrite iter_pos_nat, iter_shr_1_m by done. apply Z.div_pos; lia.
Qed.

Lemma binary_round_aux_sign s m e l :
  0 <= m ->
  match binary_round_aux prec emax s m e l with
  | S754_zero s' | S754_infinity s' | S754_finite s' _ _ => s' = s
  | S754_nan => False
  end.
Proof.
  intros Hm. unfold binary_round_aux.
  destruct (shr_fexp prec emax m e l) as [mrs' e'] eqn:E1.
  destruct (shr_fexp prec emax (round_nearest_even (shr_m mrs') (loc_of_shr_record mrs')) e' loc_Exact)
    as [mrs'' e''] eqn:E2.
  assert (0 <= shr_m mrs') as H1.
  { unfold shr_fexp in E1.
    pose proof (shr_nonneg (shr_record_of_loc m l) e
                  (fexp prec emax (Zdigits2 m + e) - e)) as H.
    rewrite E1 in H. apply H. by rewrite shr_record_of_loc_m. }
  assert (0 <= shr_m mrs'') as H2.
  { unfold shr_fexp in E2.
    match type of E2 with shr ?r ?e ?n = _ =>
      pose proof (shr_nonneg r e n) as H end.
    rewrite E2 in H. apply H. rewrite shr_record_of_loc_m.
    pose proof (round_nearest_even_bounds (shr_m mrs') (loc_of_shr_record mrs')). lia. }
  destruct (shr_m mrs'') as [|p|p]; [done| |lia].
  by destruct (_ <=? _).
Qed.

Lemma fexp_normal x : -1074 <= x - 53 -> fexp prec emax x = x - 53.
Proof. unfold fexp, SpecFloat.emin, prec, emax. lia. Qed.

(** Second shift of [binary_round_aux]: a mantissa of 53 bits stays, 2^53
    becomes 2^52 with the exponent one up. *)
Lemma shr_fexp_53 (m1 e' : Z) :
  2 ^ 52 <= m1 <= 2 ^ 53 -> -1074 <= e' ->
  2 ^ 52 <= shr_m (shr_fexp prec emax m1 e' loc_Exact).1 < 2 ^ 53
  /\ e' <= (shr_fexp prec emax m1 e' loc_Exact).2.
Proof.
  intros Hm He. unfold shr_fexp.
  destruct (Z.eq_dec m1 (2 ^ 53)) as [->|Hne].
  - change (Zdigits2 (2 ^ 53)) with 54. rewrite fexp_normal by lia.
    replace (54 + e' - 53 - e') with 1 by lia. simpl. lia.
  - destruct m1 as [|p|p]; [lia| |lia].
    assert (Zdigits2 (Z.pos p) = 53) as ->.
    { simpl. apply digits2_unique. lia. }
    rewrite fexp_normal by lia.
    replace (53 + e' - 53 - e') with 0 by lia. simpl. lia.
Qed.

(** Rounding a mantissa of [d > 53] bits, well above the subnormal range. *)
Lemma binary_round_aux_large (s : bool) (P : positive) (E d : Z) :
  Z.pos (digits2_pos P) = d -> 53 < d -> -1074 <= d + E - 53 ->
  match binary_round_aux prec emax s (Z.pos P) E loc_Exact with
  | S754_finite s' m'' e'' =>
      s' = s /\ d + E - 53 <= e'' /\ 2 ^ 52 <= Z.pos m'' < 2 ^ 53
  | S754_infinity s' => s' = s
  | _ => False
  end.
Proof.
  intros Hd Hlarge Hnormal. unfold binary_round_aux.
  pose proof (digits2_bounds P) as HP. rewrite Hd in HP.
  assert (shr_fexp prec emax (Z.pos P) E loc_Exact
          = shr (shr_record_of_loc (Z.pos P) loc_Exact) E (d - 53)) as E1.
  { unfold shr_fexp. simpl Zdigits2. rewrite Hd, fexp_normal by lia.
    f_equal. lia. }
  rewrite E1.
  destruct (d - 53) as [|n|n] eqn:En; [lia| |lia].
  set (r1 := (shr (shr_record_of_loc (Z.pos P) loc_Exact) E (Z.pos n))).
  assert (shr_m r1.1 = Z.pos P / 2 ^ Z.pos n) as Hq.
  { unfold r1. rewrite shr_m_pos by done. done. }
  assert (r1.2 = E + Z.pos n) as He1 by done.
  assert (2 ^ 52 <= shr_m r1.1 < 2 ^ 53) as Hqb.
  { rewrite Hq.
    assert (2 ^ (d - 1) = 2 ^ 52 * 2 ^ Z.pos n) as Hp1.
    { rewrite <- Z.pow_add_r by lia. f_equal. lia. }
    assert (2 ^ d = 2 ^ 53 * 2 ^ Z.pos n) as Hp2.
    { rewrite <- Z.pow_add_r by lia. f_equal. lia. }
    assert (0 < 2 ^ Z.pos n) by (apply Z.pow_pos_nonneg; lia).
    split.
    - apply Z.div_le_lower_bound; lia.
    - apply Z.div_lt_upper_bound; lia. }
  destruct r1 as [mrs' e'] eqn:Er1. simpl in Hq, He1, Hqb.
  pose proof (round_nearest_even_bounds (shr_m mrs') (loc_of_shr_record mrs')) as Hr.
  set (m1 := round_nearest_even (shr_m mrs') (loc_of_shr_record mrs')) in *.
  destruct (shr_fexp_53 m1 e') as [Hm2 He2]; [lia|lia|].
  destruct (shr_fexp prec emax m1 e' loc_Exact) as [mrs'' e''].
  simpl in Hm2, He2.
  destruct (shr_m mrs'') as [|m''|m'']; [lia| |lia].
  destruct (e'' <=? emax - prec); [|done].
  split; [done|]. split; [lia|done].
Qed.

(* ===================================================================== *)
(** * [createColorScale] *)
(* ===================================================================== *)

Lemma not_le_one_zero t : le (ofZ 1) t = true -> le t (ofZ 0) = false.
Proof.
  intros H. destruct (le t (ofZ 0)) eqn:E; [|done].
  pose proof (le_trans _ _ _ H E) as Hc. vm_compute in Hc. discriminate.
Qed.

(** [interpolateBasis] reads a parameter at or above 1 as 1, and one at or
    below 0 as 0. *)
Lemma interpolateBasis_above values t :
  le (ofZ 1) t = true ->
  Color.interpolateBasis values t = Color.interpolateBasis values (ofZ 1).
Proof.
  intros H. unfold Color.interpolateBasis.
  rewrite (not_le_one_zero t H), (not_le_one_zero (ofZ 1)) by (by vm_compute).
  assert (ge t (ofZ 1) = true) as -> by exact H.
  by assert (ge (ofZ 1) (ofZ 1) = true) as -> by (by vm_compute).
Qed.

Lemma interpolateBasis_below values t :
  le t (ofZ 0) = true ->
  Color.interpolateBasis values t = Color.interpolateBasis values (ofZ 0).
Proof.
  intros H. unfold Color.interpolateBasis.
  rewrite H. by assert (le (ofZ 0) (ofZ 0) = true) as -> by (by vm_compute).
Qed.

Lemma createColorScale_position x :
  isNaN x = false ->
  createColorScale x = Some (Color.interpolateYlOrRd (position x)).
Proof.
  intros Hx. unfold createColorScale, Color.scaleSequential. rewrite Hx.
  replace (SFeqb CONFIG.tempRange.min CONFIG.tempRange.max) with false
    by (by vm_compute).
  replace (SFeqb (div (ofZ 1) (sub CONFIG.tempRange.max CONFIG.tempRange.min))
                 (ofZ 0)) with false by (by vm_compute).
  done.
Qed.

Lemma tempRange_min_eq : CONFIG.tempRange.min = S754_zero false.
Proof. by vm_compute. Qed.

Lemma scale_factor_eq :
  div (ofZ 1) (sub CONFIG.tempRange.max CONFIG.tempRange.min)
  = S754_finite false 7205759403792794 (-58).
Proof. by vm_compute. Qed.

Lemma position_below x :
  le x (ofZ 0) = true -> le (position x) (ofZ 0) = true.
Proof.
  unfold position. rewrite scale_factor_eq, tempRange_min_eq.
  destruct x as [s|s| |s m e]; try discriminate.
  - destruct s; intros _; by vm_compute.
  - destruct s; [intros _; by vm_compute|discriminate].
  - destruct s; [intros _|discriminate].
    unfold sub, mul. simpl SFsub. unfold SFmul.
    pose proof (binary_round_aux_sign (xorb true false)
                  (Z.pos (m * 7205759403792794)) (e + -58) loc_Exact) as H.
    specialize (H ltac:(lia)).
    destruct (binary_round_aux _ _ _ _ _ _) as [s'|s'| |s' m' e'];
      [by subst s'..|done|by subst s'].
Qed.

Lemma position_above x :
  valid_binary prec emax x = true ->
  le (num "40") x = true -> le (ofZ 1) (position x) = true.
Proof.
  unfold position. rewrite scale_factor_eq, tempRange_min_eq.
  assert (num "40" = S754_finite false 5629499534213120 (-47)) as -> by (by vm_compute).
  assert (ofZ 1 = S754_finite false 4503599627370496 (-52)) as -> by (by vm_compute).
  destruct x as [s|s| |s m e]; try discriminate.
  { destruct s; [discriminate|]. intros _ _. by vm_compute. }
  intros Hv Hle. destruct s; [discriminate|].
  unfold sub, mul. simpl SFsub. unfold SFmul. simpl xorb.
  (* the mantissa of x has 53 bits, and x >= 40 *)
  apply le_rank in Hle; [|done..]. unfold rank_le in Hle. simpl in Hle.
  simpl in Hv. unfold bounded, canonical_mantissa in Hv.
  apply andb_true_iff in Hv as [Hc _]. apply Z.eqb_eq in Hc.
  assert (Z.pos (digits2_pos m) = 53) as Hdm.
  { unfold fexp, SpecFloat.emin, prec, emax in Hc. lia. }
  pose proof (digits2_bounds m) as Hm. rewrite Hdm in Hm.
  change (2 ^ (53 - 1)) with 4503599627370496 in Hm.
  change (2 ^ 53) with 9007199254740992 in Hm.
  set (P := (m * 7205759403792794)%positive).
  assert (Z.pos P = Z.pos m * 7205759403792794) as HP by done.
  assert (exists d, Z.pos (digits2_pos P) = d /\ 105 <= d <= 106
                    /\ -52 <= d + (e + -58) - 53) as (d & Hd & Hdb & Hexp).
  { destruct (Z.eq_dec e (-47)) as [->|Hne].
    - exists 106. split; [|lia]. apply digits2_unique. rewrite HP.
      change (2 ^ (106 - 1)) with 40564819207303340847894502572032.
      change (2 ^ 106) with 81129638414606681695789005144064. lia.
    - destruct (Z.lt_ge_cases (Z.pos P) (2 ^ 105)).
      + exists 105. split; [|lia]. apply digits2_unique. rewrite HP in *.
        change (2 ^ (105 - 1)) with 20282409603651670423947251286016.
        change (2 ^ 105) with 40564819207303340847894502572032 in *. lia.
      + exists 106. split; [|lia]. apply digits2_unique. rewrite HP in *.
        change (2 ^ (106 - 1)) with 40564819207303340847894502572032.
        change (2 ^ 105) with 40564819207303340847894502572032 in *.
        change (2 ^ 106) with 81129638414606681695789005144064. lia. }
  pose proof (binary_round_aux_large false P (e + -58) d Hd ltac:(lia) ltac:(lia)) as H.
  fold P.
  destruct (binary_round_aux prec emax false (Z.pos P) (e + -58) loc_Exact)
    as [s'|s'| |s' m' e']; try done.
  - subst s'. done.
  - destruct H as (-> & He' & Hm').
    apply le_rank; [done..|]. unfold rank_le. simpl.
    change (2 ^ 52) with 4503599627370496 in Hm'. lia.
Qed.

(** C8. Clamping. The scale of [createColorScale] (domain 0 to 40) gives the
    colour of 40, [rgb(128, 0, 38)], for 50 and for every Number at or above
    40, and the colour of 0, [rgb(255, 255, 204)], for every Number at or
    below 0: the scale hands the position [(x - 0) * (1 / (40 - 0))] on,
    not clamped, and the interpolator reads a position at or above 1 as 1 and
    one at or below 0 as 0. *)
Theorem createColorScale_clamps :
  createColorScale (num "40") = Some "rgb(128, 0, 38)"%string
  /\ createColorScale (num "50") = createColorScale (num "40")
  /\ createColorScale (num "0") = Some "rgb(255, 255, 204)"%string
  /\ (forall x, canonical x -> le (num "40") x = true ->
        createColorScale x = createColorScale (num "40"))
  /\ (forall x, le x (num "0") = true ->
        createColorScale x = createColorScale (num "0"))
  /\ (forall x, isNaN x = false ->
        createColorScale x = Some (Color.interpolateYlOrRd (position x))).
Proof.
  assert (forall t, le (ofZ 1) t = true ->
            Color.interpolateYlOrRd t = Color.interpolateYlOrRd (ofZ 1)) as Habove.
  { intros t H. unfold Color.interpolateYlOrRd, Color.interpolateRgbBasis.
    by rewrite !(interpolateBasis_above _ t H). }
  assert (forall t, le t (ofZ 0) = true ->
            Color.interpolateYlOrRd t = Color.interpolateYlOrRd (ofZ 0)) as Hbelow.
  { intros t H. unfold Color.interpolateYlOrRd, Color.interpolateRgbBasis.
    by rewrite !(interpolateBasis_below _ t H). }
  split_and!.
  - by vm_compute.
  - by vm_compute.
  - by vm_compute.
  - intros x Hc H. destruct (le_not_NaN _ _ H) as [_ Hx].
    rewrite createColorScale_position, Habove by (by try apply position_above).
    by vm_compute.
  - intros x H. destruct (le_not_NaN _ _ H) as [Hx _].
    rewrite createColorScale_position, Hbelow by (by try apply position_below).
    by vm_compute.
  - apply createColorScale_position.
Qed.

(* ===================================================================== *)
(** * Instances on the sample inputs *)
(* ===================================================================== *)

Lemma aggregateMonthlyData_sparse_witness :
  NoDup [Some 2015]
  /\ length (aggregateMonthlyData scenarioData [Some 2015])
     = length (filter (hasRecord scenarioData) (pairs [Some 2015])).
Proof.
  assert (NoDup [Some 2015]) as H by apply NoDup_singleton.
  split; [exact H|].
  apply (aggregateMonthlyData_sparse scenarioData [Some 2015] H).
Defined.

Lemma scenarioSummary_elem :
  scenarioSummary ∈ aggregateMonthlyData scenarioData [Some 2015].
Proof. vm_compute. left. Qed.

Lemma scenarioData_le r :
  r ∈ scenarioData -> le (minTemperature r) (maxTemperature r) = true.
Proof.
  intros Hr. vm_compute in Hr.
  repeat (apply elem_of_cons in Hr as [->|Hr]; [vm_compute; reflexivity|]).
  by apply elem_of_nil in Hr.
Qed.

Lemma extremes_spec_witness :
  (forall r, r ∈ scenarioData -> le (minTemperature r) (maxTemperature r) = true)
  /\ scenarioSummary ∈ aggregateMonthlyData scenarioData [Some 2015]
  /\ exists lo hi,
       Monthly.minTemp scenarioSummary = Some lo
       /\ Monthly.maxTemp scenarioSummary = Some hi
       /\ le lo hi = true.
Proof.
  split; [exact scenarioData_le|]. split; [exact scenarioSummary_elem|].
  destruct (extremes_spec scenarioData [Some 2015] scenarioSummary
              scenarioData_le scenarioSummary_elem)
    as (lo & hi & H1 & H2 & H3 & _).
  exists lo, hi. split; [exact H1|]. split; [exact H2|exact H3].
Defined.

Lemma dailyData_spec_witness :
  scenarioSummary ∈ aggregateMonthlyData scenarioData [Some 2015]
  /\ length (Monthly.dailyData scenarioSummary)
     = length (filter (fun r => year r = Monthly.year scenarioSummary
                                /\ month r = Some (Monthly.month scenarioSummary))
                      scenarioData).
Proof.
  split; [exact scenarioSummary_elem|].
  destruct (dailyData_spec scenarioData [Some 2015] scenarioSummary
              scenarioSummary_elem) as (_ & _ & H & _).
  exact H.
Defined.

(* ===================================================================== *)
(** * [aggregateMonthlyData] on a heap of arrays *)
(* ===================================================================== *)

Lemma pathGroup_snoc values d k1 k2 :
  pathGroup (values ++ [d]) k1 k2
  = pathGroup values k1 k2
    ++ if decide (year d = k1 /\ month d = k2) then [d] else [].
Proof.
  unfold pathGroup. rewrite filter_app, filter_cons, filter_nil.
  by destruct (decide _).
Qed.

Lemma group2_spec h0 values :
  grouped h0 values (Heap.group2 h0 values).1 (Heap.group2 h0 values).2.
Proof.
  unfold Heap.group2.
  induction values as [|d values IH] using rev_ind.
  { simpl. by split_and!. }
  rewrite foldl_snoc. destruct (foldl Heap.groupStep (h0, ∅) values) as [h g].
  simpl in IH. destruct IH as (Ha & Hb & Hc & Hd).
  unfold Heap.groupStep.
  pose proof (Ha (year d) (month d)) as Hd0.
  destruct (lookup2 g (year d) (month d)) as [l|] eqn:El; simpl.
  - destruct (pathGroup values (year d) (month d)) as [|r a] eqn:Ea; [done|].
    destruct Hd0 as (l' & [= <-] & Hl).
    destruct (Hb _ _ _ El) as [Hl0 Hl1].
    split_and!.
    + intros k1 k2. rewrite pathGroup_snoc.
      destruct (decide (year d = k1 /\ month d = k2)) as [[<- <-]|ne].
      * rewrite Ea. simpl. exists l. split; [done|].
        rewrite lookup_insert, decide_True by done.
        unfold Heap.read. by rewrite Hl.
      * rewrite app_nil_r. specialize (Ha k1 k2).
        destruct (pathGroup values k1 k2) as [|r' a']; [done|].
        destruct Ha as (l' & Hl' & Hr'). exists l'. split; [done|].
        rewrite lookup_insert, decide_False; [done|].
        intros <-. apply ne. by destruct (Hc _ _ _ _ _ El Hl').
    + intros k1 k2 l' Hl'. destruct (Hb _ _ _ Hl') as [? ?].
      split; [done|]. apply elem_of_dom. rewrite lookup_insert.
      destruct (decide (l = l')); [by eexists|by apply elem_of_dom].
    + done.
    + intros l' Hl'. rewrite lookup_insert, decide_False; [by apply Hd|].
      intros <-. done.
  - destruct (pathGroup values (year d) (month d)) as [|r a] eqn:Ea; cycle 1.
    { by destruct Hd0 as (l' & [=] & _). }
    set (l := fresh (dom h)).
    assert (l ∉ dom h) as Hfresh by apply is_fresh.
    assert (forall l', l' ∈ dom h0 -> l' ∈ dom h) as Hsub.
    { intros l' Hl'. apply elem_of_dom. rewrite Hd by done. by apply elem_of_dom. }
    split_and!.
    + intros k1 k2. rewrite pathGroup_snoc, lookup2_insert2.
      destruct (decide (year d = k1 /\ month d = k2)) as [[<- <-]|ne].
      * rewrite Ea. simpl. exists l. split; [done|]. by rewrite lookup_insert_eq.
      * rewrite app_nil_r. specialize (Ha k1 k2).
        destruct (pathGroup values k1 k2) as [|r' a']; [done|].
        destruct Ha as (l' & Hl' & Hr'). exists l'. split; [done|].
        rewrite lookup_insert, decide_False; [done|].
        intros <-. apply Hfresh. by apply (Hb _ _ _ Hl').
    + intros k1 k2 l'. rewrite lookup2_insert2.
      destruct (decide (year d = k1 /\ month d = k2)) as [_|_].
      * intros [= <-]. split; [by intros ?%Hsub|].
        apply elem_of_dom. rewrite lookup_insert_eq. by eexists.
      * intros Hl'. destruct (Hb _ _ _ Hl') as [? ?].
        split; [done|]. apply elem_of_dom. rewrite lookup_insert.
        destruct (decide (l = l')); [by eexists|by apply elem_of_dom].
    + intros k1 k2 k1' k2' l'. rewrite !lookup2_insert2.
      destruct (decide (year d = k1 /\ month d = k2)) as [[<- <-]|ne];
        destruct (decide (year d = k1' /\ month d = k2')) as [[<- <-]|ne'].
      * done.
      * intros [= <-] Hl'. exfalso. apply Hfresh. by apply (Hb _ _ _ Hl').
      * intros Hl' [= <-]. exfalso. apply Hfresh. by apply (Hb _ _ _ Hl').
      * apply Hc.
    + intros l' Hl'. rewrite lookup_insert, decide_False; [by apply Hd|].
      intros <-. by apply Hfresh, Hsub.
Qed.

Section Simulation.

Variable h0 : Heap.heap.

Variable g : Heap.refs.

Hypothesis g_new : forall k1 k2 l, lookup2 g k1 k2 = Some l -> l ∉ dom h0.

Hypothesis g_inj : forall k1 k2 k1' k2' l,
  lookup2 g k1 k2 = Some l -> lookup2 g k1' k2' = Some l -> k1 = k1' /\ k2 = k2'.

Lemma visitMonth_sim y st sh e :
  sim h0 g st sh -> sim h0 g (visitMonth y st e) (Heap.visitMonth g y sh e).
Proof.
  destruct st as [st out], sh as [h outH], e as [i name].
  intros (Hag & Hdom & Hfr & Hout & Hrefs). simpl in *.
  unfold visitMonth, Heap.visitMonth. rewrite (Hag y i).
  destruct (lookup2 g y (Some i)) as [l|] eqn:El; simpl; [|by split_and!].
  unfold Heap.read. destruct (h !! l) as [a|] eqn:Ea; simpl; [|by split_and!].
  destruct (0 <? length a)%nat; [|by split_and!].
  split_and!; simpl.
  - intros y' i'. rewrite get2_set2.
    destruct (decide (y = y' /\ i = i')) as [[<- <-]|ne].
    + rewrite El. simpl. by rewrite lookup_insert_eq.
    + rewrite (Hag y' i').
      destruct (lookup2 g y' (Some i')) as [l'|] eqn:El'; simpl; [|done].
      rewrite lookup_insert_ne; [done|].
      intros <-. apply ne. destruct (g_inj _ _ _ _ _ El El') as [-> [= ->]]. done.
  - intros k1 k2 l' Hl'. rewrite lookup_insert.
    destruct (decide (l = l')); [by eexists|]. by eapply Hdom.
  - intros l' Hl'. rewrite lookup_insert_ne; [by apply Hfr|].
    intros <-. by eapply g_new.
  - by rewrite fmap_app, Hout.
  - apply Forall_app. split; [done|]. by repeat constructor.
Qed.

Lemma visitYear_sim st sh y :
  sim h0 g st sh -> sim h0 g (visitYear st y) (Heap.visitYear g sh y).
Proof.
  unfold visitYear, Heap.visitYear. generalize (JSArray.entries MONTHS).
  intros l. revert st sh. induction l as [|e l IH]; intros st sh H; [done|].
  simpl. by apply IH, visitMonth_sim.
Qed.

Lemma loop_sim years st sh :
  sim h0 g st sh -> sim h0 g (foldl visitYear st years) (foldl (Heap.visitYear g) sh years).
Proof.
  revert st sh. induction years as [|y years IH]; intros st sh H; [done|].
  simpl. by apply IH, visitYear_sim.
Qed.

Lemma sim_result st sh :
  sim h0 g st sh -> Heap.result sh = map (resolve st.1) st.2.
Proof.
  destruct st as [st out], sh as [h outH].
  intros (Hag & Hdom & _ & Hout & Hrefs). simpl in *. subst out.
  unfold Heap.result. simpl. change (map ?f ?l) with (f <$> l).
  rewrite <- list_fmap_compose. apply Forall_fmap_ext.
  eapply Forall_impl; [exact Hrefs|]. intros [s l] Hl. simpl in *.
  unfold Heap.deref, resolve. simpl. f_equal.
  rewrite (Hag (Monthly.year s) (Monthly.month s)), Hl. simpl.
  unfold Heap.read. by destruct (Hdom _ _ _ Hl) as [a ->].
Qed.

End Simulation.

(** The heap version computes what [aggregateMonthlyData] computes from the
    contents of the caller's array, writes to no array that existed before
    the call, and returns entries whose arrays are new. *)
Lemma heap_refines (h : Heap.heap) (data_loc : Heap.loc)
    (data : list ParsedRecord) (years : list (option Z)) :
  h !! data_loc = Some data ->
  let r := Heap.aggregateMonthlyData h data_loc years in
  Heap.result r = aggregateMonthlyData data years
  /\ (forall l, l ∈ dom h -> r.1 !! l = h !! l)
  /\ Forall (fun e : Heap.entry => is_Some (r.1 !! e.2) /\ e.2 ∉ dom h) r.2.
Proof.
  intros Hdata r.
  assert (Heap.read h data_loc = data) as Hread.
  { unfold Heap.read. by rewrite Hdata. }
  subst r. unfold Heap.aggregateMonthlyData, aggregateMonthlyData.
  rewrite Hread.
  pose proof (group2_spec h data) as (Ha & Hb & Hc & Hd).
  destruct (Heap.group2 h data) as [h1 g]. simpl in *.
  assert (sim h g (d3.group2 data (fun d => year d) (fun d => month d), [])
              (h1, [])) as Hsim.
  { split_and!; simpl; try done.
    - intros y i. rewrite get2_group2, monthGroup_eq.
      specialize (Ha y (Some i)). unfold pathGroup in Ha.
      destruct (filter _ data) as [|r0 a]; [by rewrite Ha|].
      destruct Ha as (l & -> & Hl). done.
    - intros k1 k2 l Hl. apply elem_of_dom. by apply (Hb _ _ _ Hl). }
  assert (forall k1 k2 l, lookup2 g k1 k2 = Some l -> l ∉ dom h) as Hnew.
  { intros k1 k2 l Hl. by apply (Hb _ _ _ Hl). }
  pose proof (loop_sim h g Hnew Hc years _ _ Hsim) as Hloop.
  pose proof (sim_result h g _ _ Hloop) as Hres.
  destruct Hloop as (_ & Hdom & Hfr & _ & Hrefs).
  destruct (foldl visitYear _ years) as [st' out].
  destruct (foldl (Heap.visitYear g) _ years) as [h' outH].
  simpl in *. split; [done|]. split; [done|].
  eapply Forall_impl; [exact Hrefs|]. intros [s l] Hl. simpl in *.
  split; [by eapply Hdom|by eapply Hnew].
Qed.

(** C9. Determinism and idempotence. Two calls in a row on the same array
    and the same years, the second on the heap the first has left: both
    return what [aggregateMonthlyData] computes from the records of the
    array and the years alone; the entries of the first call still read the
    same after the second; and the array of the caller is as it was. *)
Theorem aggregateMonthlyData_idempotent (h : Heap.heap) (data_loc : Heap.loc)
    (data : list ParsedRecord) (years : list (option Z)) :
  h !! data_loc = Some data ->
  let r1 := Heap.aggregateMonthlyData h data_loc years in
  let r2 := Heap.aggregateMonthlyData r1.1 data_loc years in
  Heap.result r1 = aggregateMonthlyData data years
  /\ Heap.result r2 = Heap.result r1
  /\ Heap.deref r2.1 <$> r1.2 = Heap.result r1
  /\ r1.1 !! data_loc = Some data
  /\ r2.1 !! data_loc = Some data.
Proof.
  intros Hdata r1 r2.
  destruct (heap_refines h data_loc data years Hdata) as (E1 & F1 & N1).
  fold r1 in E1, F1, N1.
  assert (r1.1 !! data_loc = Some data) as Hdata1.
  { rewrite F1; [done|]. by apply elem_of_dom. }
  destruct (heap_refines r1.1 data_loc data years Hdata1) as (E2 & F2 & N2).
  fold r2 in E2, F2, N2.
  split_and!; [done|by rewrite E1, E2| |done|].
  - unfold Heap.result. apply Forall_fmap_ext.
    eapply Forall_impl; [exact N1|]. intros [s l] [Hl _]. simpl in *.
    unfold Heap.deref, Heap.read. simpl. f_equal.
    rewrite F2; [done|]. by apply elem_of_dom.
  - rewrite F2; [done|]. by apply elem_of_dom.
Qed.

Lemma aggregateMonthlyData_idempotent_witness :
  scenarioHeap !! 1%positive = Some scenarioData
  /\ Heap.result (Heap.aggregateMonthlyData
                    (Heap.aggregateMonthlyData scenarioHeap 1 [Some 2015]).1
                    1 [Some 2015])
     = Heap.result (Heap.aggregateMonthlyData scenarioHeap 1 [Some 2015]).
Proof.
  assert (scenarioHeap !! 1%positive = Some scenarioData) as H
    by apply lookup_singleton_eq.
  split; [exact H|].
  destruct (aggregateMonthlyData_idempotent scenarioHeap 1 scenarioData
              [Some 2015] H) as (_ & E & _).
  exact E.
Defined.

(* ===================================================================== *)
(** * The pipeline as a whole *)
(* ===================================================================== *)

(** The calendar fields of a parsed record: all [NaN], or a year, a month
    0-11 and a day 1-31. *)
Lemma parsed_calendar tz hp rawData r :
  r ∈ parseTemperatureData tz hp rawData ->
  (year r = None /\ month r = None /\ day r = None)
  \/ exists y m d, year r = Some y /\ month r = Some m /\ day r = Some d
                   /\ 0 <= m <= 11 /\ 1 <= d <= 31.
Proof.
  rewrite parseTemperatureData_map. intros (d & -> & _)%list_elem_of_fmap.
  unfold parseRow. simpl.
  destruct (JSDate.new_Date hp (Raw.date d)) as [t|]; simpl; [|by left].
  right. eexists _, _, _. split_and!; try done.
  - apply MonthFromTime_range.
  - apply MonthFromTime_range.
  - apply DateFromTime_range.
  - apply DateFromTime_range.
Qed.

(** On every host and for all rows, the hypotheses of the lemmas on
    [aggregateMonthlyData] hold in the pipeline: the years are distinct, each
    record kept has a listed year, a month 0-11 and a day; so each record kept
    is in the entry of its year and month, and the [dailyData] of each entry
    is in ascending order of day. *)
Corollary pipeline_entries tz hp rawData :
  let parsedData := parseTemperatureData tz hp rawData in
  let filteredData := fst (filterDataByYearRange parsedData) in
  let out := pipeline tz hp rawData in
  (forall r, r ∈ filteredData ->
     exists s, s ∈ out /\ Monthly.year s = year r
               /\ month r = Some (Monthly.month s)
               /\ r ∈ Monthly.dailyData s)
  /\ (forall s, s ∈ out -> StronglySorted day_le (Monthly.dailyData s)).
Proof.
  intros parsedData filteredData out.
  assert (out = aggregateMonthlyData filteredData
                  (snd (filterDataByYearRange parsedData))) as Hout.
  { unfold out, pipeline. fold parsedData. unfold filteredData.
    by destruct (filterDataByYearRange parsedData). }
  destruct (years_spec parsedData) as (ys & Hys & _ & Hnd & Hmem).
  fold filteredData in Hmem.
  assert (forall r, r ∈ filteredData -> r ∈ parsedData /\ inYearRange r) as Hfd.
  { intros r Hr. unfold filteredData in Hr.
    rewrite filteredData_eq, list_elem_of_filter in Hr. tauto. }
  assert (forall r, r ∈ filteredData ->
            exists y m d, year r = Some y /\ month r = Some m /\ day r = Some d
                          /\ 0 <= m <= 11) as Hcal.
  { intros r Hr. destruct (Hfd r Hr) as [Hp Hin].
    destruct (parsed_calendar _ _ _ _ Hp) as [(Hy & _)|(y & m & d & ? & ? & ? & ? & _)].
    - unfold inYearRange in Hin. by rewrite Hy in Hin.
    - by exists y, m, d. }
  split.
  - intros r Hr. destruct (Hcal r Hr) as (y & m & d & Hy & Hm & _ & Hrange).
    destruct (aggregateMonthlyData_covers filteredData
                (snd (filterDataByYearRange parsedData)) r m)
      as (s & Hs & Hk & Hd); try done.
    + rewrite Hys. by apply NoDup_fmap_2; [intros ?? [=]|].
    + rewrite Hys, Hy. apply list_elem_of_fmap. exists y. split; [done|].
      apply Hmem. by exists r.
    + exists s. rewrite Hout. injection Hk as Hk1 Hk2. by rewrite Hk2.
  - intros s Hs. rewrite Hout in Hs.
    apply elem_of_aggregateMonthlyData in Hs
      as (y & i & name & j & k & _ & _ & _ & ->).
    simpl. apply sortN_sorted.
    intros r (Hr & _)%elem_of_monthGroup.
    destruct (Hcal r Hr) as (? & ? & d & _ & _ & -> & _). by eexists.
Qed.

(* ===================================================================== *)
(** * [parseTemperatureData]: the calendar fields of a dated row *)
(* ===================================================================== *)

(** The calendar fields of a time value depend on its day number only. *)
Lemma calendar_by_day t t' :
  Day t = Day t' ->
  YearFromTime t = YearFromTime t' /\ MonthFromTime t = MonthFromTime t'
  /\ DateFromTime t = DateFromTime t'.
Proof.
  intros H.
  assert (YearFromTime t = YearFromTime t') as Hy
    by (unfold YearFromTime; by rewrite H).
  assert (DayWithinYear t = DayWithinYear t') as Hw
    by (unfold DayWithinYear; by rewrite H, Hy).
  assert (InLeapYear t = InLeapYear t') as Hl
    by (unfold InLeapYear; by rewrite Hy).
  assert (MonthFromTime t = MonthFromTime t') as Hm
    by (unfold MonthFromTime; by rewrite Hw, Hl).
  split_and!; [done|done|].
  unfold DateFromTime. by rewrite Hm, Hw, Hl.
Qed.

Lemma Day_MakeDate d : Day (MakeDate d) = d.
Proof. unfold Day, MakeDate. apply Z.div_mul. unfold msPerDay. lia. Qed.

(** The local day number at UTC midnight of day [d]: [d] at or east of UTC,
    [d - 1] west of it. *)
Lemma Day_east (d off : Z) :
  0 <= off < msPerDay -> Day (MakeDate d + off) = d.
Proof.
  intros H. unfold Day, MakeDate. unfold msPerDay in *.
  symmetry. apply (Z.div_unique _ _ _ off); lia.
Qed.

Lemma Day_west (d off : Z) :
  - msPerDay <= off < 0 -> Day (MakeDate d + off) = d - 1.
Proof.
  intros H. unfold Day, MakeDate. unfold msPerDay in *.
  symmetry. apply (Z.div_unique _ _ _ (off + 86400000)); lia.
Qed.

Lemma DaysInMonth_range y m : 28 <= DaysInMonth y m <= 31.
Proof.
  unfold DaysInMonth, InLeapYear_of.
  destruct (DaysInYear y =? 366); destruct m as [|[[[|[]|]|[[]|[]|]|]|[[|[]|]|[[]|[]|]|]|]|]; lia.
Qed.

(** The time value of a date-only string for a day of the calendar. *)
Lemma new_Date_valid hp s y m dt :
  parseIsoDate s = IsoDate y m dt ->
  1 <= m <= 12 -> 1 <= dt <= DaysInMonth y (m - 1) ->
  JSDate.new_Date hp s = Some (MakeDate (MakeDay y (m - 1) dt)).
Proof.
  intros E Hm Hd. unfold JSDate.new_Date, Date_parse. rewrite E.
  pose proof (DaysInMonth_range y (m - 1)).
  replace ((1 <=? m) && (m <=? 12) && (1 <=? dt) && (dt <=? 31)) with true
    by (symmetry; rewrite !andb_true_iff, !Z.leb_le; lia).
  by replace (dt <=? DaysInMonth y (m - 1)) with true
    by (symmetry; apply Z.leb_le; lia).
Qed.

(** The day before the first of a month is the last of the month before; the
    day before the first of January is the 31st of December. *)
Lemma MakeDay_pred y m :
  1 <= m <= 11 -> MakeDay y m 1 - 1 = MakeDay y (m - 1) (DaysInMonth y (m - 1)).
Proof.
  intros Hm. unfold MakeDay, DaysBeforeMonth, DaysInMonth.
  assert (m = 1 \/ m = 2 \/ m = 3 \/ m = 4 \/ m = 5 \/ m = 6 \/ m = 7
          \/ m = 8 \/ m = 9 \/ m = 10 \/ m = 11) as Hc by lia.
  repeat (destruct Hc as [->|Hc]; [simpl; lia|]). subst m. simpl. lia.
Qed.

Lemma MakeDay_pred_year y : MakeDay y 0 1 - 1 = MakeDay (y - 1) 11 31.
Proof.
  unfold MakeDay. pose proof (DayFromYear_succ (y - 1)) as H.
  replace (y - 1 + 1) with y in H by lia. rewrite H.
  unfold DaysBeforeMonth, InLeapYear_of.
  destruct (DaysInYear_cases (y - 1)) as [-> | ->]; simpl; lia.
Qed.

(** The fields of the record of a row, from the local day of its date. *)
Lemma parseRow_fields tz hp d t y m dt :
  JSDate.new_Date hp (Raw.date d) = Some t ->
  Day (LocalTime tz t) = MakeDay y m dt ->
  0 <= m <= 11 -> 1 <= dt <= DaysInMonth y m ->
  year (parseRow tz hp d) = Some y /\ month (parseRow tz hp d) = Some m
  /\ day (parseRow tz hp d) = Some dt.
Proof.
  intros E HD Hm Hd. unfold parseRow. simpl. rewrite E. simpl.
  destruct (calendar_by_day (LocalTime tz t) (MakeDate (MakeDay y m dt)))
    as (-> & -> & ->); [by rewrite Day_MakeDate|].
  destruct (MakeDay_roundtrip y m dt Hm Hd) as (-> & -> & ->). done.
Qed.

(** X1. On a host at or east of UTC (an offset from 0 to less than a day),
    the record of a row whose date is written [YYYY-MM-DD] (or [YYYY-MM], or
    [YYYY]) and names a day of the calendar has the year, the month (counted
    from 0) and the day written, and UTC midnight of that day as its
    [date]. *)
Theorem parseTemperatureData_calendar (LocalTZA : Z -> Z)
    (hostDateParse : jsstring -> option Z) (rawData : list Raw.row)
    (i : nat) (d : Raw.row) (y m dt : Z) :
  (forall t, 0 <= LocalTZA t < msPerDay) ->
  rawData !! i = Some d ->
  parseIsoDate (Raw.date d) = IsoDate y m dt ->
  1 <= m <= 12 -> 1 <= dt <= DaysInMonth y (m - 1) ->
  exists r,
    parseTemperatureData LocalTZA hostDateParse rawData !! i = Some r
    /\ date r = Some (MakeDate (MakeDay y (m - 1) dt))
    /\ year r = Some y /\ month r = Some (m - 1) /\ day r = Some dt.
Proof.
  intros Htz Hi E Hm Hd. exists (parseRow LocalTZA hostDateParse d).
  split; [by apply parse_lookup|].
  pose proof (new_Date_valid hostDateParse _ _ _ _ E Hm Hd) as Ht.
  split; [unfold parseRow; simpl; exact Ht|].
  apply (parseRow_fields _ _ _ _ _ _ _ Ht); [|lia|done].
  unfold LocalTime. apply Day_east, Htz.
Qed.

Lemma parseTemperatureData_calendar_witness :
  (forall t, 0 <= utc t < msPerDay)
  /\ [leapDayRow] !! 0%nat = Some leapDayRow
  /\ parseIsoDate (Raw.date leapDayRow) = IsoDate 2016 2 29
  /\ 1 <= 2 <= 12 /\ 1 <= 29 <= DaysInMonth 2016 (2 - 1)
  /\ exists r,
       parseTemperatureData utc noOtherFormat [leapDayRow] !! 0%nat = Some r
       /\ year r = Some 2016 /\ month r = Some (2 - 1) /\ day r = Some 29.
Proof.
  assert (forall t, 0 <= utc t < msPerDay) as H1 by (by vm_compute).
  assert ([leapDayRow] !! 0%nat = Some leapDayRow) as H2 by reflexivity.
  assert (parseIsoDate (Raw.date leapDayRow) = IsoDate 2016 2 29) as H3
    by (by vm_compute).
  assert (1 <= 2 <= 12) as H4 by lia.
  assert (1 <= 29 <= DaysInMonth 2016 (2 - 1)) as H5 by (by vm_compute).
  split; [exact H1|]. split; [exact H2|]. split; [exact H3|].
  split; [exact H4|]. split; [exact H5|].
  destruct (parseTemperatureData_calendar utc noOtherFormat [leapDayRow] 0
              leapDayRow 2016 2 29 H1 H2 H3 H4 H5) as (r & Hr & _ & H).
  exists r. split; [exact Hr|exact H].
Defined.

(** X2. On a host west of UTC (an offset below 0, a day at most), the record
    of such a row has the fields of the day before the one written: the day
    before in the same month; for a first of the month, the last day of the
    month before; for a first of January, the 31st of December of the year
    before. *)
Theorem parseTemperatureData_west_of_UTC (LocalTZA : Z -> Z)
    (hostDateParse : jsstring -> option Z) (rawData : list Raw.row)
    (i : nat) (d : Raw.row) (y m dt : Z) :
  (forall t, - msPerDay <= LocalTZA t < 0) ->
  rawData !! i = Some d ->
  parseIsoDate (Raw.date d) = IsoDate y m dt ->
  1 <= m <= 12 -> 1 <= dt <= DaysInMonth y (m - 1) ->
  exists r,
    parseTemperatureData LocalTZA hostDateParse rawData !! i = Some r
    /\ date r = Some (MakeDate (MakeDay y (m - 1) dt))
    /\ (2 <= dt ->
        year r = Some y /\ month r = Some (m - 1) /\ day r = Some (dt - 1))
    /\ (dt = 1 -> 2 <= m ->
        year r = Some y /\ month r = Some (m - 2)
        /\ day r = Some (DaysInMonth y (m - 2)))
    /\ (dt = 1 -> m = 1 ->
        year r = Some (y - 1) /\ month r = Some 11 /\ day r = Some 31).
Proof.
  intros Htz Hi E Hm Hd. exists (parseRow LocalTZA hostDateParse d).
  split; [by apply parse_lookup|].
  pose proof (new_Date_valid hostDateParse _ _ _ _ E Hm Hd) as Ht.
  split; [unfold parseRow; simpl; exact Ht|].
  assert (Day (LocalTime LocalTZA (MakeDate (MakeDay y (m - 1) dt)))
          = MakeDay y (m - 1) dt - 1) as HD.
  { unfold LocalTime. apply Day_west, Htz. }
  split_and!.
  - intros H2. apply (parseRow_fields _ _ _ _ _ _ _ Ht); [|lia|lia].
    rewrite HD. unfold MakeDay. lia.
  - intros -> H2. replace (m - 2) with (m - 1 - 1) by lia.
    pose proof (DaysInMonth_range y (m - 1 - 1)).
    apply (parseRow_fields _ _ _ _ _ _ _ Ht); [|lia|lia].
    rewrite HD. apply MakeDay_pred. lia.
  - intros -> ->. apply (parseRow_fields _ _ _ _ _ _ _ Ht); [|lia|by vm_compute].
    rewrite HD. apply MakeDay_pred_year.
Qed.

Lemma parseTemperatureData_west_of_UTC_witness :
  (forall t, - msPerDay <= west t < 0)
  /\ [newYearRow] !! 0%nat = Some newYearRow
  /\ parseIsoDate (Raw.date newYearRow) = IsoDate 2018 1 1
  /\ 1 <= 1 <= 12 /\ 1 <= 1 <= DaysInMonth 2018 (1 - 1)
  /\ exists r,
       parseTemperatureData west noOtherFormat [newYearRow] !! 0%nat = Some r
       /\ year r = Some (2018 - 1) /\ month r = Some 11 /\ day r = Some 31.
Proof.
  assert (forall t, - msPerDay <= west t < 0) as H1 by (by vm_compute).
  assert ([newYearRow] !! 0%nat = Some newYearRow) as H2 by reflexivity.
  assert (parseIsoDate (Raw.date newYearRow) = IsoDate 2018 1 1) as H3
    by (by vm_compute).
  assert (1 <= 1 <= 12) as H4 by lia.
  assert (1 <= 1 <= DaysInMonth 2018 (1 - 1)) as H5 by (by vm_compute).
  split; [exact H1|]. split; [exact H2|]. split; [exact H3|].
  split; [exact H4|]. split; [exact H5|].
  destruct (parseTemperatureData_west_of_UTC west noOtherFormat [newYearRow] 0
              newYearRow 2018 1 1 H1 H2 H3 H4 H5) as (r & Hr & _ & _ & _ & H).
  exists r. split; [exact Hr|]. by apply H.
Defined.

(* ===================================================================== *)
(** * The scenario of January 2015, host by host *)
(* ===================================================================== *)

Lemma ParsedRecord_eta (r : ParsedRecord) :
  r = {| date := date r; maxTemperature := maxTemperature r;
         minTemperature := minTemperature r;
         year := year r; month := month r; day := day r |}.
Proof. by destruct r. Qed.

(** The records of the two rows, from the local day numbers of their dates:
    the rows are dated at UTC midnight of the days 16450 and 16451, the 15th
    and the 16th of January 2015. *)
Lemma scenario_records (LocalTZA : Z -> Z) (hostDateParse : jsstring -> option Z)
    (d1 d2 : Z) :
  1 <= d1 <= 31 -> 1 <= d2 <= 31 ->
  Day (LocalTime LocalTZA (MakeDate (MakeDay 2015 0 15))) = MakeDay 2015 0 d1 ->
  Day (LocalTime LocalTZA (MakeDate (MakeDay 2015 0 16))) = MakeDay 2015 0 d2 ->
  parseTemperatureData LocalTZA hostDateParse scenarioRows = scenarioRecords d1 d2.
Proof.
  intros Hd1 Hd2 D1 D2.
  assert (JSDate.new_Date hostDateParse (Raw.date (csvRow "2015-01-15" "20.0" "10.0"))
          = Some (MakeDate (MakeDay 2015 0 15))) as E1
    by (by apply (new_Date_valid hostDateParse _ 2015 1 15)).
  assert (JSDate.new_Date hostDateParse (Raw.date (csvRow "2015-01-16" "22.0" "11.0"))
          = Some (MakeDate (MakeDay 2015 0 16))) as E2
    by (by apply (new_Date_valid hostDateParse _ 2015 1 16)).
  destruct (parseRow_fields LocalTZA hostDateParse _ _ 2015 0 d1 E1 D1)
    as (Y1 & M1 & T1); [lia|done|].
  destruct (parseRow_fields LocalTZA hostDateParse _ _ 2015 0 d2 E2 D2)
    as (Y2 & M2 & T2); [lia|done|].
  rewrite parseTemperatureData_map. unfold scenarioRows, scenarioRecords.
  rewrite !fmap_cons, fmap_nil.
  rewrite (ParsedRecord_eta (parseRow _ _ (csvRow "2015-01-15" "20.0" "10.0"))).
  rewrite (ParsedRecord_eta (parseRow _ _ (csvRow "2015-01-16" "22.0" "11.0"))).
  rewrite Y1, M1, T1, Y2, M2, T2.
  unfold parseRow. cbn [date maxTemperature minTemperature].
  rewrite E1, E2. reflexivity.
Qed.

(** The entry that the pipeline makes of the records. *)
Lemma scenario_entry (LocalTZA : Z -> Z) (hostDateParse : jsstring -> option Z)
    (d1 d2 : Z) :
  (d1 = 15 /\ d2 = 16) \/ (d1 = 14 /\ d2 = 15) ->
  parseTemperatureData LocalTZA hostDateParse scenarioRows = scenarioRecords d1 d2 ->
  pipeline LocalTZA hostDateParse scenarioRows = [scenarioEntry d1 d2].
Proof.
  intros Hd E. unfold pipeline. rewrite E.
  destruct Hd as [[-> ->]|[-> ->]]; by vm_compute.
Qed.

(** At or east of UTC the local days are the days written. *)
Lemma scenario_east (LocalTZA : Z -> Z) (hostDateParse : jsstring -> option Z) :
  (forall t, 0 <= LocalTZA t < msPerDay) ->
  pipeline LocalTZA hostDateParse scenarioRows = [scenarioEntry 15 16].
Proof.
  intros Htz. apply scenario_entry; [by left|].
  apply scenario_records; [lia|lia|unfold LocalTime; apply Day_east, Htz..].
Qed.

(** West of UTC the local days are the days before. *)
Lemma scenario_west (LocalTZA : Z -> Z) (hostDateParse : jsstring -> option Z) :
  (forall t, - msPerDay <= LocalTZA t < 0) ->
  pipeline LocalTZA hostDateParse scenarioRows = [scenarioEntry 14 15].
Proof.
  intros Htz. apply scenario_entry; [by right|].
  apply scenario_records; [lia|lia|..];
    unfold LocalTime; rewrite Day_west by apply Htz; unfold MakeDay; lia.
Qed.

(** C7. The scenario, on a host six hours west of UTC.
    The rows [("2015-01-15", 20.0, 10.0)] and [("2015-01-16", 22.0, 11.0)]
    give one entry, January 2015 with [maxTemp] 22, [minTemp] 10, [avgMax] 21
    and [avgMin] 10.5, but its daily records have the days 14 and 15, not 15
    and 16: [new Date] reads a date-only string as UTC midnight and
    [getDate] reads the local day. So it is on every host west of UTC; on a
    host at or east of UTC (UTC itself, for one) the entry is the entry of
    the specification, with the day-15 record followed by the day-16
    record. *)
Theorem scenario_west_of_UTC :
  pipeline west noOtherFormat scenarioRows = [scenarioEntry 14 15]
  /\ (fun r => day r) <$> Monthly.dailyData (scenarioEntry 14 15)
     = [Some 14; Some 15]
  /\ (fun r => day r) <$> Monthly.dailyData (scenarioEntry 15 16)
     = [Some 15; Some 16]
  /\ pipeline west noOtherFormat scenarioRows <> [scenarioEntry 15 16]
  /\ pipeline utc noOtherFormat scenarioRows = [scenarioEntry 15 16]
  /\ (forall LocalTZA hostDateParse,
        (forall t, - msPerDay <= LocalTZA t < 0) ->
        pipeline LocalTZA hostDateParse scenarioRows = [scenarioEntry 14 15])
  /\ (forall LocalTZA hostDateParse,
        (forall t, 0 <= LocalTZA t < msPerDay) ->
        pipeline LocalTZA hostDateParse scenarioRows = [scenarioEntry 15 16]).
Proof.
  assert (pipeline west noOtherFormat scenarioRows = [scenarioEntry 14 15]) as Hw.
  { apply scenario_west. intros t. unfold west, msPerDay. lia. }
  split_and!.
  - exact Hw.
  - reflexivity.
  - reflexivity.
  - rewrite Hw. intros E.
    apply (f_equal (fun l => (fun s => (fun r => day r) <$> Monthly.dailyData s) <$> l)) in E.
    discriminate E.
  - apply scenario_east. intros t. unfold utc, msPerDay. lia.
  - apply scenario_west.
  - apply scenario_east.
Qed.

(* ===================================================================== *)
(** * Checks over a range of integers *)
(* ===================================================================== *)

(** A decidable property of the integers from [lo], [n] of them, checked on
    each. *)
Lemma forall_seqZ (P : Z -> Prop) `{forall i, Decision (P i)} (lo n : Z) :
  bool_decide (Forall P (seqZ lo n)) = true ->
  forall i, lo <= i < lo + n -> P i.
Proof.
  intros Hb i Hi. apply bool_decide_eq_true_1 in Hb.
  rewrite Forall_forall in Hb. apply Hb, elem_of_seqZ. lia.
Qed.

(* ===================================================================== *)
(** * [filterDataByYearRange], again *)
(* ===================================================================== *)

Lemma List_filter_idemp {A} (f : A -> bool) (l : list A) :
  List.filter f (List.filter f l) = List.filter f l.
Proof.
  induction l as [|x l IH]; [done|]. simpl.
  destruct (f x) eqn:E; [|done]. simpl. by rewrite E, IH.
Qed.

(** X3. Filtering what [filterDataByYearRange] kept changes nothing: the
    same records and the same years come back; and the records kept are a
    sublist of the input, so their order is the order of the input. *)
Theorem filterDataByYearRange_idempotent (data : list ParsedRecord) :
  let '(filteredData, years) := filterDataByYearRange data in
  filterDataByYearRange filteredData = (filteredData, years)
  /\ filteredData `sublist_of` data.
Proof.
  unfold filterDataByYearRange. split.
  - by rewrite List_filter_idemp.
  - change (fst (filterDataByYearRange data) `sublist_of` data).
    rewrite filteredData_eq. apply sublist_filter.
Qed.

(** The years that [filterDataByYearRange] returns are numbers of the
    configured range, ten at most. *)
Lemma years_bounded (data : list ParsedRecord) :
  exists ys : list Z,
    snd (filterDataByYearRange data) = Some <$> ys
    /\ NoDup ys
    /\ (forall y, y ∈ ys -> 2008 <= y <= 2017)
    /\ (length ys <= 10)%nat.
Proof.
  destruct (years_spec data) as (ys & Hys & _ & Hnd & Hmem).
  assert (forall y, y ∈ ys -> 2008 <= y <= 2017) as Hr.
  { intros y (r & Hr & Hy)%Hmem.
    rewrite filteredData_eq, list_elem_of_filter in Hr. destruct Hr as [Hin _].
    unfold inYearRange in Hin. rewrite Hy in Hin.
    unfold CONFIG.yearRange.start, CONFIG.yearRange.end_ in Hin. lia. }
  exists ys. split_and!; [done..|].
  assert (ys ⊆+ seqZ 2008 10) as Hsub.
  { apply NoDup_submseteq; [done|]. intros y Hy. apply elem_of_seqZ.
    specialize (Hr y Hy). lia. }
  apply submseteq_length in Hsub. by rewrite length_seqZ in Hsub.
Qed.

Lemma length_pairs years : length (pairs years) = (12 * length years)%nat.
Proof.
  unfold pairs. induction years as [|y l IH]; [done|].
  rewrite bind_cons, length_app, IH, length_fmap. simpl. lia.
Qed.

(* ===================================================================== *)
(** * [calculateSVGDimensions] *)
(* ===================================================================== *)

(** The arithmetic of the layout is exact: for a count of years up to 1000
    the width is [90 * yearCount + 250] and the height is 760. *)
Lemma calculateSVGDimensions_exact (n : Z) :
  0 <= n <= 1000 ->
  SVG.width (calculateSVGDimensions (ofZ n)) = ofZ (90 * n + 250)
  /\ SVG.height (calculateSVGDimensions (ofZ n)) = ofZ 760.
Proof.
  intros Hn.
  apply (forall_seqZ
           (fun n => SVG.width (calculateSVGDimensions (ofZ n)) = ofZ (90 * n + 250)
                     /\ SVG.height (calculateSVGDimensions (ofZ n)) = ofZ 760)
           0 1001); [by vm_compute|lia].
Qed.

(* ===================================================================== *)
(** * [indexOf] *)
(* ===================================================================== *)

Lemma strictEq_Some x z : JSArray.strictEq x (Some z) = true <-> x = Some z.
Proof.
  destruct x as [w|]; simpl; [|done]. rewrite Z.eqb_eq. split; congruence.
Qed.

(** The index of an element of an array without duplicates is its place. *)
Lemma indexOf_from_lookup (l : list (option Z)) : forall s i z,
  NoDup l -> l !! i = Some (Some z) ->
  JSArray.indexOf_from s l (Some z) = s + Z.of_nat i.
Proof.
  induction l as [|x l IH]; intros s i z Hnd Hi; [done|].
  apply NoDup_cons in Hnd as [Hx Hnd]. simpl. destruct i as [|i]; simpl in Hi.
  - injection Hi as ->. rewrite (proj2 (strictEq_Some _ _) eq_refl). lia.
  - destruct (JSArray.strictEq x (Some z)) eqn:E.
    + apply strictEq_Some in E as ->. destruct Hx.
      by apply list_elem_of_lookup_2 in Hi.
    + rewrite (IH (s + 1) i z Hnd Hi). lia.
Qed.

Lemma indexOf_lookup (l : list (option Z)) i z :
  NoDup l -> l !! i = Some (Some z) -> JSArray.indexOf l (Some z) = Z.of_nat i.
Proof. intros. unfold JSArray.indexOf. by rewrite (indexOf_from_lookup l 0 i z). Qed.

(* ===================================================================== *)
(** * The arithmetic of the grid *)
(* ===================================================================== *)

(** An integer up to 1000 is read back from its Number. *)
Lemma floor_ofZ (n : Z) : 0 <= n <= 1000 -> Color.floor (ofZ n) = Some n.
Proof.
  intros Hn.
  apply (forall_seqZ (fun n => Color.floor (ofZ n) = Some n) 0 1001);
    [by vm_compute|lia].
Qed.

Lemma ofZ_inj (a b : Z) :
  0 <= a <= 1000 -> 0 <= b <= 1000 -> ofZ a = ofZ b -> a = b.
Proof.
  intros Ha Hb E. apply (f_equal Color.floor) in E.
  rewrite !floor_ofZ in E by done. congruence.
Qed.

(** Column [i] is at [90 * i], row [m] at [55 * m]. *)
Lemma column_exact (i : Z) :
  0 <= i <= 10 -> mul (ofZ i) CONFIG.cellWidth = ofZ (90 * i).
Proof.
  intros Hi.
  apply (forall_seqZ (fun i => mul (ofZ i) CONFIG.cellWidth = ofZ (90 * i)) 0 11);
    [by vm_compute|lia].
Qed.

Lemma row_exact (m : Z) :
  0 <= m <= 11 -> mul (ofZ m) CONFIG.cellHeight = ofZ (55 * m).
Proof.
  intros Hm.
  apply (forall_seqZ (fun m => mul (ofZ m) CONFIG.cellHeight = ofZ (55 * m)) 0 12);
    [by vm_compute|lia].
Qed.

Lemma legendX_exact (n : Z) :
  0 <= n <= 10 ->
  add (mul (ofZ n) CONFIG.cellWidth) CONFIG.legendX = ofZ (90 * n + 30).
Proof.
  intros Hn.
  apply (forall_seqZ (fun n => add (mul (ofZ n) CONFIG.cellWidth) CONFIG.legendX
                               = ofZ (90 * n + 30)) 0 11);
    [by vm_compute|lia].
Qed.

(* ===================================================================== *)
(** * The page *)
(* ===================================================================== *)

(** The parts of the page, from the records kept and their years. *)
Lemma main_eq tz hp rawData :
  let parsedData := parseTemperatureData tz hp rawData in
  let filteredData := fst (filterDataByYearRange parsedData) in
  let years := snd (filterDataByYearRange parsedData) in
  let monthlyData := aggregateMonthlyData filteredData years in
  let cells := renderCells monthlyData colorScale years true in
  main tz hp rawData
  = {| Page.years := years;
       Page.monthlyData := monthlyData;
       Page.dimensions := calculateSVGDimensions (length_of years);
       Page.yearLabels := renderYearLabels years;
       Page.monthLabels := renderMonthLabels;
       Page.cells := cells;
       Page.charts := renderDailyLineCharts cells;
       Page.legend := renderLegend colorScale (length_of years) |}.
Proof.
  unfold main. by destruct (filterDataByYearRange (parseTemperatureData tz hp rawData)).
Qed.

Lemma main_monthlyData tz hp rawData :
  Page.monthlyData (main tz hp rawData) = pipeline tz hp rawData.
Proof.
  rewrite main_eq. unfold pipeline. simpl.
  by destruct (filterDataByYearRange (parseTemperatureData tz hp rawData)).
Qed.

(** X6. Whatever the rows, the page has ten years at most, each a year of
    2008-2017, and twelve cells at most for each; its SVG is
    [90 * k + 250] wide for [k] years, 1150 at most, and 760 high; and the
    legend, 20 wide and 200 high, is placed at [90 * k + 30], 30 to the right
    of the last column. (The arithmetic is exact: the Numbers are these
    integers.) *)
Theorem main_dimensions (LocalTZA : Z -> Z)
    (hostDateParse : jsstring -> option Z) (rawData : list Raw.row) :
  let page := main LocalTZA hostDateParse rawData in
  let k := Z.of_nat (length (Page.years page)) in
  k <= 10
  /\ Forall (fun y => exists z, y = Some z /\ 2008 <= z <= 2017) (Page.years page)
  /\ (length (Page.cells page) <= 12 * length (Page.years page))%nat
  /\ SVG.width (Page.dimensions page) = ofZ (90 * k + 250)
  /\ SVG.height (Page.dimensions page) = ofZ 760
  /\ Legend.translate (Page.legend page) = (ofZ (90 * k + 30), ofZ 50)
  /\ Legend.width (Page.legend page) = ofZ 20
  /\ Legend.height (Page.legend page) = ofZ 200.
Proof.
  intros page k. unfold k, page. clear k page. rewrite main_eq.
  unfold renderLegend.
  cbn [Page.years Page.cells Page.dimensions Page.legend Legend.translate
       Legend.width Legend.height].
  set (parsedData := parseTemperatureData LocalTZA hostDateParse rawData).
  destruct (years_bounded parsedData) as (ys & Hys & Hnd & Hr & Hlen).
  rewrite Hys, length_fmap.
  assert (0 <= Z.of_nat (length ys) <= 10) as Hk by lia.
  split_and!.
  - lia.
  - apply Forall_fmap, Forall_forall. intros z Hz. exists z. split; [done|].
    by apply Hr.
  - unfold renderCells. rewrite length_map, <- Hys.
    rewrite <- (length_fmap summary_key), aggregateMonthlyData_keys.
    etrans; [apply length_filter|]. rewrite length_pairs, Hys, length_fmap. lia.
  - unfold length_of. rewrite length_fmap.
    apply calculateSVGDimensions_exact. lia.
  - unfold length_of. rewrite length_fmap.
    apply (calculateSVGDimensions_exact (Z.of_nat (length ys))). lia.
  - unfold length_of. rewrite length_fmap. by rewrite legendX_exact.
  - done.
  - done.
Qed.
(* ===================================================================== *)
(** * The cells and the labels of the page *)
(* ===================================================================== *)

Lemma entries_from_lookup {A} (l : list A) : forall s i x,
  l !! i = Some x -> (s + Z.of_nat i, x) ∈ JSArray.entries_from s l.
Proof.
  induction l as [|a l IH]; intros s i x Hi; [done|].
  destruct i as [|i]; simpl in Hi; simpl JSArray.entries_from.
  - injection Hi as ->. replace (s + Z.of_nat 0) with s by lia. by left.
  - right. replace (s + Z.of_nat (S i)) with (s + 1 + Z.of_nat i) by lia.
    by apply IH.
Qed.

Lemma entries_lookup {A} (l : list A) i x :
  l !! i = Some x -> (Z.of_nat i, x) ∈ JSArray.entries l.
Proof. apply (entries_from_lookup l 0). Qed.

Lemma entries_from_snd {A} (l : list A) s : snd <$> JSArray.entries_from s l = l.
Proof.
  revert s. induction l as [|a l IH]; intros s; [done|].
  simpl. f_equal. apply IH.
Qed.

(** An entry carries a listed year, and the name of its month index. *)
Lemma entry_name data years s :
  s ∈ aggregateMonthlyData data years ->
  Monthly.year s ∈ years
  /\ 0 <= Monthly.month s <= 11
  /\ (Monthly.month s, Monthly.monthName s) ∈ JSArray.entries MONTHS.
Proof.
  rewrite aggregateMonthlyData_emit. intros Hs.
  apply elem_of_emit in Hs as (v & j & Hv & _ & ->).
  destruct (elem_of_visits _ _ Hv) as [Hy Hi]. simpl.
  split_and!; [done|lia|lia|].
  unfold visits in Hv. apply list_elem_of_bind in Hv as (y & Hv & _).
  apply list_elem_of_fmap in Hv as (e & -> & He). simpl. by destruct e.
Qed.

(** The cell made for an entry. *)
Lemma renderCells_fmap monthlyData scale years shown :
  Cell.datum <$> renderCells monthlyData scale years shown = monthlyData.
Proof.
  unfold renderCells. induction monthlyData as [|d l IH]; [done|].
  simpl. f_equal. exact IH.
Qed.

(** The lengths of the rectangle of a cell. *)
Lemma rect_exact :
  sub CONFIG.cellWidth (mul (ofZ 2) CONFIG.cellPadding) = ofZ 86
  /\ sub CONFIG.cellHeight (mul (ofZ 2) CONFIG.cellPadding) = ofZ 51
  /\ CONFIG.cellPadding = ofZ 2.
Proof. by vm_compute. Qed.

(** The years of the page are distinct numbers. *)
Lemma years_NoDup data : NoDup (snd (filterDataByYearRange data)).
Proof.
  destruct (years_bounded data) as (ys & -> & Hnd & _).
  by apply NoDup_fmap_2; [intros ?? [=]|].
Qed.

(** The place of a cell in the grid: its year is at some index [i] of the
    years and its column at [90 * i]; its row is at 55 times its month. *)
Lemma cell_place data (c : Cell.group) scale shown :
  let years := snd (filterDataByYearRange data) in
  c ∈ renderCells (aggregateMonthlyData (fst (filterDataByYearRange data)) years)
        scale years shown ->
  exists (i : nat) (z : Z),
    years !! i = Some (Some z)
    /\ Monthly.year (Cell.datum c) = Some z
    /\ 0 <= Monthly.month (Cell.datum c) <= 11
    /\ (Monthly.month (Cell.datum c), Monthly.monthName (Cell.datum c))
       ∈ JSArray.entries MONTHS
    /\ Cell.translate c
       = (ofZ (90 * Z.of_nat i), ofZ (55 * Monthly.month (Cell.datum c)))
    /\ Cell.x c = ofZ 2 /\ Cell.y c = ofZ 2
    /\ Cell.width c = ofZ 86 /\ Cell.height c = ofZ 51.
Proof.
  intros years Hc. unfold renderCells in Hc.
  apply list_elem_of_fmap in Hc as (d & -> & Hd).
  destruct (entry_name _ _ _ Hd) as (Hy & Hm & Hname).
  apply list_elem_of_lookup_1 in Hy as [i Hi].
  destruct (years_bounded data) as (ys & Hys & _ & _ & Hlen).
  fold years in Hys.
  assert (exists z, Monthly.year d = Some z) as [z Hz].
  { apply list_elem_of_lookup_2 in Hi. rewrite Hys in Hi.
    apply list_elem_of_fmap in Hi as (z & -> & _). by exists z. }
  rewrite Hz in Hi.
  assert (i < length ys)%nat as Hlt.
  { apply lookup_lt_Some in Hi. by rewrite Hys, length_fmap in Hi. }
  exists i, z. cbn [Cell.datum Cell.translate Cell.x Cell.y Cell.width Cell.height].
  destruct rect_exact as (-> & -> & ->).
  rewrite Hz, (indexOf_lookup years i z (years_NoDup data) Hi).
  rewrite column_exact, row_exact by lia. done.
Qed.

(** X7. The cells of the page. There is one cell for each entry of
    [monthlyData], in order. The year of a cell is at some index [i] of the
    years of the page, and the cell is placed at [(90 * i, 55 * month)], with
    a rectangle 86 wide and 51 high at [(2, 2)] inside it: so the cells lie
    in the grid of [90 * k] by 660 for [k] years, and no two cells are placed
    at the same point. *)
Theorem main_cells (LocalTZA : Z -> Z) (hostDateParse : jsstring -> option Z)
    (rawData : list Raw.row) :
  let page := main LocalTZA hostDateParse rawData in
  Cell.datum <$> Page.cells page = Page.monthlyData page
  /\ (forall c, c ∈ Page.cells page ->
        exists (i : nat) (z : Z),
          Page.years page !! i = Some (Some z)
          /\ Monthly.year (Cell.datum c) = Some z
          /\ 0 <= Monthly.month (Cell.datum c) <= 11
          /\ Cell.translate c
             = (ofZ (90 * Z.of_nat i), ofZ (55 * Monthly.month (Cell.datum c)))
          /\ Cell.x c = ofZ 2 /\ Cell.y c = ofZ 2
          /\ Cell.width c = ofZ 86 /\ Cell.height c = ofZ 51)
  /\ NoDup (Cell.translate <$> Page.cells page).
Proof.
  intros page. unfold page. clear page. rewrite main_eq.
  cbn [Page.cells Page.monthlyData Page.years].
  set (data := parseTemperatureData LocalTZA hostDateParse rawData).
  split_and!.
  - apply renderCells_fmap.
  - intros c Hc. destruct (cell_place data c _ _ Hc)
      as (i & z & H1 & H2 & H3 & _ & H4). by exists i, z.
  - unfold renderCells. rewrite <- list_fmap_compose.
    rewrite (list_fmap_ext _
               ((fun k : option Z * Z =>
                   (mul (ofZ (JSArray.indexOf (snd (filterDataByYearRange data)) k.1))
                        CONFIG.cellWidth,
                    mul (ofZ k.2) CONFIG.cellHeight)) ∘ summary_key) _)
      by done.
    rewrite list_fmap_compose, aggregateMonthlyData_keys.
    pose proof (years_NoDup data) as Hnd.
    destruct (years_bounded data) as (ys & Hys & _ & _ & Hlen).
    assert (forall k : option Z * Z, k ∈ pairs (snd (filterDataByYearRange data)) ->
              exists (i : nat) z,
                snd (filterDataByYearRange data) !! i = Some (Some z)
                /\ k.1 = Some z /\ (i < 10)%nat /\ 0 <= k.2 <= 11
                /\ JSArray.indexOf (snd (filterDataByYearRange data)) k.1
                   = Z.of_nat i) as Hk.
    { intros [y m] (Hy & Hm)%elem_of_pairs.
      apply list_elem_of_lookup_1 in Hy as [i Hi].
      assert (exists z, y = Some z) as [z ->].
      { apply list_elem_of_lookup_2 in Hi. rewrite Hys in Hi.
        apply list_elem_of_fmap in Hi as (z & -> & _). by exists z. }
      exists i, z. apply lookup_lt_Some in Hi as Hl.
      rewrite Hys, length_fmap in Hl. simpl.
      split_and!; [done|done|lia|lia|lia|by apply indexOf_lookup]. }
    apply NoDup_fmap_2_strong; [|by apply NoDup_filter, NoDup_pairs].
    intros k1 k2 [_ H1]%list_elem_of_filter [_ H2]%list_elem_of_filter E.
    destruct (Hk k1 H1) as (i1 & z1 & Hi1 & Hy1 & Hl1 & Hm1 & Hx1).
    destruct (Hk k2 H2) as (i2 & z2 & Hi2 & Hy2 & Hl2 & Hm2 & Hx2).
    rewrite Hx1, Hx2 in E. rewrite !column_exact, !row_exact in E by lia.
    injection E as Ex Ey.
    apply ofZ_inj in Ex; [|lia..]. apply ofZ_inj in Ey; [|lia..].
    assert (i1 = i2) as -> by lia.
    destruct k1 as [y1 m1], k2 as [y2 m2]. simpl in *.
    rewrite Hy1, Hy2. f_equal; [congruence|lia].
Qed.

(** The centre of column [i] and of row [m], as the labels and as the
    rectangles give them. *)
Lemma column_centre (i : Z) :
  0 <= i <= 10 ->
  add (mul (ofZ i) CONFIG.cellWidth) (div CONFIG.cellWidth (ofZ 2))
  = add (add (ofZ (90 * i)) (ofZ 2)) (div (ofZ 86) (ofZ 2)).
Proof.
  intros Hi.
  apply (forall_seqZ
           (fun i => add (mul (ofZ i) CONFIG.cellWidth) (div CONFIG.cellWidth (ofZ 2))
                     = add (add (ofZ (90 * i)) (ofZ 2)) (div (ofZ 86) (ofZ 2)))
           0 11); [by vm_compute|lia].
Qed.

Lemma row_centre (m : Z) :
  0 <= m <= 11 ->
  add (mul (ofZ m) CONFIG.cellHeight) (div CONFIG.cellHeight (ofZ 2))
  = add (add (ofZ (55 * m)) (ofZ 2)) (div (ofZ 51) (ofZ 2)).
Proof.
  intros Hm.
  apply (forall_seqZ
           (fun m => add (mul (ofZ m) CONFIG.cellHeight) (div CONFIG.cellHeight (ofZ 2))
                     = add (add (ofZ (55 * m)) (ofZ 2)) (div (ofZ 51) (ofZ 2)))
           0 12); [by vm_compute|lia].
Qed.

(** X8. The labels of the page. There is one label for each year, in the
    order of the years, and one for each month name. For every cell, the
    label of its year is centred on its rectangle horizontally
    ([x = translate.x + rect.x + rect.width / 2]) and the label of its
    month name is centred on it vertically
    ([y = translate.y + rect.y + rect.height / 2]). And no column is empty:
    every year of the page has a cell. *)
Theorem main_labels (LocalTZA : Z -> Z) (hostDateParse : jsstring -> option Z)
    (rawData : list Raw.row) :
  let page := main LocalTZA hostDateParse rawData in
  Text.text <$> Page.yearLabels page = Page.years page
  /\ Text.text <$> Page.monthLabels page = MONTHS
  /\ (forall c, c ∈ Page.cells page ->
       exists ly lm,
         ly ∈ Page.yearLabels page
         /\ Text.text ly = Monthly.year (Cell.datum c)
         /\ Text.x ly = add (add (Cell.translate c).1 (Cell.x c))
                            (div (Cell.width c) (ofZ 2))
         /\ lm ∈ Page.monthLabels page
         /\ Text.text lm = Monthly.monthName (Cell.datum c)
         /\ Text.y lm = add (add (Cell.translate c).2 (Cell.y c))
                            (div (Cell.height c) (ofZ 2)))
  /\ forall y, y ∈ Page.years page ->
       exists c, c ∈ Page.cells page /\ Monthly.year (Cell.datum c) = y.
Proof.
  intros page. unfold page. clear page.
  pose proof (main_monthlyData LocalTZA hostDateParse rawData) as Hmd.
  rewrite main_eq in Hmd. rewrite main_eq.
  cbn [Page.cells Page.yearLabels Page.monthLabels Page.years Page.monthlyData]
    in *.
  set (data := parseTemperatureData LocalTZA hostDateParse rawData) in *.
  split_and!; [| | |intros y Hy].
  - unfold renderYearLabels. rewrite <- list_fmap_compose.
    rewrite <- (entries_from_snd (snd (filterDataByYearRange data)) 0) at 2.
    apply list_fmap_ext. by intros _ [i d] _.
  - by vm_compute.
  - intros c Hc.
    destruct (cell_place data c _ _ Hc)
      as (i & z & Hi & Hz & Hm & Hname & Ht & Hx & Hy & Hw & Hh).
    destruct (years_bounded data) as (ys & Hys & _ & _ & Hlen).
    apply lookup_lt_Some in Hi as Hl. rewrite Hys, length_fmap in Hl.
    eexists _, _. split_and!.
    + unfold renderYearLabels. apply list_elem_of_fmap.
      exists (Z.of_nat i, Some z). split; [reflexivity|].
      by apply entries_lookup.
    + by rewrite Hz.
    + rewrite Ht, Hx, Hw. simpl. apply column_centre. lia.
    + unfold renderMonthLabels. apply list_elem_of_fmap.
      eexists. split; [reflexivity|exact Hname].
    + done.
    + rewrite Ht, Hy, Hh. simpl. by apply row_centre.
  - destruct (years_spec data) as (ys & Hys & _ & _ & Hmem).
    rewrite Hys in Hy. apply list_elem_of_fmap in Hy as (z & -> & Hz).
    apply Hmem in Hz as (r & Hr & Hyr).
    destruct (pipeline_entries LocalTZA hostDateParse rawData) as [Hcov _].
    destruct (Hcov r Hr) as (s & Hs & Hsy & _).
    rewrite <- Hmd in Hs. unfold renderCells.
    eexists. split; [apply list_elem_of_fmap; by exists s|].
    cbn [Cell.datum]. by rewrite Hsy.
Qed.

(* ===================================================================== *)
(** * The line charts *)
(* ===================================================================== *)

(** The records of an entry of the pipeline: one at least, each with a day
    1-31, in ascending order of day. *)
Lemma pipeline_daily tz hp rawData s :
  s ∈ pipeline tz hp rawData ->
  Monthly.dailyData s <> []
  /\ (forall r, r ∈ Monthly.dailyData s -> exists dd, day r = Some dd /\ 1 <= dd <= 31)
  /\ StronglySorted day_le (Monthly.dailyData s).
Proof.
  intros Hs. split_and!; [| |by apply (pipeline_entries tz hp rawData)].
  - unfold pipeline in Hs.
    destruct (filterDataByYearRange (parseTemperatureData tz hp rawData))
      as [filteredData years].
    apply elem_of_aggregateMonthlyData in Hs
      as (y & i & name & j & k & _ & _ & Hne & ->).
    unfold summaryAt. cbn [Monthly.dailyData]. intros E.
    apply (f_equal length) in E.
    rewrite sortN_length in E. by destruct (monthGroup filteredData y i).
  - intros r Hr. unfold pipeline in Hs.
    pose proof (filteredData_eq (parseTemperatureData tz hp rawData)) as Hf.
    destruct (filterDataByYearRange (parseTemperatureData tz hp rawData))
      as [filteredData years]. simpl in Hf.
    apply elem_of_aggregateMonthlyData in Hs
      as (y & i & name & j & k & _ & _ & _ & ->).
    unfold summaryAt in Hr. cbn [Monthly.dailyData] in Hr.
    rewrite sortN_perm in Hr.
    apply elem_of_monthGroup in Hr as (Hr & _).
    rewrite Hf, list_elem_of_filter in Hr. destruct Hr as [Hin Hr].
    destruct (parsed_calendar _ _ _ _ Hr)
      as [(Hy & _)|(? & ? & dd & _ & _ & Hd & _ & Hdd)].
    + unfold inYearRange in Hin. by rewrite Hy in Hin.
    + by exists dd.
Qed.

Lemma StronglySorted_fmap_in {A B} (R1 : A -> A -> Prop) (R2 : B -> B -> Prop)
    (f : A -> B) (l : list A) :
  (forall a b, a ∈ l -> b ∈ l -> R1 a b -> R2 (f a) (f b)) ->
  StronglySorted R1 l -> StronglySorted R2 (f <$> l).
Proof.
  intros Hf Hs. induction Hs as [|x l Hs IH Hx]; [constructor|].
  rewrite fmap_cons. constructor.
  - apply IH. intros a b Ha Hb. apply Hf; by right.
  - apply Forall_fmap, Forall_forall. intros z Hz.
    rewrite Forall_forall in Hx. apply Hf; [by left|by right|by apply Hx].
Qed.

(** [xScale] on the days of a month: from 6 at day 1 to 80 at day 31, inside
    the rectangle of a cell (from 2 to 2 + 86). *)
Lemma xScale_day (a : Z) :
  1 <= a <= 31 ->
  exists v, xScale (ofZ a) = Some v
            /\ le (ofZ 6) v = true /\ le v (ofZ 80) = true
            /\ le (ofZ 2) v = true /\ le v (add (ofZ 2) (ofZ 86)) = true.
Proof.
  intros Ha.
  assert (default false
            ((fun v => le (ofZ 6) v && le v (ofZ 80)
                       && le (ofZ 2) v && le v (add (ofZ 2) (ofZ 86)))
             <$> xScale (ofZ a)) = true) as H.
  { apply (forall_seqZ
             (fun a => default false
                ((fun v => le (ofZ 6) v && le v (ofZ 80)
                           && le (ofZ 2) v && le v (add (ofZ 2) (ofZ 86)))
                 <$> xScale (ofZ a)) = true)
             1 31); [by vm_compute|lia]. }
  destruct (xScale (ofZ a)) as [v|]; [|done]. simpl in H.
  rewrite !andb_true_iff in H. exists v. tauto.
Qed.

(** [xScale] ascends with the day. *)
Lemma xScale_mono (a b : Z) :
  1 <= a <= 31 -> 1 <= b <= 31 -> a <= b ->
  le (default NaN (xScale (ofZ a))) (default NaN (xScale (ofZ b))) = true.
Proof.
  intros Ha Hb Hab.
  assert (Forall (fun b => a <= b ->
                    le (default NaN (xScale (ofZ a)))
                       (default NaN (xScale (ofZ b))) = true)
                 (seqZ 1 31)) as H.
  { apply (forall_seqZ
             (fun a => Forall (fun b => a <= b ->
                          le (default NaN (xScale (ofZ a)))
                             (default NaN (xScale (ofZ b))) = true)
                        (seqZ 1 31))
             1 31); [by vm_compute|lia]. }
  rewrite Forall_forall in H. apply H; [|done]. apply elem_of_seqZ. lia.
Qed.

(** X9. The line charts of the page. Every cell has its two lines (no cell
    is skipped), each with one point for each daily record of the cell, the
    two with the same abscissas. The abscissas lie between 6 and 80, inside
    the rectangle of the cell ([rect.x] to [rect.x + rect.width]), and ascend
    along the line. *)
Theorem main_charts (LocalTZA : Z -> Z) (hostDateParse : jsstring -> option Z)
    (rawData : list Raw.row) :
  let page := main LocalTZA hostDateParse rawData in
  length (Page.charts page) = length (Page.cells page)
  /\ forall i c, Page.cells page !! i = Some c ->
       exists paths,
         Page.charts page !! i = Some (Some paths)
         /\ length (Chart.max_line paths) = length (Monthly.dailyData (Cell.datum c))
         /\ length (Chart.min_line paths) = length (Monthly.dailyData (Cell.datum c))
         /\ fst <$> Chart.max_line paths = fst <$> Chart.min_line paths
         /\ Forall (fun p : number * number =>
                      le (ofZ 6) p.1 = true /\ le p.1 (ofZ 80) = true
                      /\ le (Cell.x c) p.1 = true
                      /\ le p.1 (add (Cell.x c) (Cell.width c)) = true)
                   (Chart.max_line paths)
         /\ StronglySorted (fun p q : number * number => le p.1 q.1 = true)
                           (Chart.max_line paths).
Proof.
  intros page. unfold page. clear page. rewrite main_eq.
  cbn [Page.cells Page.charts].
  set (data := parseTemperatureData LocalTZA hostDateParse rawData).
  set (cells := renderCells _ _ _ _).
  split; [unfold renderDailyLineCharts; by rewrite length_map|].
  intros i c Hi.
  assert (c ∈ cells) as Hc by (by apply list_elem_of_lookup_2 in Hi).
  destruct (cell_place data c colorScale true Hc)
    as (_ & _ & _ & _ & _ & _ & _ & Hx & _ & Hw & _).
  assert (Cell.datum c ∈ pipeline LocalTZA hostDateParse rawData) as Hd.
  { rewrite <- main_monthlyData, main_eq. cbn [Page.monthlyData]. fold data.
    rewrite <- (renderCells_fmap _ colorScale (snd (filterDataByYearRange data)) true).
    apply list_elem_of_fmap. by exists c. }
  destruct (pipeline_daily _ _ _ _ Hd) as (Hne & Hday & Hsorted).
  set (dailyData := Monthly.dailyData (Cell.datum c)) in *.
  exists {| Chart.max_line :=
              linePoints (fun datum => xScale (toNumber (day datum)))
                         (fun datum => yScale (maxTemperature datum)) dailyData;
            Chart.min_line :=
              linePoints (fun datum => xScale (toNumber (day datum)))
                         (fun datum => yScale (minTemperature datum)) dailyData |}.
  split.
  { unfold renderDailyLineCharts.
    change (map ?f cells) with (f <$> cells). rewrite list_lookup_fmap, Hi.
    simpl. fold dailyData.
    by destruct dailyData. }
  cbn [Chart.max_line Chart.min_line]. unfold linePoints.
  split_and!.
  - apply length_map.
  - apply length_map.
  - change (map ?f dailyData) with (f <$> dailyData).
    rewrite <- !list_fmap_compose. by apply list_fmap_ext.
  - change (map ?f dailyData) with (f <$> dailyData).
    apply Forall_fmap, Forall_forall. intros r Hr.
    destruct (Hday r Hr) as (dd & Hdd & Hrange). simpl. rewrite Hdd. simpl.
    destruct (xScale_day dd Hrange) as (v & -> & H1 & H2 & H3 & H4).
    simpl. by rewrite Hx, Hw.
  - change (map ?f dailyData) with (f <$> dailyData).
    apply (StronglySorted_fmap_in day_le); [|done].
    intros a b Ha Hb Hab. simpl.
    destruct (Hday a Ha) as (da & Hda & Hra).
    destruct (Hday b Hb) as (db & Hdb & Hrb).
    unfold day_le in Hab. rewrite Hda, Hdb in *. simpl.
    by apply xScale_mono.
Qed.

(* ===================================================================== *)
(** * Sums and quotients that are not [NaN] *)
(* ===================================================================== *)

Lemma binary_round_not_NaN s m e : isNaN (binary_round prec emax s m e) = false.
Proof.
  unfold binary_round. destruct (shl_align _ _ _) as [mz ez].
  pose proof (binary_round_aux_sign s (Z.pos mz) ez loc_Exact ltac:(lia)) as H.
  by destruct (binary_round_aux _ _ _ _ _ _).
Qed.

Lemma binary_normalize_not_NaN m e sz :
  isNaN (binary_normalize prec emax m e sz) = false.
Proof. destruct m; [done|apply binary_round_not_NaN..]. Qed.

(** Adding a Number that is neither [NaN] nor infinite to one that is not
    [NaN] does not give [NaN]. *)
Lemma add_not_NaN x y :
  isNaN x = false -> isNaN y = false -> infinite y = false ->
  isNaN (add x y) = false.
Proof.
  intros Hx Hy Hi. unfold add.
  destruct x as [sx|sx| |sx mx ex], y as [sy|sy| |sy my ey]; try done.
  - by destruct sx, sy.
  - apply binary_normalize_not_NaN.
Qed.

(** Dividing a Number that is not [NaN] by a positive finite one does not
    give [NaN]. *)
Lemma div_not_NaN x m e :
  isNaN x = false -> isNaN (div x (S754_finite false m e)) = false.
Proof.
  intros Hx. unfold div.
  destruct x as [sx|sx| |sx mx ex]; try done.
  unfold SFdiv.
  destruct (SFdiv_core_binary prec emax (Z.pos mx) ex (Z.pos m) e)
    as [[mz ez] lz] eqn:E.
  assert (0 <= mz) as Hmz.
  { unfold SFdiv_core_binary in E.
    set (s := _ - _ - _) in E.
    set (m' := match s with Z.pos _ => _ | Z0 => _ | Z.neg _ => _ end) in E.
    assert (0 <= m') as Hm'.
    { unfold m'. destruct s; [lia| |lia]. apply Z.shiftl_nonneg. lia. }
    pose proof (Z_div_mod m' (Z.pos m) ltac:(lia)) as Hdm.
    destruct (Z.div_eucl m' (Z.pos m)) as [q r]. injection E as <- _ _.
    nia. }
  pose proof (binary_round_aux_sign (xorb sx false) mz ez lz Hmz) as H.
  by destruct (binary_round_aux _ _ _ _ _ _).
Qed.

(** A mantissa of 53 bits with an exponent in range is kept as it is. *)
Lemma binary_round_aux_exact s (m : positive) e :
  Z.pos (digits2_pos m) = 53 -> -1074 <= e <= 971 ->
  binary_round_aux prec emax s (Z.pos m) e loc_Exact = S754_finite s m e.
Proof.
  intros Hd He. unfold binary_round_aux.
  assert (shr_fexp prec emax (Z.pos m) e loc_Exact
          = (shr_record_of_loc (Z.pos m) loc_Exact, e)) as E.
  { unfold shr_fexp. simpl Zdigits2. rewrite Hd, fexp_normal by lia.
    replace (53 + e - 53 - e) with 0 by lia. done. }
  rewrite E. simpl. rewrite E. simpl.
  by replace (e <=? emax - prec) with true
    by (symmetry; apply Z.leb_le; unfold emax, prec; lia).
Qed.

(** The Number of a positive integer below 2^53 is finite. *)
Lemma ofZ_finite (p : positive) :
  Z.pos p < 2 ^ 53 -> exists m e, ofZ (Z.pos p) = S754_finite false m e.
Proof.
  intros Hp. unfold ofZ, binary_normalize, binary_round.
  pose proof (digits2_bounds p) as Hb.
  set (d := Z.pos (digits2_pos p)) in *.
  assert (1 <= d <= 53) as Hd.
  { split; [unfold d; lia|].
    destruct (Z.le_gt_cases d 53); [done|].
    assert (2 ^ 53 <= 2 ^ (d - 1)) by (apply Z.pow_le_mono_r; lia). lia. }
  rewrite Z.add_0_r, fexp_normal by lia.
  unfold shl_align. rewrite Z.sub_0_r.
  destruct (d - 53) as [|n|n] eqn:En; [|lia|].
  - exists p, 0. apply binary_round_aux_exact; [|lia]. fold d. lia.
  - exists (Pos.iter xO p n), (Z.neg n).
    apply binary_round_aux_exact; [|lia].
    apply digits2_unique.
    change (Pos.iter xO p n) with (shift_pos n p).
    rewrite shift_pos_correct, Zpower_pos_nat, Zpower_nat_Z, positive_nat_Z.
    assert (Z.pos n = 53 - d) as Hn by lia. rewrite Hn.
    assert (2 ^ (53 - 1) = 2 ^ (53 - d) * 2 ^ (d - 1)) as ->.
    { rewrite <- Z.pow_add_r by lia. f_equal. lia. }
    assert (2 ^ 53 = 2 ^ (53 - d) * 2 ^ d) as ->.
    { rewrite <- Z.pow_add_r by lia. f_equal. lia. }
    assert (0 < 2 ^ (53 - d)) by (apply Z.pow_pos_nonneg; lia).
    nia.
Qed.

(** The mean of readings none of which is infinite is not [NaN]. *)
Lemma sum_not_NaN {A} (valueof : A -> number) (values : list A) :
  (forall v, v ∈ values -> isNaN (valueof v) = false /\ infinite (valueof v) = false) ->
  isNaN (foldl (fun sum v => add sum (valueof v)) pos_zero values) = false.
Proof.
  induction values as [|x values IH] using rev_ind; intros Hv; [done|].
  rewrite foldl_snoc.
  destruct (Hv x) as [Hx Hi]; [apply elem_of_app; right; by left|].
  apply add_not_NaN; [|done..].
  apply IH. intros v Hin. apply Hv, elem_of_app. by left.
Qed.

(* ===================================================================== *)
(** * [aggregateMonthlyData]: no record lost, none twice *)
(* ===================================================================== *)

Section Partition.

Context {A K : Type} (P : K -> A -> Prop) `{forall k x, Decision (P k x)}.

(** The classes of [l] under the keys [ks], one after the other. *)
Lemma classes_cons_0 (ks : list K) (x : A) (l : list A) :
  length (filter (fun k => P k x) ks) = 0%nat ->
  ks ≫= (fun k => filter (P k) (x :: l)) = ks ≫= (fun k => filter (P k) l).
Proof.
  induction ks as [|k ks IH]; [done|]. intros Hn.
  rewrite !bind_cons. rewrite filter_cons in Hn.
  destruct (decide (P k x)) as [Hk|Hk]; [done|].
  by rewrite filter_cons_False, IH.
Qed.

Lemma classes_cons_1 (ks : list K) (x : A) (l : list A) :
  length (filter (fun k => P k x) ks) = 1%nat ->
  ks ≫= (fun k => filter (P k) (x :: l)) ≡ₚ x :: (ks ≫= fun k => filter (P k) l).
Proof.
  induction ks as [|k ks IH]; [done|]. intros Hn.
  rewrite !bind_cons. rewrite filter_cons in Hn.
  destruct (decide (P k x)) as [Hk|Hk].
  - injection Hn as Hn. by rewrite filter_cons_True, classes_cons_0.
  - rewrite filter_cons_False, IH by done. by rewrite Permutation_middle.
Qed.

(** When each element falls under exactly one of the keys, the classes
    together hold the elements of [l], each once. *)
Lemma classes_perm (ks : list K) (l : list A) :
  (forall x, x ∈ l -> length (filter (fun k => P k x) ks) = 1%nat) ->
  ks ≫= (fun k => filter (P k) l) ≡ₚ l.
Proof.
  induction l as [|x l IH]; intros Hl.
  - clear Hl. induction ks as [|k ks IHk]; [done|]. by rewrite bind_cons, IHk.
  - rewrite classes_cons_1 by (apply Hl; by left).
    f_equiv. apply IH. intros y Hy. apply Hl. by right.
Qed.

End Partition.

Lemma emitted_daily data vs :
  emitted data vs ≫= Monthly.dailyData
  ≡ₚ vs ≫= fun v : visit => monthGroup data v.1 v.2.1.
Proof.
  induction vs as [|v vs IH]; [done|].
  rewrite emitted_cons, bind_app, !bind_cons, IH. f_equiv.
  destruct (monthGroup data v.1 v.2.1) as [|r g] eqn:E; [done|].
  rewrite <- E, bind_cons. unfold summaryOf, summaryAt. cbn [Monthly.dailyData].
  change ([] ≫= Monthly.dailyData) with (@nil ParsedRecord).
  rewrite app_nil_r. apply (sortN_perm 1).
Qed.

(** The records of the entries, for distinct years: the records of the
    groups of the listed years and the months 0-11. *)
Lemma aggregateMonthlyData_daily data years :
  NoDup years ->
  aggregateMonthlyData data years ≫= Monthly.dailyData
  ≡ₚ pairs years ≫= fun k => filter (fun r => year r = k.1 /\ month r = Some k.2) data.
Proof.
  intros Hnd. rewrite aggregateMonthlyData_NoDup, emitted_daily by done.
  rewrite <- visit_keys, list_fmap_bind.
  apply reflexive_eq, list_bind_ext; [|done].
  intros v. simpl. apply monthGroup_eq.
Qed.

(** X4. No record is lost and none is counted twice: for distinct years,
    when each record has one of the years listed and a month 0-11, the
    [dailyData] of the entries of [aggregateMonthlyData], taken together,
    hold the records of [data], each as many times as [data] does. So it is
    in the pipeline, whatever the rows, for the records that
    [filterDataByYearRange] kept. *)
Theorem aggregateMonthlyData_partition :
  (forall (data : list ParsedRecord) (years : list (option Z)),
     NoDup years ->
     (forall r, r ∈ data ->
        year r ∈ years /\ exists i, month r = Some i /\ 0 <= i <= 11) ->
     aggregateMonthlyData data years ≫= Monthly.dailyData ≡ₚ data)
  /\ (forall LocalTZA hostDateParse rawData,
        pipeline LocalTZA hostDateParse rawData ≫= Monthly.dailyData
        ≡ₚ fst (filterDataByYearRange
                  (parseTemperatureData LocalTZA hostDateParse rawData))).
Proof.
  assert (forall (data : list ParsedRecord) (years : list (option Z)),
     NoDup years ->
     (forall r, r ∈ data ->
        year r ∈ years /\ exists i, month r = Some i /\ 0 <= i <= 11) ->
     aggregateMonthlyData data years ≫= Monthly.dailyData ≡ₚ data) as Hgen.
  { intros data years Hnd Hdata.
    rewrite aggregateMonthlyData_daily by done.
    apply (classes_perm (fun (k : option Z * Z) r => year r = k.1 /\ month r = Some k.2)).
    intros r Hr. destruct (Hdata r Hr) as (Hy & i & Hm & Hi).
    rewrite (list_filter_iff _ (fun k => k = (year r, i))).
    - rewrite length_filter_eq_NoDup by (by apply NoDup_pairs).
      rewrite decide_True; [done|]. by apply elem_of_pairs.
    - intros [y m]. simpl. rewrite Hm. split.
      + intros [-> [= ->]]. done.
      + intros [= -> ->]. done. }
  split; [exact Hgen|].
  intros tz hp rawData. unfold pipeline.
  set (parsedData := parseTemperatureData tz hp rawData).
  pose proof (years_NoDup parsedData) as Hnd.
  destruct (years_spec parsedData) as (ys & Hys & _ & _ & Hmem).
  pose proof (filteredData_eq parsedData) as Hf.
  destruct (filterDataByYearRange parsedData) as [filteredData years].
  simpl in *. apply Hgen; [done|].
  intros r Hr. rewrite Hf in Hr. apply list_elem_of_filter in Hr as Hr'.
  destruct Hr' as [Hin Hp].
  destruct (parsed_calendar _ _ _ _ Hp)
    as [(Hy & _)|(y & m & d & Hy & Hm & _ & Hrange & _)].
  - unfold inYearRange in Hin. by rewrite Hy in Hin.
  - split; [|by exists m]. rewrite Hys, Hy. apply list_elem_of_fmap.
    exists y. split; [done|]. apply Hmem. exists r. by rewrite Hf.
Qed.

Lemma aggregateMonthlyData_partition_witness :
  NoDup [Some 2015]
  /\ (forall r, r ∈ scenarioData ->
        year r ∈ [Some 2015] /\ exists i, month r = Some i /\ 0 <= i <= 11)
  /\ aggregateMonthlyData scenarioData [Some 2015] ≫= Monthly.dailyData
     ≡ₚ scenarioData.
Proof.
  assert (NoDup [Some 2015]) as H1 by apply NoDup_singleton.
  assert (forall r, r ∈ scenarioData ->
            year r ∈ [Some 2015] /\ exists i, month r = Some i /\ 0 <= i <= 11)
    as H2.
  { apply Forall_forall.
    assert (Forall (fun r => year r = Some 2015 /\ month r = Some 0) scenarioData)
      as H by (apply (bool_decide_unpack _); by vm_compute).
    eapply Forall_impl; [exact H|]. intros r [-> ->].
    split; [by left|]. by exists 0. }
  split; [exact H1|]. split; [exact H2|].
  exact (proj1 aggregateMonthlyData_partition scenarioData [Some 2015] H1 H2).
Defined.

(* ===================================================================== *)
(** * The statistics of an entry when readings are [NaN] *)
(* ===================================================================== *)

Section Skip.

Context {A : Type} (valueof : A -> number).

(** The values that take part in a statistic: those that are not [NaN]. *)
Lemma mean_acc_filter (values : list A) :
  d3.mean_acc values valueof
  = d3.mean_acc (filter (fun v => isNaN (valueof v) = false) values) valueof.
Proof.
  unfold d3.mean_acc.
  induction values as [|x values IH] using rev_ind; [done|].
  rewrite filter_app, filter_cons, filter_nil, foldl_snoc.
  destruct (decide (isNaN (valueof x) = false)) as [Hx|Hx].
  - by rewrite foldl_snoc, IH.
  - rewrite app_nil_r, <- IH. destruct (foldl _ _ values) as [count sum].
    rewrite ge_self. by destruct (isNaN (valueof x)).
Qed.

Lemma mean_skip (values : list A) :
  let taken := filter (fun v => isNaN (valueof v) = false) values in
  d3.mean values valueof
  = match taken with
    | [] => None
    | _ => Some (div (foldl (fun sum v => add sum (valueof v)) pos_zero taken)
                     (ofZ (Z.of_nat (length taken))))
    end.
Proof.
  intros taken. unfold d3.mean. rewrite mean_acc_filter. fold taken.
  destruct taken as [|v l] eqn:E; [done|]. rewrite <- E.
  apply (mean_defined valueof taken); [by rewrite E|].
  intros w Hw. unfold taken in Hw. by apply list_elem_of_filter in Hw as [? _].
Qed.

Lemma max_skip (values : list A) :
  let taken := filter (fun v => isNaN (valueof v) = false) values in
  match d3.max values valueof with
  | Some hi => hi ∈ valueof <$> taken
               /\ forall v, v ∈ taken -> le (valueof v) hi = true
  | None => taken = []
  end.
Proof.
  intros taken. pose proof (max_spec valueof values) as H.
  destruct (d3.max values valueof) as [hi|].
  - destruct H as (Hn & (v & Hv & <-) & Hle). split.
    + apply list_elem_of_fmap. exists v. split; [done|].
      by apply list_elem_of_filter.
    + intros w [Hw Hin]%list_elem_of_filter. by apply Hle.
  - unfold taken. induction values as [|x l IH]; [done|].
    rewrite filter_cons_False.
    + apply IH. intros v Hv. apply H. by right.
    + rewrite H by (by left). done.
Qed.

Lemma min_skip (values : list A) :
  let taken := filter (fun v => isNaN (valueof v) = false) values in
  match d3.min values valueof with
  | Some lo => lo ∈ valueof <$> taken
               /\ forall v, v ∈ taken -> le lo (valueof v) = true
  | None => taken = []
  end.
Proof.
  intros taken. pose proof (min_spec valueof values) as H.
  destruct (d3.min values valueof) as [lo|].
  - destruct H as (Hn & (v & Hv & <-) & Hle). split.
    + apply list_elem_of_fmap. exists v. split; [done|].
      by apply list_elem_of_filter.
    + intros w [Hw Hin]%list_elem_of_filter. by apply Hle.
  - unfold taken. induction values as [|x l IH]; [done|].
    rewrite filter_cons_False.
    + apply IH. intros v Hv. apply H. by right.
    + rewrite H by (by left). done.
Qed.

End Skip.

(** X5. Readings that are [NaN] (a field that is no number) stay in the
    [dailyData] of their entry and are left out of its statistics. With
    [maxima] the readings [maxTemperature] of the entry that are not [NaN]:
    [maxTemp] and [avgMax] are [undefined] exactly when there is none;
    otherwise [maxTemp] is one of them and the greatest, and [avgMax] is
    their sum, accumulated from 0, over their number. Likewise [minTemp] and
    [avgMin] for [minTemperature]. *)
Theorem statistics_skip_NaN (data : list ParsedRecord) (years : list (option Z))
    (s : Monthly.summary) :
  s ∈ aggregateMonthlyData data years ->
  exists a, a ≡ₚ Monthly.dailyData s /\
    let maxima := filter (fun r => isNaN (maxTemperature r) = false) a in
    let minima := filter (fun r => isNaN (minTemperature r) = false) a in
    match Monthly.maxTemp s with
    | Some hi => hi ∈ maxTemperature <$> maxima
                 /\ forall r, r ∈ maxima -> le (maxTemperature r) hi = true
    | None => maxima = []
    end
    /\ match Monthly.minTemp s with
       | Some lo => lo ∈ minTemperature <$> minima
                    /\ forall r, r ∈ minima -> le lo (minTemperature r) = true
       | None => minima = []
       end
    /\ Monthly.avgMax s
       = match maxima with
         | [] => None
         | _ => Some (div (foldl (fun sum r => add sum (maxTemperature r))
                                 pos_zero maxima)
                          (ofZ (Z.of_nat (length maxima))))
         end
    /\ Monthly.avgMin s
       = match minima with
         | [] => None
         | _ => Some (div (foldl (fun sum r => add sum (minTemperature r))
                                 pos_zero minima)
                          (ofZ (Z.of_nat (length minima))))
         end.
Proof.
  intros Hs.
  apply elem_of_aggregateMonthlyData in Hs
    as (y & i & name & j & k & _ & _ & _ & ->).
  exists (sortN j (monthGroup data y i)). split.
  { unfold summaryAt. cbn [Monthly.dailyData]. by rewrite !sortN_perm. }
  unfold summaryAt.
  cbn [Monthly.maxTemp Monthly.minTemp Monthly.avgMax Monthly.avgMin].
  split_and!.
  - apply max_skip.
  - apply min_skip.
  - apply mean_skip.
  - apply mean_skip.
Qed.

Lemma gapSummary_elem : gapSummary ∈ aggregateMonthlyData gapData [Some 2015].
Proof. vm_compute. left. Qed.

Lemma statistics_skip_NaN_witness :
  gapSummary ∈ aggregateMonthlyData gapData [Some 2015]
  /\ exists a,
       a ≡ₚ Monthly.dailyData gapSummary
       /\ let maxima := filter (fun r => isNaN (maxTemperature r) = false) a in
          Monthly.avgMax gapSummary
          = match maxima with
            | [] => None
            | _ => Some (div (foldl (fun sum r => add sum (maxTemperature r))
                                    pos_zero maxima)
                             (ofZ (Z.of_nat (length maxima))))
            end.
Proof.
  split; [exact gapSummary_elem|].
  destruct (statistics_skip_NaN gapData [Some 2015] gapSummary gapSummary_elem)
    as (a & Hp & _ & _ & H & _).
  exists a. split; [exact Hp|exact H].
Defined.

(** The colour of a mean: there is one exactly when some reading is not
    [NaN], for readings none of which is infinite. *)
Lemma mean_colour {A} (valueof : A -> number) (values : list A) :
  Z.of_nat (length values) < 2 ^ 53 ->
  (forall v, v ∈ values -> infinite (valueof v) = false) ->
  is_Some (colorScale (d3.mean values valueof))
  <-> exists v, v ∈ values /\ isNaN (valueof v) = false.
Proof.
  intros Hlen Hinf. rewrite mean_skip.
  set (taken := filter (fun v => isNaN (valueof v) = false) values).
  assert (forall v, v ∈ taken <-> isNaN (valueof v) = false /\ v ∈ values) as Ht.
  { intros v. unfold taken. by rewrite list_elem_of_filter. }
  destruct taken as [|v l] eqn:E.
  - split; [by intros [? [=]]|]. intros (v & Hv & Hn).
    assert (v ∈ []) as Hin by (by apply Ht). by apply elem_of_nil in Hin.
  - rewrite <- E in *. split; [intros _|intros _].
    + exists v. apply and_comm, Ht. rewrite E. by left.
    + simpl.
      assert (length taken <= length values)%nat as Hle by apply length_filter.
      assert (0 < length taken)%nat as Hpos by (rewrite E; simpl; lia).
      destruct (Z.of_nat (length taken)) as [|p|p] eqn:Ep; [lia| |lia].
      destruct (ofZ_finite p) as (m & e & ->); [lia|].
      rewrite createColorScale_position; [done|].
      apply div_not_NaN, sum_not_NaN.
      intros w Hw. apply Ht in Hw as [Hn Hw]. split; [done|]. by apply Hinf.
Qed.

(** The records of an entry are records of the data. *)
Lemma entry_records data years s r :
  s ∈ aggregateMonthlyData data years -> r ∈ Monthly.dailyData s -> r ∈ data.
Proof.
  intros Hs Hr.
  apply elem_of_aggregateMonthlyData in Hs
    as (y & i & name & j & k & _ & _ & _ & ->).
  unfold summaryAt in Hr. cbn [Monthly.dailyData] in Hr.
  rewrite sortN_perm in Hr. by apply elem_of_monthGroup in Hr as [? _].
Qed.

(** X10. The colour of a cell. When no reading is infinite (and the rows are
    fewer than 2^53), a cell of the page has a [fill], the colour of its
    [avgMax], exactly when one at least of its daily records has a
    [maxTemperature] that is not [NaN]; and after a click, when the cells
    show [avgMin], exactly when one at least has a [minTemperature] that is
    not [NaN]. So a cell is left without colour only when every reading of
    its month is a field that is no number. *)
Theorem main_fill (LocalTZA : Z -> Z) (hostDateParse : jsstring -> option Z)
    (rawData : list Raw.row) :
  Z.of_nat (length rawData) < 2 ^ 53 ->
  Forall (fun r => infinite (maxTemperature r) = false
                   /\ infinite (minTemperature r) = false)
         (parseTemperatureData LocalTZA hostDateParse rawData) ->
  Forall (fun c =>
            let d := Cell.datum c in
            Cell.fill c = colorScale (Monthly.avgMax d)
            /\ (is_Some (colorScale (Monthly.avgMax d))
                <-> exists r, r ∈ Monthly.dailyData d
                              /\ isNaN (maxTemperature r) = false)
            /\ (is_Some (colorScale (Monthly.avgMin d))
                <-> exists r, r ∈ Monthly.dailyData d
                              /\ isNaN (minTemperature r) = false))
         (Page.cells (main LocalTZA hostDateParse rawData)).
Proof.
  intros Hlen Hinf. rewrite main_eq. cbn [Page.cells].
  set (data := parseTemperatureData LocalTZA hostDateParse rawData) in *.
  rewrite Forall_forall in Hinf.
  apply Forall_forall. intros c Hc.
  unfold renderCells in Hc. apply list_elem_of_fmap in Hc as (d & -> & Hd).
  cbn [Cell.datum Cell.fill]. split; [done|].
  assert (forall r, r ∈ fst (filterDataByYearRange data) -> r ∈ data) as Hsub.
  { intros r. rewrite filteredData_eq, list_elem_of_filter. tauto. }
  assert (length (fst (filterDataByYearRange data)) <= length rawData)%nat as Hl.
  { rewrite filteredData_eq. etrans; [apply length_filter|].
    unfold data. by rewrite parseTemperatureData_map, length_fmap. }
  apply elem_of_aggregateMonthlyData in Hd
    as (y & i & name & j & k & _ & _ & _ & ->).
  unfold summaryAt. cbn [Monthly.avgMax Monthly.avgMin Monthly.dailyData].
  set (g := monthGroup (fst (filterDataByYearRange data)) y i).
  assert (forall r, r ∈ g -> r ∈ data) as Hg.
  { intros r Hr. apply Hsub. by apply elem_of_monthGroup in Hr as [? _]. }
  assert (length g <= length rawData)%nat as Hgl.
  { unfold g. rewrite monthGroup_eq. etrans; [apply length_filter|done]. }
  split.
  - rewrite mean_colour.
    + by setoid_rewrite sortN_perm.
    + rewrite sortN_length. lia.
    + intros r Hr. rewrite sortN_perm in Hr. by apply Hinf, Hg.
  - rewrite mean_colour.
    + by setoid_rewrite sortN_perm.
    + rewrite sortN_length. lia.
    + intros r Hr. rewrite sortN_perm in Hr. by apply Hinf, Hg.
Qed.

Lemma main_fill_witness :
  Z.of_nat (length scenarioRows) < 2 ^ 53
  /\ Forall (fun r => infinite (maxTemperature r) = false
                      /\ infinite (minTemperature r) = false)
            (parseTemperatureData utc noOtherFormat scenarioRows)
  /\ Forall (fun c => Cell.fill c = colorScale (Monthly.avgMax (Cell.datum c)))
            (Page.cells (main utc noOtherFormat scenarioRows)).
Proof.
  assert (Z.of_nat (length scenarioRows) < 2 ^ 53) as H1 by (by vm_compute).
  assert (Forall (fun r => infinite (maxTemperature r) = false
                           /\ infinite (minTemperature r) = false)
                 (parseTemperatureData utc noOtherFormat scenarioRows)) as H2.
  { apply (bool_decide_unpack _). by vm_compute. }
  split; [exact H1|]. split; [exact H2|].
  eapply Forall_impl; [exact (main_fill utc noOtherFormat scenarioRows H1 H2)|].
  intros c H. exact (proj1 H).
Defined.

(* ===================================================================== *)
(** * The ordinates of the line charts *)
(* ===================================================================== *)

(** X11. [yScale] on whole degrees from -100 to 200. It descends strictly
    with the temperature, from 47 at 0 degrees to 6 at 40 degrees, so the
    points of readings in the domain lie inside the rectangle of the cell
    (which spans 2 to 53). It does not clamp: above 40 degrees the ordinate
    is above 6 and from 46 degrees on it is negative, outside the cell at the
    top (50 degrees is drawn at -4.25); below 0 degrees it is beyond 47 and
    from -8 degrees on beyond 55, the height of a cell. For [NaN] the scale
    gives [undefined]. *)
Theorem yScale_degrees :
  (forall t, -100 <= t <= 200 ->
     exists y y',
       yScale (ofZ t) = Some y /\ yScale (ofZ (t + 1)) = Some y'
       /\ lt y' y = true
       /\ (0 <= t <= 40 -> le (ofZ 6) y = true /\ le y (ofZ 47) = true)
       /\ (40 < t -> lt y (ofZ 6) = true)
       /\ (46 <= t -> lt y (ofZ 0) = true)
       /\ (t < 0 -> lt (ofZ 47) y = true)
       /\ (t <= -8 -> lt (ofZ 55) y = true))
  /\ yScale (ofZ 0) = Some (ofZ 47)
  /\ yScale (ofZ 40) = Some (ofZ 6)
  /\ yScale (ofZ 50) = Some (num "-4.25")
  /\ yScale NaN = None.
Proof.
  split; [|by vm_compute].
  intros t Ht.
  set (check := fun t =>
         match yScale (ofZ t), yScale (ofZ (t + 1)) with
         | Some y, Some y' =>
             lt y' y
             && (if (0 <=? t) && (t <=? 40) then le (ofZ 6) y && le y (ofZ 47) else true)
             && (if 40 <? t then lt y (ofZ 6) else true)
             && (if 46 <=? t then lt y (ofZ 0) else true)
             && (if t <? 0 then lt (ofZ 47) y else true)
             && (if t <=? -8 then lt (ofZ 55) y else true)
         | _, _ => false
         end).
  assert (check t = true) as H.
  { apply (forall_seqZ (fun t => check t = true) (-100) 301); [by vm_compute|lia]. }
  unfold check in H.
  destruct (yScale (ofZ t)) as [y|]; [|done].
  destruct (yScale (ofZ (t + 1))) as [y'|]; [|done].
  rewrite !andb_true_iff in H. destruct H as (((((H1 & H2) & H3) & H4) & H5) & H6).
  exists y, y'. split_and!; [done|done|done|..].
  - intros Hr.
    replace ((0 <=? t) && (t <=? 40)) with true in H2
      by (symmetry; rewrite andb_true_iff, !Z.leb_le; lia).
    by apply andb_true_iff in H2.
  - intros Hr. by replace (40 <? t) with true in H3 by (symmetry; apply Z.ltb_lt; lia).
  - intros Hr. by replace (46 <=? t) with true in H4 by (symmetry; apply Z.leb_le; lia).
  - intros Hr. by replace (t <? 0) with true in H5 by (symmetry; apply Z.ltb_lt; lia).
  - intros Hr. by replace (t <=? -8) with true in H6 by (symmetry; apply Z.leb_le; lia).
Qed.

(* ===================================================================== *)
(** * The legend *)
(* ===================================================================== *)

(** X12. The legend, for every count of years. [d3.range(0, 1.1, 0.1)] gives
    eleven stops, at the offsets 0, 10, 20, 30.000000000000004, 40, 50,
    60.00000000000001, 70, 80, 90 and 100; their colours are the colours
    that the scale gives to 0, 4, 8, ..., 40 degrees, from the colour of
    [tempRange.min] at offset 0 to the colour of [tempRange.max] at offset
    100. The axis puts 0 degrees at 200, the bottom of the rectangle, and 40
    degrees at 0, its top. *)
Theorem renderLegend_stops (yearCount : number) :
  let legend := renderLegend colorScale yearCount in
  exists stops,
    Legend.stops legend = Some stops
    /\ Legend.offset <$> stops
       = [ ofZ 0; ofZ 10; ofZ 20; num "30.000000000000004"; ofZ 40; ofZ 50;
           num "60.00000000000001"; ofZ 70; ofZ 80; ofZ 90; ofZ 100 ]
    /\ Legend.stop_color <$> stops
       = (fun t => createColorScale (ofZ t))
         <$> [0; 4; 8; 12; 16; 20; 24; 28; 32; 36; 40]
    /\ head (Legend.stop_color <$> stops)
       = Some (createColorScale CONFIG.tempRange.min)
    /\ last (Legend.stop_color <$> stops)
       = Some (createColorScale CONFIG.tempRange.max)
    /\ Legend.legendScale legend CONFIG.tempRange.min = Some CONFIG.legendHeight
    /\ Legend.legendScale legend CONFIG.tempRange.max = Some (ofZ 0).
Proof.
  intros legend. unfold legend, renderLegend.
  cbn [Legend.stops Legend.legendScale].
  assert (d3.range (ofZ 0) (num "1.1") (num "0.1")
          = Some [ ofZ 0; num "0.1"; num "0.2"; num "0.30000000000000004";
                   num "0.4"; num "0.5"; num "0.6000000000000001";
                   num "0.7000000000000001"; num "0.8"; num "0.9"; ofZ 1 ]) as ->
    by (by vm_compute).
  eexists. split; [reflexivity|]. by vm_compute.
Qed.

(* ===================================================================== *)
(** * The toggle button *)
(* ===================================================================== *)

(** The fills that [renderCells] sets show [avgMax]. *)
Lemma renderCells_fill monthlyData scale years :
  Cell.fill <$> renderCells monthlyData scale years true
  = (fun cell => scale (Monthly.avgMax (Cell.datum cell)))
    <$> renderCells monthlyData scale years true.
Proof.
  unfold renderCells. induction monthlyData as [|d l IH]; [done|].
  simpl. f_equal. exact IH.
Qed.

(** X13. The toggle. After [n] clicks on the button, from the page as
    rendered: [isShowingMaxTemp] is true exactly when [n] is even; the
    [fill] of each cell is the colour of its [avgMax] when [n] is even and of
    its [avgMin] when [n] is odd; after one click at least, the text of the
    button names the temperature shown; and two clicks undo each other:
    three clicks leave the state that one click leaves. *)
Theorem toggle_clicks (monthlyData : list Monthly.summary)
    (scale : option number -> option string) (years : list (option Z))
    (buttonText : string) (n : nat) :
  let cells := renderCells monthlyData scale years true in
  let st := Nat.iter n (click cells scale) (initialState cells buttonText) in
  Toggle.isShowingMaxTemp st = Nat.even n
  /\ Toggle.fills st
     = (fun cell => scale (if Nat.even n then Monthly.avgMax (Cell.datum cell)
                           else Monthly.avgMin (Cell.datum cell))) <$> cells
  /\ Toggle.buttonText st
     = match n with
       | O => buttonText
       | _ => if Nat.even n then "Showing: Maximum Temperature"%string
              else "Showing: Minimum Temperature"%string
       end
  /\ click cells scale (click cells scale (click cells scale st))
     = click cells scale st.
Proof.
  intros cells st.
  assert (Toggle.isShowingMaxTemp st = Nat.even n
          /\ Toggle.fills st
             = (fun cell => scale (if Nat.even n then Monthly.avgMax (Cell.datum cell)
                                   else Monthly.avgMin (Cell.datum cell))) <$> cells
          /\ Toggle.buttonText st
             = match n with
               | O => buttonText
               | _ => if Nat.even n then "Showing: Maximum Temperature"%string
                      else "Showing: Minimum Temperature"%string
               end) as (H1 & H2 & H3).
  { unfold st. clear st. induction n as [|n (IH1 & IH2 & IH3)].
    - split_and!; [done| |done]. apply renderCells_fill.
    - change (Nat.iter (S n) (click cells scale) (initialState cells buttonText))
        with (click cells scale
                (Nat.iter n (click cells scale) (initialState cells buttonText))).
      unfold click at 1 3 5.
      cbn [Toggle.isShowingMaxTemp Toggle.buttonText Toggle.fills].
      rewrite IH1.
      assert (negb (Nat.even n) = Nat.even (S n)) as ->
        by (by rewrite Nat.even_succ, <- Nat.negb_even).
      done. }
  split_and!; [done..|].
  unfold click. cbn [Toggle.isShowingMaxTemp Toggle.buttonText Toggle.fills].
  by rewrite negb_involutive.
Qed.

(* ===================================================================== *)
(** * The date of the tooltip *)
(* ===================================================================== *)

(** The date written for year [y] and month index [m]. *)
Lemma tooltipDate_eq (d : Monthly.summary) :
  tooltipDate d
  = (JSString.ofNumber (Monthly.year d) ++ "-"
     ++ JSString.padStart 2 "0" (JSString.ofNumber (Some (Monthly.month d + 1))))%string.
Proof. done. Qed.

Lemma tooltipDate_parse (y m : Z) :
  1000 <= y <= 9999 -> 0 <= m <= 11 ->
  parseIsoDate
    (lit (JSString.ofNumber (Some y) ++ "-"
          ++ JSString.padStart 2 "0" (JSString.ofNumber (Some (m + 1)))))
  = IsoDate y (m + 1) 1
  /\ length (lit (JSString.ofNumber (Some y) ++ "-"
                  ++ JSString.padStart 2 "0" (JSString.ofNumber (Some (m + 1)))))
     = 7%nat.
Proof.
  intros Hy Hm.
  set (check := fun y m =>
         match parseIsoDate
                 (lit (JSString.ofNumber (Some y) ++ "-"
                       ++ JSString.padStart 2 "0"
                            (JSString.ofNumber (Some (m + 1))))) with
         | IsoDate a b c => (a =? y) && (b =? m + 1) && (c =? 1)
         | NotIso => false
         end
         && Nat.eqb (length (lit (JSString.ofNumber (Some y) ++ "-"
                                  ++ JSString.padStart 2 "0"
                                       (JSString.ofNumber (Some (m + 1))))))
                    7).
  assert (Forall (fun m => check y m = true) (seqZ 0 12)) as H.
  { apply (forall_seqZ
             (fun y => Forall (fun m => check y m = true) (seqZ 0 12))
             1000 9000); [by vm_compute|lia]. }
  rewrite Forall_forall in H.
  assert (check y m = true) as Hc by (apply H, elem_of_seqZ; lia).
  unfold check in Hc. apply andb_true_iff in Hc as [Hc Hl].
  apply Nat.eqb_eq in Hl. split; [|done].
  destruct (parseIsoDate _) as [a b c|]; [|done].
  rewrite !andb_true_iff, !Z.eqb_eq in Hc. by destruct Hc as [[-> ->] ->].
Qed.

(** X14. The date of a tooltip reads back as the month of its entry. For an
    entry with a year of four digits and a month 0-11, the date written,
    [year-MM], is a date-only string of seven characters that names the
    first day of that month: [new Date] of it is UTC midnight of that day,
    and on a host on UTC its year and month are those of the entry. *)
Theorem tooltipDate_roundtrip (hostDateParse : jsstring -> option Z)
    (d : Monthly.summary) (y : Z) :
  Monthly.year d = Some y -> 1000 <= y <= 9999 -> 0 <= Monthly.month d <= 11 ->
  let t := JSDate.new_Date hostDateParse (lit (tooltipDate d)) in
  parseIsoDate (lit (tooltipDate d)) = IsoDate y (Monthly.month d + 1) 1
  /\ length (lit (tooltipDate d)) = 7%nat
  /\ t = Some (MakeDate (MakeDay y (Monthly.month d) 1))
  /\ JSDate.getFullYear utc t = Some y
  /\ JSDate.getMonth utc t = Some (Monthly.month d).
Proof.
  intros Hy Hr Hm t.
  destruct (tooltipDate_parse y (Monthly.month d) Hr Hm) as [Hp Hl].
  rewrite <- Hy, <- tooltipDate_eq in Hp, Hl.
  assert (t = Some (MakeDate (MakeDay y (Monthly.month d) 1))) as Ht.
  { unfold t. rewrite (new_Date_valid _ _ _ _ _ Hp); [|lia|].
    - do 3 f_equal. lia.
    - pose proof (DaysInMonth_range y (Monthly.month d + 1 - 1)). lia. }
  pose proof (DaysInMonth_range y (Monthly.month d)) as Hdim.
  destruct (MakeDay_roundtrip y (Monthly.month d) 1 Hm ltac:(lia)) as (Hyr & Hmo & _).
  split_and!; [done|done|done|..]; rewrite Ht; simpl; unfold LocalTime, utc;
    rewrite Z.add_0_r; congruence.
Qed.

Lemma tooltipDate_roundtrip_witness :
  Monthly.year scenarioSummary = Some 2015
  /\ 1000 <= 2015 <= 9999
  /\ 0 <= Monthly.month scenarioSummary <= 11
  /\ parseIsoDate (lit (tooltipDate scenarioSummary)) = IsoDate 2015 1 1.
Proof.
  assert (Monthly.year scenarioSummary = Some 2015) as H1 by reflexivity.
  assert (1000 <= 2015 <= 9999) as H2 by lia.
  assert (0 <= Monthly.month scenarioSummary <= 11) as H3 by (by vm_compute).
  split; [exact H1|]. split; [exact H2|]. split; [exact H3|].
  exact (proj1 (tooltipDate_roundtrip noOtherFormat scenarioSummary 2015 H1 H2 H3)).
Defined.

(* ===================================================================== *)
(** * A file with no row in the range *)
(* ===================================================================== *)

(** X15. When no row has a year in 2008-2017 (an empty file, for one), the
    page has no year, no entry, no cell, no chart and no year label; the
    twelve month labels and the legend are drawn all the same, the legend at
    30, in an SVG 250 wide and 760 high. *)
Theorem main_nothing_in_range (LocalTZA : Z -> Z)
    (hostDateParse : jsstring -> option Z) (rawData : list Raw.row) :
  Forall (fun r => ~ inYearRange r)
         (parseTemperatureData LocalTZA hostDateParse rawData) ->
  let page := main LocalTZA hostDateParse rawData in
  Page.years page = [] /\ Page.monthlyData page = [] /\ Page.cells page = []
  /\ Page.charts page = [] /\ Page.yearLabels page = []
  /\ Text.text <$> Page.monthLabels page = MONTHS
  /\ SVG.width (Page.dimensions page) = ofZ 250
  /\ SVG.height (Page.dimensions page) = ofZ 760
  /\ Legend.translate (Page.legend page) = (ofZ 30, ofZ 50).
Proof.
  intros Hout page.
  assert (filterDataByYearRange (parseTemperatureData LocalTZA hostDateParse rawData)
          = ([], [])) as E.
  { assert (fst (filterDataByYearRange
                   (parseTemperatureData LocalTZA hostDateParse rawData)) = []) as E.
    { rewrite filteredData_eq.
      induction Hout as [|r l Hr _ IH]; [done|]. by rewrite filter_cons_False. }
    unfold filterDataByYearRange in *. simpl in E. by rewrite E. }
  unfold page, main. rewrite E. by vm_compute.
Qed.

Lemma main_nothing_in_range_witness :
  Forall (fun r => ~ inYearRange r)
         (parseTemperatureData utc noOtherFormat beforeRangeRows)
  /\ Page.cells (main utc noOtherFormat beforeRangeRows) = [].
Proof.
  assert (Forall (fun r => ~ inYearRange r)
            (parseTemperatureData utc noOtherFormat beforeRangeRows))
    as H.
  { apply (bool_decide_unpack _). by vm_compute. }
  split; [exact H|].
  destruct (main_nothing_in_range utc noOtherFormat
              beforeRangeRows H) as (_ & _ & Hc & _).
  exact Hc.
Defined.

(* ===================================================================== *)
(** * From a row to its cell *)
(* ===================================================================== *)

(** X16. From a row to its cell. On a host at or east of UTC, a row dated
    [YYYY-MM-DD] with a day of the calendar and a year in 2008-2017 is drawn:
    the page has a cell for that year and that month, named by the name of
    the month, and the record of the row, with the day written and the two
    readings of the row, is among the daily records of the cell. *)
Theorem main_row_cell (LocalTZA : Z -> Z) (hostDateParse : jsstring -> option Z)
    (rawData : list Raw.row) (i : nat) (d : Raw.row) (y m dt : Z) :
  (forall t, 0 <= LocalTZA t < msPerDay) ->
  rawData !! i = Some d ->
  parseIsoDate (Raw.date d) = IsoDate y m dt ->
  1 <= m <= 12 -> 1 <= dt <= DaysInMonth y (m - 1) ->
  2008 <= y <= 2017 ->
  exists c r,
    c ∈ Page.cells (main LocalTZA hostDateParse rawData)
    /\ Monthly.year (Cell.datum c) = Some y
    /\ Monthly.month (Cell.datum c) = m - 1
    /\ (m - 1, Monthly.monthName (Cell.datum c)) ∈ JSArray.entries MONTHS
    /\ r ∈ Monthly.dailyData (Cell.datum c)
    /\ day r = Some dt
    /\ maxTemperature r = StringToNumber (Raw.max_temperature d)
    /\ minTemperature r = StringToNumber (Raw.min_temperature d).
Proof.
  intros Htz Hi E Hm Hd Hy.
  set (r := parseRow LocalTZA hostDateParse d).
  pose proof (new_Date_valid hostDateParse _ _ _ _ E Hm Hd) as Ht.
  destruct (parseRow_fields LocalTZA hostDateParse d _ y (m - 1) dt Ht)
    as (Hyr & Hmo & Hda); [unfold LocalTime; apply Day_east, Htz|lia|done|].
  fold r in Hyr, Hmo, Hda.
  set (data := parseTemperatureData LocalTZA hostDateParse rawData).
  assert (r ∈ fst (filterDataByYearRange data)) as Hr.
  { rewrite filteredData_eq. apply list_elem_of_filter. split.
    - unfold inYearRange. rewrite Hyr.
      unfold CONFIG.yearRange.start, CONFIG.yearRange.end_. lia.
    - unfold data. eapply list_elem_of_lookup_2. by apply parse_lookup. }
  destruct (pipeline_entries LocalTZA hostDateParse rawData) as [Hcov _].
  destruct (Hcov r Hr) as (s & Hs & Hsy & Hsm & Hin).
  rewrite <- main_monthlyData, main_eq in Hs. cbn [Page.monthlyData] in Hs.
  fold data in Hs.
  destruct (entry_name _ _ _ Hs) as (_ & _ & Hname).
  rewrite Hmo in Hsm. injection Hsm as Hsm.
  exists {| Cell.datum := s;
            Cell.translate :=
              (mul (ofZ (JSArray.indexOf (snd (filterDataByYearRange data))
                                         (Monthly.year s))) CONFIG.cellWidth,
               mul (ofZ (Monthly.month s)) CONFIG.cellHeight);
            Cell.width := sub CONFIG.cellWidth (mul (ofZ 2) CONFIG.cellPadding);
            Cell.height := sub CONFIG.cellHeight (mul (ofZ 2) CONFIG.cellPadding);
            Cell.x := CONFIG.cellPadding;
            Cell.y := CONFIG.cellPadding;
            Cell.rx := CONFIG.cellRounding;
            Cell.fill := colorScale (Monthly.avgMax s) |}, r.
  cbn [Cell.datum]. split_and!; try done.
  - rewrite main_eq. cbn [Page.cells]. fold data. unfold renderCells.
    apply list_elem_of_fmap. by exists s.
  - by rewrite Hsy.
  - by rewrite Hsm.
Qed.

Lemma main_row_cell_witness :
  (forall t, 0 <= utc t < msPerDay)
  /\ [leapDayRow] !! 0%nat = Some leapDayRow
  /\ parseIsoDate (Raw.date leapDayRow) = IsoDate 2016 2 29
  /\ 1 <= 2 <= 12 /\ 1 <= 29 <= DaysInMonth 2016 (2 - 1)
  /\ 2008 <= 2016 <= 2017
  /\ exists c r,
       c ∈ Page.cells (main utc noOtherFormat [leapDayRow])
       /\ Monthly.year (Cell.datum c) = Some 2016
       /\ Monthly.month (Cell.datum c) = 2 - 1
       /\ r ∈ Monthly.dailyData (Cell.datum c)
       /\ day r = Some 29.
Proof.
  assert (forall t, 0 <= utc t < msPerDay) as H1 by (by vm_compute).
  assert ([leapDayRow] !! 0%nat = Some leapDayRow) as H2 by reflexivity.
  assert (parseIsoDate (Raw.date leapDayRow) = IsoDate 2016 2 29) as H3
    by (by vm_compute).
  assert (1 <= 2 <= 12) as H4 by lia.
  assert (1 <= 29 <= DaysInMonth 2016 (2 - 1)) as H5 by (by vm_compute).
  assert (2008 <= 2016 <= 2017) as H6 by lia.
  split; [exact H1|]. split; [exact H2|]. split; [exact H3|].
  split; [exact H4|]. split; [exact H5|]. split; [exact H6|].
  destruct (main_row_cell utc noOtherFormat [leapDayRow] 0 leapDayRow 2016 2 29
              H1 H2 H3 H4 H5 H6)
    as (c & r & Hc & Hy & Hm & _ & Hr & Hd & _).
  exists c, r. split; [exact Hc|]. split; [exact Hy|]. split; [exact Hm|].
  split; [exact Hr|exact Hd].
Defined.

(* ===================================================================== *)
(** * An entry whose year is not listed *)
(* ===================================================================== *)

Lemma indexOf_from_absent (l : list (option Z)) s x :
  (x ∉ l) \/ x = None -> JSArray.indexOf_from s l x = -1.
Proof.
  revert s. induction l as [|a l IH]; intros s Hx; [done|]. simpl.
  assert (JSArray.strictEq a x = false) as ->.
  { destruct Hx as [Hx| ->]; [|by destruct a].
    destruct a as [a|], x as [x|]; try done. simpl. apply Z.eqb_neq.
    intros ->. apply Hx. by left. }
  apply IH. destruct Hx as [Hx|Hx]; [left|by right].
  intros Hin. apply Hx. by right.
Qed.

(** X17. [renderCells] does not check that the year of an entry is among
    the years it is given: for entries whose year is not listed, or is
    [NaN], [indexOf] gives -1 and each cell is placed at -90, one column to
    the left of the grid, in the row of its month all the same. *)
Theorem renderCells_year_not_listed (monthlyData : list Monthly.summary)
    (scale : option number -> option string) (years : list (option Z))
    (shown : bool) :
  Forall (fun d => (Monthly.year d ∉ years) \/ Monthly.year d = None)
         monthlyData ->
  Cell.translate <$> renderCells monthlyData scale years shown
  = (fun d => (ofZ (-90), mul (ofZ (Monthly.month d)) CONFIG.cellHeight))
    <$> monthlyData.
Proof.
  intros Hy. unfold renderCells.
  induction Hy as [|d l Hd _ IH]; [done|].
  simpl. f_equal; [|exact IH].
  unfold JSArray.indexOf. by rewrite indexOf_from_absent.
Qed.

Lemma renderCells_year_not_listed_witness :
  Forall (fun d => (Monthly.year d ∉ [Some 2014]) \/ Monthly.year d = None)
         [scenarioSummary]
  /\ Cell.translate <$> renderCells [scenarioSummary] colorScale [Some 2014] true
     = [(ofZ (-90), mul (ofZ (Monthly.month scenarioSummary)) CONFIG.cellHeight)].
Proof.
  assert (Forall (fun d => (Monthly.year d ∉ [Some 2014]) \/ Monthly.year d = None)
                 [scenarioSummary]) as H.
  { apply Forall_singleton. left. intros Hin.
    apply list_elem_of_singleton in Hin. discriminate Hin. }
  split; [exact H|].
  exact (renderCells_year_not_listed [scenarioSummary] colorScale [Some 2014] true H).
Defined.

(* ===================================================================== *)
(** * The arrays of the entries *)
(* ===================================================================== *)

Lemma NoDup_fmap_eq {A B} (f : A -> B) (l : list A) x y :
  NoDup (f <$> l) -> x ∈ l -> y ∈ l -> f x = f y -> x = y.
Proof.
  induction l as [|a l IH]; intros Hnd Hx Hy E; [by apply elem_of_nil in Hx|].
  rewrite fmap_cons in Hnd. apply NoDup_cons in Hnd as [Ha Hnd].
  apply elem_of_cons in Hx as [->|Hx]; apply elem_of_cons in Hy as [->|Hy].
  - done.
  - destruct Ha. rewrite E. apply list_elem_of_fmap. by exists y.
  - destruct Ha. rewrite <- E. apply list_elem_of_fmap. by exists x.
  - by apply IH.
Qed.

(** The address of an entry is the address that [d3.group] gave to its year
    and month. *)
Lemma heap_entries (h : Heap.heap) (data_loc : Heap.loc)
    (data : list ParsedRecord) (years : list (option Z)) :
  h !! data_loc = Some data ->
  let r := Heap.aggregateMonthlyData h data_loc years in
  let g := (Heap.group2 h data).2 in
  Forall (fun e : Heap.entry =>
            lookup2 g (Monthly.year e.1) (Some (Monthly.month e.1)) = Some e.2)
         r.2
  /\ (forall k1 k2 k1' k2' l,
        lookup2 g k1 k2 = Some l -> lookup2 g k1' k2' = Some l ->
        k1 = k1' /\ k2 = k2').
Proof.
  intros Hdata r g.
  assert (Heap.read h data_loc = data) as Hread.
  { unfold Heap.read. by rewrite Hdata. }
  subst r g. unfold Heap.aggregateMonthlyData. rewrite Hread.
  pose proof (group2_spec h data) as (Ha & Hb & Hc & Hd).
  destruct (Heap.group2 h data) as [h1 g]. simpl in *.
  assert (sim h g (d3.group2 data (fun d => year d) (fun d => month d), [])
              (h1, [])) as Hsim.
  { split_and!; simpl; try done.
    - intros y i. rewrite get2_group2, monthGroup_eq.
      specialize (Ha y (Some i)). unfold pathGroup in Ha.
      destruct (filter _ data) as [|r0 a]; [by rewrite Ha|].
      destruct Ha as (l & -> & Hl). done.
    - intros k1 k2 l Hl. apply elem_of_dom. by apply (Hb _ _ _ Hl). }
  assert (forall k1 k2 l, lookup2 g k1 k2 = Some l -> l ∉ dom h) as Hnew.
  { intros k1 k2 l Hl. by apply (Hb _ _ _ Hl). }
  pose proof (loop_sim h g Hnew Hc years _ _ Hsim) as Hloop.
  destruct Hloop as (_ & _ & _ & _ & Hrefs). split; [exact Hrefs|exact Hc].
Qed.

(** X18. The arrays that [aggregateMonthlyData] touches. A call writes to
    no array that existed before it (the array of the caller and any other
    are as they were), and the [dailyData] of every entry returned is a new
    array, one that [d3.group] made. Two entries have the same array exactly
    when they have the same year and month: for distinct years no two
    entries share their [dailyData]. *)
Theorem aggregateMonthlyData_arrays (h : Heap.heap) (data_loc : Heap.loc)
    (data : list ParsedRecord) (years : list (option Z)) :
  h !! data_loc = Some data ->
  let r := Heap.aggregateMonthlyData h data_loc years in
  (forall l, l ∈ dom h -> r.1 !! l = h !! l)
  /\ Forall (fun e : Heap.entry => is_Some (r.1 !! e.2) /\ e.2 ∉ dom h) r.2
  /\ (forall e1 e2 : Heap.entry, e1 ∈ r.2 -> e2 ∈ r.2 ->
        (e1.2 = e2.2 <-> summary_key e1.1 = summary_key e2.1))
  /\ (NoDup years -> NoDup (snd <$> r.2)).
Proof.
  intros Hdata r.
  destruct (heap_refines h data_loc data years Hdata) as (Hres & Hfr & Hnew).
  destruct (heap_entries h data_loc data years Hdata) as (Hrefs & Hinj).
  fold r in Hres, Hfr, Hnew, Hrefs.
  rewrite Forall_forall in Hrefs.
  assert (forall e1 e2 : Heap.entry, e1 ∈ r.2 -> e2 ∈ r.2 ->
            (e1.2 = e2.2 <-> summary_key e1.1 = summary_key e2.1)) as Hsame.
  { intros e1 e2 H1 H2. pose proof (Hrefs e1 H1) as L1.
    pose proof (Hrefs e2 H2) as L2. unfold summary_key. split.
    - intros E. rewrite E in L1.
      destruct (Hinj _ _ _ _ _ L1 L2) as [-> [= ->]]. done.
    - intros [= Ey Em]. rewrite Ey, Em in L1. congruence. }
  split_and!; [done|done|done|].
  intros Hnd.
  assert (NoDup ((fun e : Heap.entry => summary_key e.1) <$> r.2)) as Hkeys.
  { assert ((fun e : Heap.entry => summary_key e.1) <$> r.2
            = summary_key <$> Heap.result r) as ->.
    { unfold Heap.result. rewrite <- list_fmap_compose. by apply list_fmap_ext. }
    rewrite Hres, aggregateMonthlyData_keys. by apply NoDup_filter, NoDup_pairs. }
  apply NoDup_fmap_2_strong; [|by apply NoDup_fmap_1 in Hkeys].
  intros e1 e2 H1 H2 E. apply (Hsame e1 e2 H1 H2) in E.
  by apply (NoDup_fmap_eq (fun e : Heap.entry => summary_key e.1) r.2).
Qed.

Lemma aggregateMonthlyData_arrays_witness :
  scenarioHeap !! 1%positive = Some scenarioData
  /\ NoDup (snd <$> (Heap.aggregateMonthlyData scenarioHeap 1 [Some 2015]).2)
  /\ (Heap.aggregateMonthlyData scenarioHeap 1 [Some 2015]).1 !! 1%positive
     = scenarioHeap !! 1%positive.
Proof.
  assert (scenarioHeap !! 1%positive = Some scenarioData) as H
    by apply lookup_singleton_eq.
  split; [exact H|].
  destruct (aggregateMonthlyData_arrays scenarioHeap 1 scenarioData [Some 2015] H)
    as (Hfr & _ & _ & Hnd).
  split; [apply Hnd, NoDup_singleton|].
  apply Hfr. apply elem_of_dom. by rewrite H.
Defined.
